(** * Chat.jsx: the chat page's synchronisation and messaging core

    A shallow embedding of [src/app/src/pages/Chat.jsx] (the [Chat]
    component): the conversation-key derivation, the message queries, the
    selection handlers and effects, [handleSubmit] with its AI branch, and
    [handleForwardMessage] with its batched writes.

    Conventions.
    - A [string] is a JavaScript string whose UTF-16 code units are all
      below 256, one character for each code unit.  On these the order of
      [Array.prototype.sort] (by code units) is the order of
      [String.compare], and the white space of [String.prototype.trim] is
      the characters 9 to 13, 32 and 160.  The one text of the page
      outside this alphabet, the paperclip of [lastMessage], has a
      constructor of its own ([LastAttachment]).
    - [null] and [undefined] are [None]; an absent object field is [None].
    - The document store, the realtime database, the upload service and the
      generation backend are collaborators: their answers are read from a
      [World], and what the page does with each answer is the page's code. *)

From Stdlib Require Import ZArith Lia Bool Ascii String Sorted.
From stdpp Require Import gmap strings list.

Open Scope string_scope.

(** ** JavaScript string and array primitives used by the page *)

(** [Array.prototype.sort()] without a comparator, on strings: a stable
    sort by [String.leb].  Insertion from the right keeps the earlier of
    two equal elements first. *)
Fixpoint sort_insert (x : string) (l : list string) : list string :=
  match l with
  | [] => [x]
  | y :: l' => if String.leb x y then x :: l else y :: sort_insert x l'
  end.

Definition js_sort (l : list string) : list string :=
  foldr sort_insert [] l.

(** [Array.prototype.join(sep)] on strings. *)
Definition js_join (sep : string) (l : list string) : string :=
  String.concat sep l.

(** [[uidA, uidB].sort().join('_')], lines 90-93, 289-290 and 343-344. *)
Definition participants_of (uidA uidB : string) : list string :=
  js_sort [uidA; uidB].

Definition conversationKey (uidA uidB : string) : string :=
  js_join "_" (participants_of uidA uidB).

(** Does the character [c] occur in [s]? *)
Fixpoint has_char (c : ascii) (s : string) : bool :=
  match s with
  | EmptyString => false
  | String d s' => if Ascii.eqb c d then true else has_char c s'
  end.

(** Two unordered pairs are the same. *)
Definition same_pair (a b c d : string) : Prop :=
  (a = c /\ b = d) \/ (a = d /\ b = c).

(** [s.trim()]: white space and line terminators are stripped at both
    ends; among the code units below 256 these are tab, line feed,
    vertical tab, form feed, carriage return, space and the no-break space
    U+00A0. *)
Definition is_white (c : ascii) : bool :=
  let n := nat_of_ascii c in
  ((9 <=? n)%nat && (n <=? 13)%nat) || (n =? 32)%nat || (n =? 160)%nat.

Fixpoint trim_start (s : string) : string :=
  match s with
  | EmptyString => EmptyString
  | String c s' => if is_white c then trim_start s' else s
  end.

Definition js_trim (s : string) : string :=
  String.rev (trim_start (String.rev (trim_start s))).

(** Truthiness of a string: every string but the empty one. *)
Definition truthy (s : string) : bool :=
  negb (String.eqb s EmptyString).

(** [a || b] on a possibly absent string and a fallback. *)
Definition or_else (a : option string) (b : option string) : option string :=
  match a with
  | Some x => if truthy x then Some x else b
  | None => b
  end.

(** [s.split(sep)] for a one-character separator: never empty. *)
Fixpoint js_split (sep : ascii) (s : string) : list string :=
  match s with
  | EmptyString => [EmptyString]
  | String c s' =>
      if Ascii.eqb c sep then EmptyString :: js_split sep s'
      else match js_split sep s' with
           | [] => [String c EmptyString]
           | p :: ps => String c p :: ps
           end
  end.

(** [s.startsWith(p)]. *)
Definition startsWith (s p : string) : bool := String.prefix p s.

(** [s.indexOf('//') >= 0]. *)
Fixpoint has_double_slash (s : string) : bool :=
  match s with
  | String "/" (String "/" _) => true
  | String _ s' => has_double_slash s'
  | EmptyString => false
  end.

(** ** Data model *)

(** A document of [users]: [{id: doc.id, ...doc.data()}]. *)
Record User := mkUser {
  user_id : string;
  user_uid : string;
  user_name : option string;
  user_photoURL : option string }.

Record Group := mkGroup {
  group_id : string;
  group_members : list string }.

(** The browser's [File] picked in the input. *)
Record File := mkFile {
  file_name : string;
  file_size : nat;
  file_type : string }.

(** What [uploadFileToCloudinary] resolves to. *)
Record UploadResult := mkUploadResult {
  up_url : string;
  up_publicId : string;
  up_resourceType : string }.

(** [fileData], lines 177-184. *)
Record FileData := mkFileData {
  fd_url : string;
  fd_name : string;
  fd_size : nat;
  fd_type : string;
  fd_publicId : string;
  fd_resourceType : string }.

(** A document of [messages] or [aiMessages].  The page writes object
    literals with different sets of fields; a field a literal does not
    have is [None].  [m_timestamp] is the value the server puts in place
    of [serverTimestamp()]. *)
Record MessageDoc := mkMessageDoc {
  m_text : string;
  m_timestamp : nat;
  m_uid : option string;
  m_userId : option string;
  m_isAI : option bool;
  m_isError : option bool;
  m_fileData : option FileData;
  m_photoURL : option string;
  m_displayName : option string;
  m_conversationId : option string;
  m_receiverId : option string;
  m_groupId : option string;
  m_forwarded : option bool;
  m_originalSender : option string }.

(** An element of the [messages] state, lines 117-122:
    [{id: doc.id, ...doc.data(), timestamp: ..., isAI: doc.data().isAI || false}]. *)
Record MessageView := mkMessageView {
  mv_id : nat;
  mv_doc : MessageDoc;
  mv_isAI : bool }.

(** The value of [lastMessage], line 365: a text, or the paperclip
    U+1F4CE, a space and a file's name. *)
Inductive LastMessage :=
  | LastText (text : string)
  | LastAttachment (name : string).

(** A document of [conversations]: the four fields the page writes and
    whatever else the document holds. *)
Record ConvoDoc := mkConvoDoc {
  cv_participants : option (list string);
  cv_lastMessage : option LastMessage;
  cv_lastMessageTimestamp : option nat;
  cv_unreadCount : gmap string Z;
  cv_extra : gmap string string }.

(** [convoData], lines 363-368 ([lastMessageTimestamp] is the server's). *)
Record ConvoPatch := mkConvoPatch {
  cp_participants : list string;
  cp_lastMessage : LastMessage;
  cp_unreadCount : gmap string Z }.

(** A value of the realtime database under [status/<uid>]. *)
Record StatusData := mkStatusData {
  sd_status : option string;
  sd_lastChanged : option nat }.

(** An entry of the [userStatus] state, lines 138-141. *)
Record StatusRec := mkStatusRec {
  st_status : string;
  st_lastChanged : option nat }.

(** A value of the realtime database under [typing/<uid>]. *)
Inductive RtVal :=
  | RtNull
  | RtBool (b : bool)
  | RtString (s : string).

#[global] Instance User_eq_dec : EqDecision User.
Proof. solve_decision. Defined.
#[global] Instance Group_eq_dec : EqDecision Group.
Proof. solve_decision. Defined.
#[global] Instance File_eq_dec : EqDecision File.
Proof. solve_decision. Defined.
#[global] Instance FileData_eq_dec : EqDecision FileData.
Proof. solve_decision. Defined.
#[global] Instance MessageDoc_eq_dec : EqDecision MessageDoc.
Proof. solve_decision. Defined.

(** ** The document store *)

Inductive Collection := ColMessages | ColAiMessages.

Inductive Field := FConversationId | FGroupId | FUserId.

Inductive Direction := Asc | Desc.

#[global] Instance Collection_eq_dec : EqDecision Collection.
Proof. solve_decision. Defined.
#[global] Instance Field_eq_dec : EqDecision Field.
Proof. solve_decision. Defined.
#[global] Instance Direction_eq_dec : EqDecision Direction.
Proof. solve_decision. Defined.

(** [query(collection(db, c), where(f, '==', v), orderBy('timestamp', d),
    limit(n))]. *)
Record Query := mkQuery {
  q_collection : Collection;
  q_where_field : Field;
  q_where_value : string;
  q_order : Direction;
  q_limit : nat }.

#[global] Instance Query_eq_dec : EqDecision Query.
Proof. solve_decision. Defined.

(** The two message collections hold documents under their ids, in the
    order of insertion; [conversations] is keyed by document path. *)
Record Store := mkStore {
  messagesCol : list (nat * MessageDoc);
  aiMessagesCol : list (nat * MessageDoc);
  conversationsCol : gmap string ConvoDoc;
  serverClock : nat }.

Definition collection_docs (st : Store) (c : Collection) : list (nat * MessageDoc) :=
  match c with
  | ColMessages => messagesCol st
  | ColAiMessages => aiMessagesCol st
  end.

Definition field_of (f : Field) (d : MessageDoc) : option string :=
  match f with
  | FConversationId => m_conversationId d
  | FGroupId => m_groupId d
  | FUserId => m_userId d
  end.

(** [where(f, '==', v)]. *)
Definition matches (q : Query) (d : nat * MessageDoc) : bool :=
  bool_decide (field_of (q_where_field q) (snd d) = Some (q_where_value q)).

(** [orderBy('timestamp', 'asc')]: by timestamp, then by document id. *)
Definition doc_le (x y : nat * MessageDoc) : bool :=
  (m_timestamp (snd x) <? m_timestamp (snd y))%nat
  || ((m_timestamp (snd x) =? m_timestamp (snd y))%nat && (fst x <=? fst y)%nat).

Fixpoint doc_insert (x : nat * MessageDoc) (l : list (nat * MessageDoc))
  : list (nat * MessageDoc) :=
  match l with
  | [] => [x]
  | y :: l' => if doc_le x y then x :: l else y :: doc_insert x l'
  end.

Definition order_by_timestamp (d : Direction) (l : list (nat * MessageDoc))
  : list (nat * MessageDoc) :=
  match d with
  | Asc => foldr doc_insert [] l
  | Desc => rev (foldr doc_insert [] l)
  end.

(** The result of a query: the matching documents in the query's order,
    cut by [limit(n)] to the first [n] of that order. *)
Definition run_query (st : Store) (q : Query) : list (nat * MessageDoc) :=
  take (q_limit q)
    (order_by_timestamp (q_order q)
       (List.filter (matches q) (collection_docs st (q_collection q)))).

(** The snapshot callback's mapping, lines 117-122. *)
Definition snapshot_view (docs : list (nat * MessageDoc)) : list MessageView :=
  map (fun d => {| mv_id := fst d; mv_doc := snd d;
                   mv_isAI := default false (m_isAI (snd d)) |}) docs.

(** A write with [{merge: true}]: fields of the patch replace the
    document's, keys of a nested map are merged one by one, and every
    other field of the document stays. *)
Definition merge_convo (now : nat) (old : option ConvoDoc) (p : ConvoPatch) : ConvoDoc :=
  {| cv_participants := Some (cp_participants p);
     cv_lastMessage := Some (cp_lastMessage p);
     cv_lastMessageTimestamp := Some now;
     cv_unreadCount := cp_unreadCount p ∪ from_option cv_unreadCount ∅ old;
     cv_extra := from_option cv_extra ∅ old |}.

(** The writes a batch collects. *)
Inductive Write :=
  | WSetMessage (id : nat) (d : MessageDoc)
  | WMergeConvo (key : string) (p : ConvoPatch).

Definition stamp (now : nat) (d : MessageDoc) : MessageDoc :=
  {| m_text := m_text d; m_timestamp := now; m_uid := m_uid d;
     m_userId := m_userId d; m_isAI := m_isAI d; m_isError := m_isError d;
     m_fileData := m_fileData d; m_photoURL := m_photoURL d;
     m_displayName := m_displayName d; m_conversationId := m_conversationId d;
     m_receiverId := m_receiverId d; m_groupId := m_groupId d;
     m_forwarded := m_forwarded d; m_originalSender := m_originalSender d |}.

Definition insert_doc (c : Collection) (id : nat) (d : MessageDoc) (st : Store) : Store :=
  match c with
  | ColMessages =>
      {| messagesCol := messagesCol st ++ [(id, d)];
         aiMessagesCol := aiMessagesCol st;
         conversationsCol := conversationsCol st;
         serverClock := serverClock st |}
  | ColAiMessages =>
      {| messagesCol := messagesCol st;
         aiMessagesCol := aiMessagesCol st ++ [(id, d)];
         conversationsCol := conversationsCol st;
         serverClock := serverClock st |}
  end.

Definition tick (st : Store) : Store :=
  {| messagesCol := messagesCol st;
     aiMessagesCol := aiMessagesCol st;
     conversationsCol := conversationsCol st;
     serverClock := S (serverClock st) |}.

Definition apply_write (now : nat) (st : Store) (wr : Write) : Store :=
  match wr with
  | WSetMessage id d => insert_doc ColMessages id (stamp now d) st
  | WMergeConvo key p =>
      {| messagesCol := messagesCol st;
         aiMessagesCol := aiMessagesCol st;
         conversationsCol :=
           <[key := merge_convo now (conversationsCol st !! key) p]> (conversationsCol st);
         serverClock := serverClock st |}
  end.

(** A committed batch: every write applied, in order, at one server time. *)
Definition apply_batch (st : Store) (batch : list Write) : Store :=
  tick (foldl (apply_write (serverClock st)) st batch).

(** Auto-generated ids: the least number above the ids of the documents
    of the two message collections, and an id that no document of the
    store has and that is not below [next], the count of the references
    made so far. *)
Definition max_id (l : list (nat * MessageDoc)) : nat :=
  foldr (fun d m => Nat.max (S (fst d)) m) 0 l.

Definition store_next (st : Store) : nat :=
  Nat.max (max_id (messagesCol st)) (max_id (aiMessagesCol st)).

Definition fresh_id (next : nat) (st : Store) : nat :=
  Nat.max next (store_next st).

(** [deleteDoc(doc(db, c, id))]. *)
Definition delete_doc (c : Collection) (id : nat) (st : Store) : Store :=
  match c with
  | ColMessages =>
      {| messagesCol := List.filter (fun d => negb (fst d =? id)%nat) (messagesCol st);
         aiMessagesCol := aiMessagesCol st;
         conversationsCol := conversationsCol st;
         serverClock := serverClock st |}
  | ColAiMessages =>
      {| messagesCol := messagesCol st;
         aiMessagesCol :=
           List.filter (fun d => negb (fst d =? id)%nat) (aiMessagesCol st);
         conversationsCol := conversationsCol st;
         serverClock := serverClock st |}
  end.

(** ** The component's state *)

(** The [useState] cells the claims are about, and the listeners the
    three effects of lines 87-161 own ([None]: not subscribed). *)
Record ChatState := mkChatState {
  users : list User;
  groups : list Group;
  selectedUser : option User;
  selectedGroup : option Group;
  selectedAI : bool;
  newMessage : string;
  messages : list MessageView;
  selectedFile : option File;
  loading : bool;
  currentUserData : option User;
  typingStatus : gmap string RtVal;
  userStatus : gmap string StatusRec;
  aiLoading : bool;
  messagesListener : option Query;
  statusListener : option string;
  typingListener : option string }.

(** The state setters ([setSelectedUser], ...), and the registration of a
    listener. *)
Definition setSelectedUser (v : option User) (s : ChatState) : ChatState :=
  {| users := users s;
     groups := groups s;
     selectedUser := v;
     selectedGroup := selectedGroup s;
     selectedAI := selectedAI s;
     newMessage := newMessage s;
     messages := messages s;
     selectedFile := selectedFile s;
     loading := loading s;
     currentUserData := currentUserData s;
     typingStatus := typingStatus s;
     userStatus := userStatus s;
     aiLoading := aiLoading s;
     messagesListener := messagesListener s;
     statusListener := statusListener s;
     typingListener := typingListener s |}.

Definition setSelectedGroup (v : option Group) (s : ChatState) : ChatState :=
  {| users := users s;
     groups := groups s;
     selectedUser := selectedUser s;
     selectedGroup := v;
     selectedAI := selectedAI s;
     newMessage := newMessage s;
     messages := messages s;
     selectedFile := selectedFile s;
     loading := loading s;
     currentUserData := currentUserData s;
     typingStatus := typingStatus s;
     userStatus := userStatus s;
     aiLoading := aiLoading s;
     messagesListener := messagesListener s;
     statusListener := statusListener s;
     typingListener := typingListener s |}.

Definition setSelectedAI (v : bool) (s : ChatState) : ChatState :=
  {| users := users s;
     groups := groups s;
     selectedUser := selectedUser s;
     selectedGroup := selectedGroup s;
     selectedAI := v;
     newMessage := newMessage s;
     messages := messages s;
     selectedFile := selectedFile s;
     loading := loading s;
     currentUserData := currentUserData s;
     typingStatus := typingStatus s;
     userStatus := userStatus s;
     aiLoading := aiLoading s;
     messagesListener := messagesListener s;
     statusListener := statusListener s;
     typingListener := typingListener s |}.

Definition setNewMessage (v : string) (s : ChatState) : ChatState :=
  {| users := users s;
     groups := groups s;
     selectedUser := selectedUser s;
     selectedGroup := selectedGroup s;
     selectedAI := selectedAI s;
     newMessage := v;
     messages := messages s;
     selectedFile := selectedFile s;
     loading := loading s;
     currentUserData := currentUserData s;
     typingStatus := typingStatus s;
     userStatus := userStatus s;
     aiLoading := aiLoading s;
     messagesListener := messagesListener s;
     statusListener := statusListener s;
     typingListener := typingListener s |}.

Definition setMessages (v : list MessageView) (s : ChatState) : ChatState :=
  {| users := users s;
     groups := groups s;
     selectedUser := selectedUser s;
     selectedGroup := selectedGroup s;
     selectedAI := selectedAI s;
     newMessage := newMessage s;
     messages := v;
     selectedFile := selectedFile s;
     loading := loading s;
     currentUserData := currentUserData s;
     typingStatus := typingStatus s;
     userStatus := userStatus s;
     aiLoading := aiLoading s;
     messagesListener := messagesListener s;
     statusListener := statusListener s;
     typingListener := typingListener s |}.

Definition setSelectedFile (v : option File) (s : ChatState) : ChatState :=
  {| users := users s;
     groups := groups s;
     selectedUser := selectedUser s;
     selectedGroup := selectedGroup s;
     selectedAI := selectedAI s;
     newMessage := newMessage s;
     messages := messages s;
     selectedFile := v;
     loading := loading s;
     currentUserData := currentUserData s;
     typingStatus := typingStatus s;
     userStatus := userStatus s;
     aiLoading := aiLoading s;
     messagesListener := messagesListener s;
     statusListener := statusListener s;
     typingListener := typingListener s |}.

Definition setLoading (v : bool) (s : ChatState) : ChatState :=
  {| users := users s;
     groups := groups s;
     selectedUser := selectedUser s;
     selectedGroup := selectedGroup s;
     selectedAI := selectedAI s;
     newMessage := newMessage s;
     messages := messages s;
     selectedFile := selectedFile s;
     loading := v;
     currentUserData := currentUserData s;
     typingStatus := typingStatus s;
     userStatus := userStatus s;
     aiLoading := aiLoading s;
     messagesListener := messagesListener s;
     statusListener := statusListener s;
     typingListener := typingListener s |}.

Definition setTypingStatus (v : gmap string RtVal) (s : ChatState) : ChatState :=
  {| users := users s;
     groups := groups s;
     selectedUser := selectedUser s;
     selectedGroup := selectedGroup s;
     selectedAI := selectedAI s;
     newMessage := newMessage s;
     messages := messages s;
     selectedFile := selectedFile s;
     loading := loading s;
     currentUserData := currentUserData s;
     typingStatus := v;
     userStatus := userStatus s;
     aiLoading := aiLoading s;
     messagesListener := messagesListener s;
     statusListener := statusListener s;
     typingListener := typingListener s |}.

Definition setUserStatus (v : gmap string StatusRec) (s : ChatState) : ChatState :=
  {| users := users s;
     groups := groups s;
     selectedUser := selectedUser s;
     selectedGroup := selectedGroup s;
     selectedAI := selectedAI s;
     newMessage := newMessage s;
     messages := messages s;
     selectedFile := selectedFile s;
     loading := loading s;
     currentUserData := currentUserData s;
     typingStatus := typingStatus s;
     userStatus := v;
     aiLoading := aiLoading s;
     messagesListener := messagesListener s;
     statusListener := statusListener s;
     typingListener := typingListener s |}.

Definition setAiLoading (v : bool) (s : ChatState) : ChatState :=
  {| users := users s;
     groups := groups s;
     selectedUser := selectedUser s;
     selectedGroup := selectedGroup s;
     selectedAI := selectedAI s;
     newMessage := newMessage s;
     messages := messages s;
     selectedFile := selectedFile s;
     loading := loading s;
     currentUserData := currentUserData s;
     typingStatus := typingStatus s;
     userStatus := userStatus s;
     aiLoading := v;
     messagesListener := messagesListener s;
     statusListener := statusListener s;
     typingListener := typingListener s |}.

Definition setMessagesListener (v : option Query) (s : ChatState) : ChatState :=
  {| users := users s;
     groups := groups s;
     selectedUser := selectedUser s;
     selectedGroup := selectedGroup s;
     selectedAI := selectedAI s;
     newMessage := newMessage s;
     messages := messages s;
     selectedFile := selectedFile s;
     loading := loading s;
     currentUserData := currentUserData s;
     typingStatus := typingStatus s;
     userStatus := userStatus s;
     aiLoading := aiLoading s;
     messagesListener := v;
     statusListener := statusListener s;
     typingListener := typingListener s |}.

Definition setStatusListener (v : option string) (s : ChatState) : ChatState :=
  {| users := users s;
     groups := groups s;
     selectedUser := selectedUser s;
     selectedGroup := selectedGroup s;
     selectedAI := selectedAI s;
     newMessage := newMessage s;
     messages := messages s;
     selectedFile := selectedFile s;
     loading := loading s;
     currentUserData := currentUserData s;
     typingStatus := typingStatus s;
     userStatus := userStatus s;
     aiLoading := aiLoading s;
     messagesListener := messagesListener s;
     statusListener := v;
     typingListener := typingListener s |}.

Definition setTypingListener (v : option string) (s : ChatState) : ChatState :=
  {| users := users s;
     groups := groups s;
     selectedUser := selectedUser s;
     selectedGroup := selectedGroup s;
     selectedAI := selectedAI s;
     newMessage := newMessage s;
     messages := messages s;
     selectedFile := selectedFile s;
     loading := loading s;
     currentUserData := currentUserData s;
     typingStatus := typingStatus s;
     userStatus := userStatus s;
     aiLoading := aiLoading s;
     messagesListener := messagesListener s;
     statusListener := statusListener s;
     typingListener := v |}.

Definition setUsers (v : list User) (s : ChatState) : ChatState :=
  {| users := v;
     groups := groups s;
     selectedUser := selectedUser s;
     selectedGroup := selectedGroup s;
     selectedAI := selectedAI s;
     newMessage := newMessage s;
     messages := messages s;
     selectedFile := selectedFile s;
     loading := loading s;
     currentUserData := currentUserData s;
     typingStatus := typingStatus s;
     userStatus := userStatus s;
     aiLoading := aiLoading s;
     messagesListener := messagesListener s;
     statusListener := statusListener s;
     typingListener := typingListener s |}.

Definition setGroups (v : list Group) (s : ChatState) : ChatState :=
  {| users := users s;
     groups := v;
     selectedUser := selectedUser s;
     selectedGroup := selectedGroup s;
     selectedAI := selectedAI s;
     newMessage := newMessage s;
     messages := messages s;
     selectedFile := selectedFile s;
     loading := loading s;
     currentUserData := currentUserData s;
     typingStatus := typingStatus s;
     userStatus := userStatus s;
     aiLoading := aiLoading s;
     messagesListener := messagesListener s;
     statusListener := statusListener s;
     typingListener := typingListener s |}.

Definition setCurrentUserData (v : option User) (s : ChatState) : ChatState :=
  {| users := users s;
     groups := groups s;
     selectedUser := selectedUser s;
     selectedGroup := selectedGroup s;
     selectedAI := selectedAI s;
     newMessage := newMessage s;
     messages := messages s;
     selectedFile := selectedFile s;
     loading := loading s;
     currentUserData := v;
     typingStatus := typingStatus s;
     userStatus := userStatus s;
     aiLoading := aiLoading s;
     messagesListener := messagesListener s;
     statusListener := statusListener s;
     typingListener := typingListener s |}.

(** The state after the first render and its effects: nothing selected,
    no listener, [messages] empty. *)
Definition initial_chat : ChatState :=
  {| users := []; groups := [];
     selectedUser := None; selectedGroup := None; selectedAI := false;
     newMessage := EmptyString; messages := []; selectedFile := None;
     loading := false; currentUserData := None;
     typingStatus := ∅; userStatus := ∅; aiLoading := false;
     messagesListener := None; statusListener := None; typingListener := None |}.

(** ** Collaborators *)

Record Blob := mkBlob {
  blob_base64 : string;
  blob_type : string }.

(** The argument of [model.generateContent]: a text prompt, or a prompt
    with inline data, lines 217-225 and 250. *)
Inductive GenRequest :=
  | GenText (prompt : string)
  | GenMultimodal (prompt : string) (data : string) (mimeType : string).

(** What the collaborators answer.  [auth_uid] and [auth_displayName] are
    [auth.currentUser]'s (a signed-in user).  [None] is a rejected promise.
    [uploadFileToCloudinary] comes from the hook [useCloudinary], whose
    source is another file: it is taken as the service it wraps, one call
    that resolves to the upload's description or rejects.  [store_accepts n]
    tells whether the store accepts the [n]-th write request
    ([addDoc] or [batch.commit()]) of the session. *)
Record World := mkWorld {
  auth_uid : string;
  auth_displayName : option string;
  uploadFileToCloudinary : File -> option UploadResult;
  fetch_blob : string -> option Blob;
  generateContent : GenRequest -> option string;
  store_accepts : nat -> bool }.

Inductive Error :=
  | UploadFailure
  | WriteFailure
  | FetchFailure
  | GenerationFailure
  | InvalidReference
  | InvalidData.

(** The [alert(...)] calls of lines 303 and 377. *)
Inductive Alert :=
  | AlertSendFailed
  | AlertForwardFailed (e : Error).

(** The page with what surrounds it: the component's state, the store,
    the alerts shown, the requests made to the generation backend, the
    number of write requests made and the count of the document
    references made so far, below which no new id is drawn. *)
Record Sys := mkSys {
  chat : ChatState;
  db : Store;
  alerts : list Alert;
  genCalls : list GenRequest;
  writeAttempts : nat;
  nextId : nat }.

Definition initial_sys (st : Store) : Sys :=
  {| chat := initial_chat; db := st; alerts := []; genCalls := [];
     writeAttempts := 0; nextId := 0 |}.

(** ** Asynchronous code: state and exceptions *)

Inductive Outcome (A : Type) :=
  | Done (a : A)
  | Thrown (e : Error).
Arguments Done {A} a.
Arguments Thrown {A} e.

Definition Act (A : Type) : Type := Sys -> Sys * Outcome A.

#[global] Instance Act_ret : MRet Act :=
  fun A a sys => (sys, Done a).

#[global] Instance Act_bind : MBind Act :=
  fun A B f m sys =>
    match m sys with
    | (sys', Done a) => f a sys'
    | (sys', Thrown e) => (sys', Thrown e)
    end.

(** [try { m } catch (error) { h error }]. *)
Definition try_catch {A : Type} (m : Act A) (h : Error -> Act A) : Act A :=
  fun sys =>
    match m sys with
    | (sys', Done a) => (sys', Done a)
    | (sys', Thrown e) => h e sys'
    end.

Definition update_chat (f : ChatState -> ChatState) : Act unit :=
  fun sys =>
    ({| chat := f (chat sys); db := db sys; alerts := alerts sys;
        genCalls := genCalls sys; writeAttempts := writeAttempts sys;
        nextId := nextId sys |}, Done tt).

Definition alert (a : Alert) : Act unit :=
  fun sys =>
    ({| chat := chat sys; db := db sys; alerts := alerts sys ++ [a];
        genCalls := genCalls sys; writeAttempts := writeAttempts sys;
        nextId := nextId sys |}, Done tt).

(** [await uploadFileToCloudinary(selectedFile)]. *)
Definition upload (w : World) (f : File) : Act UploadResult :=
  fun sys =>
    match uploadFileToCloudinary w f with
    | Some r => (sys, Done r)
    | None => (sys, Thrown UploadFailure)
    end.

(** [await fetch(url)] and [.blob()], with the blob read as base64. *)
Definition fetch (w : World) (url : string) : Act Blob :=
  fun sys =>
    match fetch_blob w url with
    | Some b => (sys, Done b)
    | None => (sys, Thrown FetchFailure)
    end.

(** [await model.generateContent(req)], [await result.response] and
    [.text()]: the request reaches the backend, which answers or fails. *)
Definition generate (w : World) (req : GenRequest) : Act string :=
  fun sys =>
    let sys' :=
      {| chat := chat sys; db := db sys; alerts := alerts sys;
         genCalls := genCalls sys ++ [req];
         writeAttempts := writeAttempts sys; nextId := nextId sys |} in
    match generateContent w req with
    | Some text => (sys', Done text)
    | None => (sys', Thrown GenerationFailure)
    end.

(** [doc(collection(db, c))]: a reference with an auto-generated id,
    which no document of the store has and no earlier reference got. *)
Definition newDocRef : Act nat :=
  fun sys =>
    ({| chat := chat sys; db := db sys; alerts := alerts sys;
        genCalls := genCalls sys; writeAttempts := writeAttempts sys;
        nextId := S (fresh_id (nextId sys) (db sys)) |},
     Done (fresh_id (nextId sys) (db sys))).

(** [doc(db, 'conversations', id)]: the client refuses a path with [//]
    in it; the non-empty segments between slashes, after the collection's
    name, must make a document path (an even number of segments). *)
Definition path_segments (id : string) : list string :=
  List.filter truthy (js_split "/" id).

Definition docRef (id : string) : Act string :=
  fun sys =>
    if has_double_slash id then (sys, Thrown InvalidReference)
    else if Nat.even (S (length (path_segments id)))
         then (sys, Done (js_join "/" (path_segments id)))
         else (sys, Thrown InvalidReference).

(** A field name that a write accepts: not empty, and not reserved
    ([/^__.*__$/], where [.] is any code unit but a line terminator). *)
Fixpoint no_line_terminator (s : string) : bool :=
  match s with
  | EmptyString => true
  | String c s' =>
      negb ((nat_of_ascii c =? 10)%nat || (nat_of_ascii c =? 13)%nat)
      && no_line_terminator s'
  end.

Definition reserved_field (s : string) : bool :=
  (4 <=? String.length s)%nat
  && String.prefix "__" s && String.prefix "__" (String.rev s)
  && no_line_terminator (String.substring 2 (String.length s - 4) s).

Definition valid_field_name (s : string) : bool :=
  truthy s && negb (reserved_field s).

(** [batch.set(ref, data, {merge: true})] reads [data] when it is called
    and throws on a field name that is not valid; of the names in
    [convoData] only the key of [unreadCount] is not fixed. *)
Definition checkFieldName (name : string) : Act unit :=
  fun sys =>
    if valid_field_name name then (sys, Done tt)
    else (sys, Thrown InvalidData).

(** One write request to the store.  The server stamps the documents and
    its clock moves on. *)
Definition request_write (w : World) (apply : Store -> Store) : Act unit :=
  fun sys =>
    if store_accepts w (writeAttempts sys)
    then ({| chat := chat sys; db := apply (db sys); alerts := alerts sys;
             genCalls := genCalls sys; writeAttempts := S (writeAttempts sys);
             nextId := nextId sys |}, Done tt)
    else ({| chat := chat sys; db := db sys; alerts := alerts sys;
             genCalls := genCalls sys; writeAttempts := S (writeAttempts sys);
             nextId := nextId sys |}, Thrown WriteFailure).

(** [await addDoc(collection(db, c), d)]. *)
Definition addDoc (w : World) (c : Collection) (d : MessageDoc) : Act unit :=
  id ← newDocRef;
  request_write w (fun st => tick (insert_doc c id (stamp (serverClock st) d) st)).

(** [await batch.commit()]: a batch without writes resolves at once; any
    other is one request, applied whole or not at all. *)
Definition commit (w : World) (batch : list Write) : Act unit :=
  match batch with
  | [] => mret tt
  | _ :: _ => request_write w (fun st => apply_batch st batch)
  end.

(** ** The effects of lines 87-161 *)

(** The query the messages effect builds, lines 88-114. *)
Definition messages_query (w : World) (s : ChatState) : option Query :=
  match selectedUser s with
  | Some u =>
      Some {| q_collection := ColMessages; q_where_field := FConversationId;
              q_where_value := js_join "_" (participants_of (auth_uid w) (user_uid u));
              q_order := Asc; q_limit := 50 |}
  | None =>
      match selectedGroup s with
      | Some g =>
          Some {| q_collection := ColMessages; q_where_field := FGroupId;
                  q_where_value := group_id g; q_order := Asc; q_limit := 50 |}
      | None =>
          if selectedAI s
          then Some {| q_collection := ColAiMessages; q_where_field := FUserId;
                       q_where_value := auth_uid w; q_order := Asc; q_limit := 50 |}
          else None
      end
  end.

(** The body of the messages effect: subscribe to the query, or, with
    nothing selected, [setMessages([])] and return. *)
Definition messages_effect (w : World) (s : ChatState) : ChatState :=
  match messages_query w s with
  | Some q => setMessagesListener (Some q) s
  | None => setMessages [] s
  end.

(** Its cleanup, [() => unsubscribe()]. *)
Definition messages_cleanup (s : ChatState) : ChatState :=
  setMessagesListener None s.

(** The status effect, lines 130-146, and the typing effect, lines
    149-161: [if (!selectedUser?.uid) return], else listen. *)
Definition listened_uid (s : ChatState) : option string :=
  match selectedUser s with
  | Some u => if truthy (user_uid u) then Some (user_uid u) else None
  | None => None
  end.

Definition status_effect (s : ChatState) : ChatState :=
  match listened_uid s with
  | Some uid => setStatusListener (Some uid) s
  | None => s
  end.

Definition status_cleanup (s : ChatState) : ChatState :=
  setStatusListener None s.

Definition typing_effect (s : ChatState) : ChatState :=
  match listened_uid s with
  | Some uid => setTypingListener (Some uid) s
  | None => s
  end.

Definition typing_cleanup (s : ChatState) : ChatState :=
  setTypingListener None s.

(** The callbacks of the three listeners.  A listener that was
    unsubscribed is not called. *)
Definition on_messages_snapshot (st : Store) (s : ChatState) : ChatState :=
  match messagesListener s with
  | Some q => setMessages (snapshot_view (run_query st q)) s
  | None => s
  end.

Definition on_status_value (data : option StatusData) (s : ChatState) : ChatState :=
  match statusListener s with
  | Some uid =>
      setUserStatus
        (<[uid := {| st_status :=
                       default "offline" (or_else (data ≫= sd_status) None);
                     st_lastChanged := data ≫= sd_lastChanged |}]> (userStatus s)) s
  | None => s
  end.

Definition on_typing_value (v : RtVal) (s : ChatState) : ChatState :=
  match typingListener s with
  | Some uid => setTypingStatus (<[uid := v]> (typingStatus s)) s
  | None => s
  end.

(** The callback of the users listener, lines 52-62: the list replaces
    [users], and the signed-in user's record is looked up in it. *)
Definition on_users_snapshot (w : World) (usersData : list User) (s : ChatState)
  : ChatState :=
  setCurrentUserData
    (List.find (fun u => String.eqb (user_uid u) (auth_uid w)) usersData)
    (setUsers usersData s).

(** The callback of the groups listener, lines 75-81, on the groups the
    query of lines 70-73 keeps: those with the signed-in user among
    [members]. *)
Definition on_groups_snapshot (w : World) (docs : list Group) (s : ChatState)
  : ChatState :=
  setGroups
    (List.filter (fun g => bool_decide (auth_uid w ∈ group_members g)) docs) s.

(** [onGroupCreate], line 410. *)
Definition onGroupCreate (newGroup : Group) (s : ChatState) : ChatState :=
  setGroups (groups s ++ [newGroup]) s.

(** After a render, React runs the cleanups of the effects whose
    dependencies changed, then their bodies.  (Dependencies are compared
    by value here; an equal object under a new identity would only renew
    a listener for the same query.) *)
Definition run_effects (w : World) (prev s : ChatState) : ChatState :=
  let msg_changed :=
    negb (bool_decide ((selectedUser prev, selectedGroup prev, selectedAI prev)
                       = (selectedUser s, selectedGroup s, selectedAI s))) in
  let usr_changed := negb (bool_decide (selectedUser prev = selectedUser s)) in
  let s1 := if msg_changed then messages_cleanup s else s in
  let s2 := if usr_changed then typing_cleanup (status_cleanup s1) else s1 in
  let s3 := if msg_changed then messages_effect w s2 else s2 in
  if usr_changed then typing_effect (status_effect s3) else s3.

(** ** The selection handlers *)

(** [onUserSelect], lines 398-402. *)
Definition onUserSelect (user : option User) (s : ChatState) : ChatState :=
  setSelectedAI false (setSelectedGroup None (setSelectedUser user s)).

(** [onGroupSelect], lines 403-407. *)
Definition onGroupSelect (group : option Group) (s : ChatState) : ChatState :=
  setSelectedAI false (setSelectedUser None (setSelectedGroup group s)).

(** [handleNavigate], lines 308-316. *)
Definition handleNavigate (page : string) (s : ChatState) : ChatState :=
  if String.eqb page "ai"
  then setSelectedGroup None (setSelectedUser None (setSelectedAI true s))
  else setSelectedAI false s.

(** ** [handleSubmit], lines 168-306 *)

Definition apology : string :=
  "Sorry, I encountered an error while processing your request. Please try again.".

(** The double-quote character, as a string. *)
Definition dquote : string := String (ascii_of_nat 34) EmptyString.

(** The text of line 241. *)
Definition acknowledgment (f : File) (prompt : string) : string :=
  "I received your " +:+ hd EmptyString (js_split "/" (file_type f)) +:+ " file "
  +:+ dquote +:+ file_name f +:+ dquote +:+ ". "
  +:+ (if truthy prompt then "Regarding your message: " +:+ prompt
       else "How can I help you with this file?").

(** An assistant message, lines 231-236, 240-245 and 255-260. *)
Definition aiMessage (w : World) (text : string) : MessageDoc :=
  {| m_text := text; m_timestamp := 0; m_uid := None;
     m_userId := Some (auth_uid w); m_isAI := Some true; m_isError := None;
     m_fileData := None; m_photoURL := None; m_displayName := None;
     m_conversationId := None; m_receiverId := None; m_groupId := None;
     m_forwarded := None; m_originalSender := None |}.

(** Lines 267-273. *)
Definition errorMessage (w : World) : MessageDoc :=
  {| m_text := apology; m_timestamp := 0; m_uid := None;
     m_userId := Some (auth_uid w); m_isAI := Some true; m_isError := Some true;
     m_fileData := None; m_photoURL := None; m_displayName := None;
     m_conversationId := None; m_receiverId := None; m_groupId := None;
     m_forwarded := None; m_originalSender := None |}.

(** Lines 189-195. *)
Definition userMessage (w : World) (c : ChatState) (fileData : option FileData)
  : MessageDoc :=
  {| m_text := newMessage c; m_timestamp := 0; m_uid := None;
     m_userId := Some (auth_uid w); m_isAI := Some false; m_isError := None;
     m_fileData := fileData; m_photoURL := None; m_displayName := None;
     m_conversationId := None; m_receiverId := None; m_groupId := None;
     m_forwarded := None; m_originalSender := None |}.

(** [currentUserData?.name || auth.currentUser.displayName || 'Unknown']. *)
Definition displayName_of (w : World) (c : ChatState) : string :=
  default "Unknown"
    (or_else (currentUserData c ≫= user_name) (or_else (auth_displayName w) None)).

(** Lines 279-294. *)
Definition messageData (w : World) (c : ChatState) (fileData : option FileData)
  : MessageDoc :=
  {| m_text := newMessage c; m_timestamp := 0; m_uid := Some (auth_uid w);
     m_userId := None; m_isAI := None; m_isError := None;
     m_fileData := fileData;
     m_photoURL := or_else (currentUserData c ≫= user_photoURL) None;
     m_displayName := Some (displayName_of w c);
     m_conversationId :=
       match selectedUser c with
       | Some u => Some (js_join "_" (participants_of (auth_uid w) (user_uid u)))
       | None => None
       end;
     m_receiverId :=
       match selectedUser c with
       | Some u => Some (user_uid u)
       | None => None
       end;
     m_groupId :=
       match selectedUser c, selectedGroup c with
       | None, Some g => Some (group_id g)
       | _, _ => None
       end;
     m_forwarded := None; m_originalSender := None |}.

(** The generation step and the write of the reply, lines 201-262. *)
Definition ai_reply (w : World) (c : ChatState) (fileData : option FileData)
  : Act unit :=
  let prompt := newMessage c in
  match selectedFile c, fileData with
  | Some f, Some fd =>
      if startsWith (file_type f) "image/" then
        blob ← fetch w (fd_url fd);
        aiText ← generate w
          (GenMultimodal (if truthy prompt then prompt
                          else "What do you see in this image?")
             (blob_base64 blob) (blob_type blob));
        addDoc w ColAiMessages (aiMessage w aiText)
      else
        addDoc w ColAiMessages (aiMessage w (acknowledgment f prompt))
  | _, _ =>
      aiText ← generate w (GenText prompt);
      addDoc w ColAiMessages (aiMessage w aiText)
  end.

(** The guard of line 170. *)
Definition nothing_to_send (c : ChatState) : bool :=
  (negb (truthy (js_trim (newMessage c))) && negb (bool_decide (is_Some (selectedFile c))))
  || (negb (bool_decide (is_Some (selectedUser c)))
      && negb (bool_decide (is_Some (selectedGroup c)))
      && negb (selectedAI c)).

(** The body of the outer [try], lines 174-300.  [c] is the state of the
    render the handler was created in. *)
Definition send (w : World) (c : ChatState) : Act unit :=
  fileData ← match selectedFile c with
             | Some f =>
                 uploadResult ← upload w f;
                 mret (Some {| fd_url := up_url uploadResult;
                               fd_name := file_name f;
                               fd_size := file_size f;
                               fd_type := file_type f;
                               fd_publicId := up_publicId uploadResult;
                               fd_resourceType := up_resourceType uploadResult |})
             | None => mret None
             end;
  (if selectedAI c then
     addDoc w ColAiMessages (userMessage w c fileData);;
     update_chat (setAiLoading true);;
     try_catch (ai_reply w c fileData)
       (fun _ => addDoc w ColAiMessages (errorMessage w));;
     update_chat (setAiLoading false)
   else
     addDoc w ColMessages (messageData w c fileData));;
  update_chat (setNewMessage EmptyString);;
  update_chat (setSelectedFile None).

Definition handleSubmit (w : World) : Act unit :=
  fun sys =>
    let c := chat sys in
    if nothing_to_send c then (sys, Done tt)
    else
      (update_chat (setLoading true);;
       try_catch (send w c) (fun _ => alert AlertSendFailed);;
       update_chat (setLoading false)) sys.

(** ** [handleForwardMessage], lines 337-379 *)

(** The forwarded copy, lines 348-359. *)
Definition forwardedMessage (w : World) (c : ChatState) (message : MessageView)
  (conversationId uid : string) : MessageDoc :=
  {| m_text := m_text (mv_doc message); m_timestamp := 0;
     m_uid := Some (auth_uid w); m_userId := None; m_isAI := None;
     m_isError := None;
     m_fileData := m_fileData (mv_doc message);
     m_photoURL := or_else (currentUserData c ≫= user_photoURL) None;
     m_displayName := Some (displayName_of w c);
     m_conversationId := Some conversationId;
     m_receiverId := Some uid; m_groupId := None;
     m_forwarded := Some true;
     m_originalSender :=
       Some (default (if mv_isAI message then "AI" else "Unknown")
               (or_else (m_uid (mv_doc message)) None)) |}.

(** [convoData], lines 363-368. *)
Definition convoData (participants : list string) (message : MessageView)
  (uid : string) : ConvoPatch :=
  {| cp_participants := participants;
     cp_lastMessage :=
       if truthy (m_text (mv_doc message)) then LastText (m_text (mv_doc message))
       else match m_fileData (mv_doc message) with
            | Some fd => LastAttachment (fd_name fd)
            | None => LastText "File"
            end;
     cp_unreadCount := {[ uid := 1%Z ]} |}.

(** The loop of lines 342-371, collecting the writes in the batch. *)
Fixpoint forward_loop (w : World) (c : ChatState) (message : MessageView)
  (recipientIds : list string) (batch : list Write) : Act (list Write) :=
  match recipientIds with
  | [] => mret batch
  | uid :: rest =>
      let participants := participants_of (auth_uid w) uid in
      let conversationId := js_join "_" participants in
      newMessageRef ← newDocRef;
      let batch1 :=
        (batch ++ [WSetMessage newMessageRef
                     (forwardedMessage w c message conversationId uid)])%list in
      convoRef ← docRef conversationId;
      checkFieldName uid;;
      let batch2 :=
        (batch1 ++ [WMergeConvo convoRef (convoData participants message uid)])%list in
      forward_loop w c message rest batch2
  end.

Definition handleForwardMessage (w : World) (message : MessageView)
  (recipientIds : list string) : Act unit :=
  fun sys =>
    let c := chat sys in
    try_catch
      (batch ← forward_loop w c message recipientIds [];
       commit w batch)
      (fun e => alert (AlertForwardFailed e)) sys.

(** ** [handleDeleteMessage], lines 319-334 *)

Definition handleDeleteMessage (w : World) (messageId : nat) (isAI : bool)
  : Act unit :=
  try_catch
    (request_write w
       (delete_doc (if isAI then ColAiMessages else ColMessages) messageId))
    (fun _ => mret tt).

(** ** Events *)

Inductive Event :=
  | OnUserSelect (user : option User)
  | OnGroupSelect (group : option Group)
  | Navigate (page : string)
  | MessagesSnapshot
  | StatusValue (data : option StatusData)
  | TypingValue (v : RtVal)
  | SetNewMessage (text : string)
  | FileSelect (f : option File)
  | Submit
  | Forward (message : MessageView) (recipientIds : list string)
  | UsersSnapshot (usersData : list User)
  | GroupsSnapshot (docs : list Group)
  | OnGroupCreate (newGroup : Group)
  | DeleteMessage (messageId : nat) (isAI : bool).

(** A handler that sets state, followed by the render's effects. *)
Definition render (w : World) (h : ChatState -> ChatState) (sys : Sys) : Sys :=
  {| chat := run_effects w (chat sys) (h (chat sys)); db := db sys;
     alerts := alerts sys; genCalls := genCalls sys;
     writeAttempts := writeAttempts sys; nextId := nextId sys |}.

Definition step (w : World) (e : Event) (sys : Sys) : Sys :=
  match e with
  | OnUserSelect user => render w (onUserSelect user) sys
  | OnGroupSelect group => render w (onGroupSelect group) sys
  | Navigate page => render w (handleNavigate page) sys
  | MessagesSnapshot => render w (on_messages_snapshot (db sys)) sys
  | StatusValue data => render w (on_status_value data) sys
  | TypingValue v => render w (on_typing_value v) sys
  | SetNewMessage text => render w (setNewMessage text) sys
  | FileSelect f => render w (setSelectedFile f) sys
  | Submit => fst (handleSubmit w sys)
  | Forward message recipientIds => fst (handleForwardMessage w message recipientIds sys)
  | UsersSnapshot usersData => render w (on_users_snapshot w usersData) sys
  | GroupsSnapshot docs => render w (on_groups_snapshot w docs) sys
  | OnGroupCreate newGroup => render w (onGroupCreate newGroup) sys
  | DeleteMessage messageId isAI => fst (handleDeleteMessage w messageId isAI sys)
  end.

Definition run (w : World) (es : list Event) (sys : Sys) : Sys :=
  foldl (fun s e => step w e s) sys es.

(** The states the page can be in. *)
Inductive reachable (w : World) (st : Store) : Sys -> Prop :=
  | reachable_initial : reachable w st (initial_sys st)
  | reachable_step e sys : reachable w st sys -> reachable w st (step w e sys).

(** ** Predicates of the claims *)

(** How many of the three selection fields are set. *)
Definition selected_count (s : ChatState) : nat :=
  (match selectedUser s with Some _ => 1 | None => 0 end)
  + (match selectedGroup s with Some _ => 1 | None => 0 end)
  + (if selectedAI s then 1 else 0).

(** The operations that select a target. *)
Inductive Selection :=
  | SelectUser (u : User)
  | SelectGroup (g : Group)
  | SelectAI.

Definition select (sel : Selection) : Event :=
  match sel with
  | SelectUser u => OnUserSelect (Some u)
  | SelectGroup g => OnGroupSelect (Some g)
  | SelectAI => Navigate "ai"
  end.

(** The part of the component's state that neither [handleSubmit] nor
    [handleForwardMessage] writes. *)
Definition untouched (c c' : ChatState) : Prop :=
  selectedUser c' = selectedUser c /\ selectedGroup c' = selectedGroup c
  /\ selectedAI c' = selectedAI c /\ messages c' = messages c
  /\ userStatus c' = userStatus c /\ typingStatus c' = typingStatus c
  /\ messagesListener c' = messagesListener c
  /\ statusListener c' = statusListener c
  /\ typingListener c' = typingListener c
  /\ currentUserData c' = currentUserData c.

Definition frames {A : Type} (m : Act A) : Prop :=
  forall sys, untouched (chat sys) (chat (fst (m sys))).

(** The draft: the text typed and the file picked. *)
Definition draft (c : ChatState) : string * option File :=
  (newMessage c, selectedFile c).

(** Whether the generation step of an assistant turn fails: with an
    image, the fetch of the uploaded file or the backend; with text only,
    the backend; with another file there is no such step. *)
Definition generation_failed (w : World) (c : ChatState) : bool :=
  match selectedFile c with
  | Some f =>
      if startsWith (file_type f) "image/" then
        match uploadFileToCloudinary w f with
        | Some r =>
            match fetch_blob w (up_url r) with
            | Some blob =>
                match generateContent w
                        (GenMultimodal
                           (if truthy (newMessage c) then newMessage c
                            else "What do you see in this image?")
                           (blob_base64 blob) (blob_type blob)) with
                | Some _ => false
                | None => true
                end
            | None => true
            end
        | None => false
        end
      else false
  | None =>
      match generateContent w (GenText (newMessage c)) with
      | Some _ => false
      | None => true
      end
  end.

(** The upload of the draft's file fails. *)
Definition upload_fails (w : World) (c : ChatState) : bool :=
  match selectedFile c with
  | Some f =>
      match uploadFileToCloudinary w f with
      | Some _ => false
      | None => true
      end
  | None => false
  end.

(** No exception reaches the outer [catch] of [handleSubmit]: the upload
    and the write of the user's message succeed and, on the assistant
    target, a message of the assistant gets written, the reply or, after
    a failure of the generation step or of the reply's write, the
    apology. *)
Definition send_succeeds (w : World) (sys : Sys) : bool :=
  let n := writeAttempts sys in
  negb (upload_fails w (chat sys)) && store_accepts w n
  && (if selectedAI (chat sys)
      then store_accepts w (S n)
           || (negb (generation_failed w (chat sys)) && store_accepts w (S (S n)))
      else true).

(** A write request made between two states was refused. *)
Definition write_refused (w : World) (sys sys' : Sys) : Prop :=
  exists n, writeAttempts sys <= n < writeAttempts sys' /\ store_accepts w n = false.

(** *** The assistant's messages of a turn *)

(** The documents added to the assistant stream between two stores (the
    handlers only append to it). *)
Definition added_ai (st st' : Store) : list (nat * MessageDoc) :=
  drop (length (aiMessagesCol st)) (aiMessagesCol st').

(** A document tagged [isAI: true]. *)
Definition tagged_isAI (d : MessageDoc) : bool :=
  match m_isAI d with
  | Some true => true
  | _ => false
  end.

(** The messages tagged [isAI: true] that the turn [handleSubmit] runs
    from [sys] persists. *)
Definition assistant_messages (w : World) (sys : Sys) : list MessageDoc :=
  List.filter tagged_isAI
    (map snd (added_ai (db sys) (db (fst (handleSubmit w sys))))).

(** *** The batch of a forward *)

(** [doc(db, 'conversations', id)] gives a reference. *)
Definition valid_ref (id : string) : bool :=
  negb (has_double_slash id) && Nat.even (S (length (path_segments id))).

(** The document it refers to. *)
Definition convo_path (id : string) : string :=
  js_join "/" (path_segments id).

(** Both references of a recipient and the data of its conversation
    document are accepted. *)
Definition valid_recipient (w : World) (uid : string) : bool :=
  valid_ref (conversationKey (auth_uid w) uid) && valid_field_name uid.

(** The two writes of one recipient, the message under the id [id]. *)
Definition recipient_writes (w : World) (c : ChatState) (message : MessageView)
  (id : nat) (uid : string) : list Write :=
  [WSetMessage id
     (forwardedMessage w c message (conversationKey (auth_uid w) uid) uid);
   WMergeConvo (convo_path (conversationKey (auth_uid w) uid))
     (convoData (participants_of (auth_uid w) uid) message uid)].

(** The writes of a list of recipients, ids counted from [id]. *)
Fixpoint batch_of (w : World) (c : ChatState) (message : MessageView)
  (id : nat) (recipientIds : list string) : list Write :=
  match recipientIds with
  | [] => []
  | uid :: rest =>
      recipient_writes w c message id uid ++ batch_of w c message (S id) rest
  end.

(** The message documents a forward inserts, one for each element of the
    list of recipients, in its order. *)
Fixpoint forwarded_docs (w : World) (c : ChatState) (message : MessageView)
  (now id : nat) (recipientIds : list string) : list (nat * MessageDoc) :=
  match recipientIds with
  | [] => []
  | uid :: rest =>
      (id, stamp now
             (forwardedMessage w c message (conversationKey (auth_uid w) uid) uid))
      :: forwarded_docs w c message now (S id) rest
  end.

(** A forward commits: every recipient's reference is valid and the store
    accepts the batch (a batch without writes needs no request). *)
Definition forward_commits (w : World) (sys : Sys) (recipientIds : list string)
  : bool :=
  forallb (valid_recipient w) recipientIds
  && match recipientIds with
     | [] => true
     | _ :: _ => store_accepts w (writeAttempts sys)
     end.

(** The unread counts of a conversation, none when the document is
    absent. *)
Definition unread_of (d : option ConvoDoc) : gmap string Z :=
  from_option cv_unreadCount ∅ d.

Definition extra_of (d : option ConvoDoc) : gmap string string :=
  from_option cv_extra ∅ d.

(** The message documents a batch inserts at server time [now]. *)
Fixpoint batch_messages (now : nat) (batch : list Write) : list (nat * MessageDoc) :=
  match batch with
  | [] => []
  | WSetMessage id d :: rest => (id, stamp now d) :: batch_messages now rest
  | WMergeConvo _ _ :: rest => batch_messages now rest
  end.

(** The patches a batch merges into the conversation document [k]. *)
Fixpoint patches_for (k : string) (batch : list Write) : list ConvoPatch :=
  match batch with
  | [] => []
  | WSetMessage _ _ :: rest => patches_for k rest
  | WMergeConvo k' p :: rest =>
      if decide (k' = k) then p :: patches_for k rest else patches_for k rest
  end.

(** ** Scenarios *)

Definition no_store : Store :=
  {| messagesCol := []; aiMessagesCol := []; conversationsCol := ∅;
     serverClock := 0 |}.

(** A signed-in user [me] and collaborators that answer. *)
Definition me_world : World :=
  {| auth_uid := "me"; auth_displayName := Some "Me";
     uploadFileToCloudinary := fun f =>
       Some {| up_url := "https://files/" +:+ file_name f;
               up_publicId := file_name f; up_resourceType := "raw" |};
     fetch_blob := fun _ => Some {| blob_base64 := "QUJD"; blob_type := "image/png" |};
     generateContent := fun _ => Some "Hello!";
     store_accepts := fun _ => true |}.

(** The same, with a store that refuses the write request number [k]. *)
Definition refusing (k : nat) : World :=
  {| auth_uid := "me"; auth_displayName := Some "Me";
     uploadFileToCloudinary := uploadFileToCloudinary me_world;
     fetch_blob := fetch_blob me_world;
     generateContent := generateContent me_world;
     store_accepts := fun n => negb (n =? k)%nat |}.

(** The same, with a store that accepts the first [k] write requests
    only. *)
Definition accepting_first (k : nat) : World :=
  {| auth_uid := "me"; auth_displayName := Some "Me";
     uploadFileToCloudinary := uploadFileToCloudinary me_world;
     fetch_blob := fetch_blob me_world;
     generateContent := generateContent me_world;
     store_accepts := fun n => (n <? k)%nat |}.

(** The same as [me_world], with a generation backend that fails. *)
Definition failing_backend : World :=
  {| auth_uid := "me"; auth_displayName := Some "Me";
     uploadFileToCloudinary := uploadFileToCloudinary me_world;
     fetch_blob := fetch_blob me_world;
     generateContent := fun _ => None;
     store_accepts := fun _ => true |}.

(** An assistant stream of [n] messages of [me], written at times
    [0 .. n-1]. *)
Definition ai_stream (n : nat) : Store :=
  {| messagesCol := [];
     aiMessagesCol :=
       map (fun i => (i, stamp i (aiMessage me_world "m"))) (seq 0 n);
     conversationsCol := ∅; serverClock := n |}.

Definition alice : User :=
  {| user_id := "d1"; user_uid := "alice"; user_name := Some "Alice";
     user_photoURL := None |}.

Definition bob : User :=
  {| user_id := "d2"; user_uid := "bob"; user_name := Some "Bob";
     user_photoURL := None |}.

(** A store with one message, sent by [alice] to [me]. *)
Definition alice_wrote : Store :=
  {| messagesCol :=
       [(0, {| m_text := "hi"; m_timestamp := 0; m_uid := Some "alice";
               m_userId := None; m_isAI := None; m_isError := None;
               m_fileData := None; m_photoURL := None;
               m_displayName := Some "Alice";
               m_conversationId := Some "alice_me";
               m_receiverId := Some "me"; m_groupId := None;
               m_forwarded := None; m_originalSender := None |})];
     aiMessagesCol := []; conversationsCol := ∅; serverClock := 1 |}.

(** ** Predicates of the further properties *)

(** The listeners are those of the current selection. *)
Definition listeners_follow (w : World) (c : ChatState) : Prop :=
  messagesListener c = messages_query w c
  /\ statusListener c = listened_uid c
  /\ typingListener c = listened_uid c.

(** A text of white space only. *)
Fixpoint all_white (s : string) : bool :=
  match s with
  | EmptyString => true
  | String c s' => is_white c && all_white s'
  end.

(** How many routing tags a message document carries. *)
Definition routing_tags (d : MessageDoc) : nat :=
  (match m_conversationId d with Some _ => 1 | None => 0 end)
  + (match m_groupId d with Some _ => 1 | None => 0 end)
  + (match m_userId d with Some _ => 1 | None => 0 end).

(** The query the client of [uid] builds when it has the user [peer]
    selected. *)
Definition peer_query (uid peer : string) : Query :=
  {| q_collection := ColMessages; q_where_field := FConversationId;
     q_where_value := js_join "_" (participants_of uid peer);
     q_order := Asc; q_limit := 50 |}.

(** What the listeners and [messages] keep to: the listeners follow the
    selection, and without a target there are no messages. *)
Definition view_invariant (w : World) (c : ChatState) : Prop :=
  listeners_follow w c /\ (selected_count c = 0 -> messages c = []).

(** The recorded presence and typing entries are well formed: they are
    under a uid that is not empty, and a status is never empty. *)
Definition status_well_formed (c : ChatState) : Prop :=
  (forall uid rec, userStatus c !! uid = Some rec ->
     truthy uid = true /\ truthy (st_status rec) = true)
  /\ (forall uid v, typingStatus c !! uid = Some v -> truthy uid = true).

(** The live listeners of the page, and the listener an event is a
    delivery of. *)
Inductive Stream :=
  | StreamUsers
  | StreamGroups
  | StreamMessages
  | StreamStatus
  | StreamTyping.

Definition stream_of (e : Event) : option Stream :=
  match e with
  | UsersSnapshot _ => Some StreamUsers
  | GroupsSnapshot _ => Some StreamGroups
  | MessagesSnapshot => Some StreamMessages
  | StatusValue _ => Some StreamStatus
  | TypingValue _ => Some StreamTyping
  | _ => None
  end.

(** The system once the writes of other clients have made [st] of the
    store. *)
Definition with_store (st : Store) (sys : Sys) : Sys :=
  {| chat := chat sys; db := st; alerts := alerts sys; genCalls := genCalls sys;
     writeAttempts := writeAttempts sys; nextId := nextId sys |}.

(** ** Theorems *)

Section ConversationKey.

Lemma participants_of_cases (a b : string) :
  participants_of a b = if String.leb a b then [a; b] else [b; a].
Proof. reflexivity. Qed.

Lemma conversationKey_cases (a b : string) :
  conversationKey a b =
  if String.leb a b then a +:+ "_" +:+ b else b +:+ "_" +:+ a.
Proof.
  unfold conversationKey. rewrite participants_of_cases.
  destruct (String.leb a b); reflexivity.
Qed.

Lemma conversationKey_sym (a b : string) :
  conversationKey a b = conversationKey b a.
Proof.
  rewrite !conversationKey_cases.
  destruct (String.leb a b) eqn:Hab, (String.leb b a) eqn:Hba; try reflexivity.
  - by rewrite (String.leb_antisym _ _ Hab Hba).
  - destruct (String.leb_total a b); congruence.
Qed.

(** A separator-free prefix is determined by the joined string. *)
Lemma join_sep_inj (a c b d : string) :
  has_char "_"%char a = false -> has_char "_"%char c = false ->
  a +:+ "_" +:+ b = c +:+ "_" +:+ d -> a = c /\ b = d.
Proof.
  revert c. induction a as [|x a IH]; intros [|y c] Ha Hc H;
    cbn [has_char String.append] in *.
  - by inversion H.
  - inversion H; subst. rewrite Ascii.eqb_refl in Hc. discriminate.
  - inversion H; subst. rewrite Ascii.eqb_refl in Ha. discriminate.
  - inversion H; subst.
    destruct (Ascii.eqb "_"%char y); [discriminate|].
    destruct (IH c Ha Hc) as [-> ->]; done.
Qed.

Lemma sort_insert_perm (x : string) (l : list string) :
  sort_insert x l ≡ₚ x :: l.
Proof.
  induction l as [|y l IH]; simpl; [done|].
  destruct (String.leb x y); [done|].
  rewrite IH. apply Permutation_swap.
Qed.

Lemma js_sort_perm (l : list string) : js_sort l ≡ₚ l.
Proof.
  induction l as [|x l IH]; simpl; [done|].
  unfold js_sort in *. simpl. rewrite sort_insert_perm. by rewrite IH.
Qed.

Lemma sort_insert_sorted (x : string) (l : list string) :
  Sorted (fun a b => String.leb a b = true) l ->
  Sorted (fun a b => String.leb a b = true) (sort_insert x l).
Proof.
  induction 1 as [|y l Hs IH Hd]; simpl.
  - by repeat constructor.
  - destruct (String.leb x y) eqn:Hxy.
    + constructor; [by constructor | by constructor].
    + constructor; [exact IH|].
      destruct (String.leb_total x y) as [E|E]; [congruence|].
      destruct Hd as [|z l Hyz]; simpl; [by constructor|].
      destruct (String.leb x z); by constructor.
Qed.

Lemma js_sort_sorted (l : list string) :
  Sorted (fun a b => String.leb a b = true) (js_sort l).
Proof.
  induction l as [|x l IH]; [constructor|].
  apply sort_insert_sorted, IH.
Qed.

(** C1, as the code has it.  For every pair of ids the key is symmetric
    and it is the two ids, sorted by [Array.prototype.sort], joined with
    ["_"].  Two pairs of ids with the same key are the same unordered
    pair provided that no id contains the separator ["_"]. *)
Theorem conversationKey_spec (a b c d : string) :
  conversationKey a b = conversationKey b a
  /\ conversationKey a b = js_join "_" (js_sort [a; b])
  /\ js_sort [a; b] ≡ₚ [a; b]
  /\ Sorted (fun x y => String.leb x y = true) (js_sort [a; b])
  /\ (exists x y, js_sort [a; b] = [x; y]
                  /\ conversationKey a b = x +:+ "_" +:+ y)
  /\ (has_char "_"%char a = false -> has_char "_"%char b = false ->
      has_char "_"%char c = false -> has_char "_"%char d = false ->
      conversationKey a b = conversationKey c d -> same_pair a b c d).
Proof.
  split; [apply conversationKey_sym|].
  split; [reflexivity|].
  split; [apply js_sort_perm|].
  split; [apply js_sort_sorted|].
  split.
  - change (js_sort [a; b]) with (participants_of a b).
    rewrite conversationKey_cases, participants_of_cases.
    destruct (String.leb a b); eauto.
  - intros Ha Hb Hc Hd.
    rewrite !conversationKey_cases. unfold same_pair.
    destruct (String.leb a b), (String.leb c d); intros H;
      apply join_sep_inj in H; try done; destruct H; auto.
Qed.

(** Ids with the separator are covered by the first parts, ids without
    it by the last one. *)
Lemma conversationKey_spec_witness :
  conversationKey "a_b" "c" = conversationKey "c" "a_b"
  /\ conversationKey "a_b" "c" = js_join "_" (js_sort ["a_b"; "c"])
  /\ (conversationKey "alice" "bob" = conversationKey "bob" "alice"
      -> same_pair "alice" "bob" "bob" "alice").
Proof.
  destruct (conversationKey_spec "a_b" "c" "a" "b_c") as (Hsym & Hjoin & _).
  destruct (conversationKey_spec "alice" "bob" "bob" "alice")
    as (_ & _ & _ & _ & _ & Hinj).
  split; [exact Hsym|]. split; [exact Hjoin|].
  apply Hinj; reflexivity.
Defined.

(** C1, as stated, fails: two different unordered pairs of ids with the
    same key. *)
Lemma conversationKey_collision :
  ~ (forall a b c d : string,
        conversationKey a b = conversationKey c d -> same_pair a b c d).
Proof.
  intros H. destruct (H "a_b" "c" "a" "b_c" eq_refl) as [[E _]|[E _]];
    discriminate E.
Qed.

End ConversationKey.

(** *** The state-and-exception monad *)

Section ActLemmas.
Context {A B : Type}.

Lemma bind_done (m : Act A) (f : A -> Act B) sys sys' a :
  m sys = (sys', Done a) -> (m ≫= f) sys = f a sys'.
Proof. intros H. unfold mbind, Act_bind. by rewrite H. Qed.

Lemma bind_thrown (m : Act A) (f : A -> Act B) sys sys' e :
  m sys = (sys', Thrown e) -> (m ≫= f) sys = (sys', Thrown e).
Proof. intros H. unfold mbind, Act_bind. by rewrite H. Qed.

Lemma try_catch_done (m : Act A) (h : Error -> Act A) sys sys' a :
  m sys = (sys', Done a) -> try_catch m h sys = (sys', Done a).
Proof. intros H. unfold try_catch. by rewrite H. Qed.

Lemma try_catch_thrown (m : Act A) (h : Error -> Act A) sys sys' e :
  m sys = (sys', Thrown e) -> try_catch m h sys = h e sys'.
Proof. intros H. unfold try_catch. by rewrite H. Qed.
End ActLemmas.

(** *** What the two asynchronous handlers leave alone *)

Lemma untouched_refl c : untouched c c.
Proof. by repeat split. Qed.

Lemma untouched_trans c1 c2 c3 :
  untouched c1 c2 -> untouched c2 c3 -> untouched c1 c3.
Proof.
  unfold untouched. intros H1 H2.
  destruct H1 as (?&?&?&?&?&?&?&?&?&?), H2 as (?&?&?&?&?&?&?&?&?&?).
  repeat split; congruence.
Qed.

Section Frames.
Context {A B : Type}.

Lemma frames_ret (a : A) : frames (mret a : Act A).
Proof. intros sys. apply untouched_refl. Qed.

Lemma frames_bind (m : Act A) (f : A -> Act B) :
  frames m -> (forall a, frames (f a)) -> frames (m ≫= f).
Proof.
  intros Hm Hf sys. specialize (Hm sys).
  unfold mbind, Act_bind. destruct (m sys) as [sys' [a|e]]; simpl in *.
  - eapply untouched_trans; [exact Hm | apply Hf].
  - exact Hm.
Qed.

Lemma frames_try_catch (m : Act A) (h : Error -> Act A) :
  frames m -> (forall e, frames (h e)) -> frames (try_catch m h).
Proof.
  intros Hm Hh sys. specialize (Hm sys).
  unfold try_catch. destruct (m sys) as [sys' [a|e]]; simpl in *.
  - exact Hm.
  - eapply untouched_trans; [exact Hm | apply Hh].
Qed.
End Frames.

Lemma frames_alert a : frames (alert a).
Proof. intros sys. apply untouched_refl. Qed.

Lemma frames_upload w f : frames (upload w f).
Proof.
  intros sys. unfold upload.
  destruct (uploadFileToCloudinary w f); apply untouched_refl.
Qed.

Lemma frames_fetch w url : frames (fetch w url).
Proof.
  intros sys. unfold fetch. destruct (fetch_blob w url); apply untouched_refl.
Qed.

Lemma frames_generate w req : frames (generate w req).
Proof.
  intros sys. unfold generate.
  destruct (generateContent w req); apply untouched_refl.
Qed.

Lemma frames_newDocRef : frames newDocRef.
Proof. intros sys. apply untouched_refl. Qed.

Lemma frames_docRef id : frames (docRef id).
Proof.
  intros sys. unfold docRef.
  destruct (has_double_slash id); [apply untouched_refl|].
  destruct (Nat.even _); apply untouched_refl.
Qed.

Lemma frames_checkFieldName name : frames (checkFieldName name).
Proof.
  intros sys. unfold checkFieldName.
  destruct (valid_field_name name); apply untouched_refl.
Qed.

Lemma frames_request_write w f : frames (request_write w f).
Proof.
  intros sys. unfold request_write.
  destruct (store_accepts w _); apply untouched_refl.
Qed.

Lemma frames_addDoc w c d : frames (addDoc w c d).
Proof.
  apply frames_bind; [apply frames_newDocRef|].
  intros id. apply frames_request_write.
Qed.

Lemma frames_commit w batch : frames (commit w batch).
Proof.
  destruct batch; [apply frames_ret | apply frames_request_write].
Qed.

Lemma frames_setLoading b : frames (update_chat (setLoading b)).
Proof. intros sys. by repeat split. Qed.

Lemma frames_setAiLoading b : frames (update_chat (setAiLoading b)).
Proof. intros sys. by repeat split. Qed.

Lemma frames_setNewMessage t : frames (update_chat (setNewMessage t)).
Proof. intros sys. by repeat split. Qed.

Lemma frames_setSelectedFile f : frames (update_chat (setSelectedFile f)).
Proof. intros sys. by repeat split. Qed.

Create HintDb frames.
#[local] Hint Resolve frames_alert frames_upload frames_fetch frames_generate
  frames_newDocRef frames_docRef frames_checkFieldName frames_request_write
  frames_addDoc
  frames_commit frames_setLoading frames_setAiLoading frames_setNewMessage
  frames_setSelectedFile : frames.

Ltac frames_tac :=
  repeat first
    [ solve [auto with frames]
    | apply frames_ret
    | apply frames_bind; [| intros ?]
    | apply frames_try_catch; [| intros ?] ].

Lemma frames_ai_reply w c fileData : frames (ai_reply w c fileData).
Proof.
  unfold ai_reply.
  destruct (selectedFile c) as [f|], fileData as [fd|]; try frames_tac.
  destruct (startsWith _ _); frames_tac.
Qed.
#[local] Hint Resolve frames_ai_reply : frames.

Lemma frames_send w c : frames (send w c).
Proof.
  unfold send. apply frames_bind.
  - destruct (selectedFile c); frames_tac.
  - intros fileData. apply frames_bind; [| intros ?; frames_tac].
    destruct (selectedAI c); frames_tac.
Qed.
#[local] Hint Resolve frames_send : frames.

Lemma frames_submit_body w c :
  frames (update_chat (setLoading true);;
          try_catch (send w c) (fun _ => alert AlertSendFailed);;
          update_chat (setLoading false)).
Proof. frames_tac. Qed.

Lemma frames_handleSubmit w : frames (handleSubmit w).
Proof.
  intros sys. unfold handleSubmit.
  destruct (nothing_to_send _); [apply untouched_refl|].
  apply frames_submit_body.
Qed.

Lemma frames_forward_loop w c message l batch :
  frames (forward_loop w c message l batch).
Proof.
  revert batch. induction l as [|uid l IH]; intros batch; simpl; frames_tac.
Qed.
#[local] Hint Resolve frames_forward_loop : frames.

Lemma frames_handleForwardMessage w message l :
  frames (handleForwardMessage w message l).
Proof.
  intros sys. unfold handleForwardMessage.
  apply (frames_try_catch
           (batch ← forward_loop w (chat sys) message l []; commit w batch)
           (fun e => alert (AlertForwardFailed e))).
  - frames_tac.
  - intros e. apply frames_alert.
Qed.

Lemma frames_handleDeleteMessage w messageId isAI :
  frames (handleDeleteMessage w messageId isAI).
Proof. unfold handleDeleteMessage. frames_tac. Qed.

(** *** Selection *)

Ltac unfold_setters :=
  unfold setSelectedUser, setSelectedGroup, setSelectedAI, setNewMessage,
    setMessages, setSelectedFile, setLoading, setTypingStatus, setUserStatus,
    setAiLoading, setMessagesListener, setStatusListener, setTypingListener
    in *.

Ltac effects_cases :=
  unfold run_effects, messages_effect, messages_cleanup, status_effect,
    status_cleanup, typing_effect, typing_cleanup;
  repeat match goal with
         | |- context [bool_decide ?P] => destruct (bool_decide P)
         | |- context [match messages_query ?w ?s with _ => _ end] =>
             destruct (messages_query w s)
         | |- context [match listened_uid ?s with _ => _ end] =>
             destruct (listened_uid s)
         end; simpl.

Lemma run_effects_selection w prev s :
  selectedUser (run_effects w prev s) = selectedUser s
  /\ selectedGroup (run_effects w prev s) = selectedGroup s
  /\ selectedAI (run_effects w prev s) = selectedAI s.
Proof. effects_cases; done. Qed.

Lemma run_effects_status w prev s :
  userStatus (run_effects w prev s) = userStatus s
  /\ typingStatus (run_effects w prev s) = typingStatus s.
Proof. effects_cases; done. Qed.

Lemma selected_count_effects w prev s :
  selected_count (run_effects w prev s) = selected_count s.
Proof.
  unfold selected_count.
  destruct (run_effects_selection w prev s) as (-> & -> & ->). done.
Qed.

Lemma selected_count_untouched c c' :
  untouched c c' -> selected_count c' = selected_count c.
Proof.
  intros (Hu & Hg & Ha & _). unfold selected_count. by rewrite Hu, Hg, Ha.
Qed.

Lemma handleNavigate_count page s :
  selected_count s <= 1 -> selected_count (handleNavigate page s) <= 1.
Proof.
  unfold handleNavigate, selected_count.
  destruct (String.eqb page "ai"); simpl; [lia|].
  destruct (selectedUser s), (selectedGroup s), (selectedAI s); simpl; lia.
Qed.

Lemma step_selected_count w e sys :
  selected_count (chat sys) <= 1 -> selected_count (chat (step w e sys)) <= 1.
Proof.
  intros H.
  destruct e as [u|g|page| |data|v|text|f| |message l|ud|gd|ng|mid ai]; simpl;
    rewrite ?selected_count_effects.
  - destruct u; cbn; lia.
  - destruct g; cbn; lia.
  - by apply handleNavigate_count.
  - unfold on_messages_snapshot. by destruct (messagesListener _).
  - unfold on_status_value. by destruct (statusListener _).
  - unfold on_typing_value. by destruct (typingListener _).
  - done.
  - done.
  - by rewrite (selected_count_untouched _ _ (frames_handleSubmit w sys)).
  - by rewrite (selected_count_untouched _ _
                  (frames_handleForwardMessage w message l sys)).
  - done.
  - done.
  - done.
  - by rewrite (selected_count_untouched _ _
                  (frames_handleDeleteMessage w mid ai sys)).
Qed.

(** C3: after selecting a user, selecting a group or navigating to the
    assistant, exactly one of [selectedUser], [selectedGroup] and
    [selectedAI] is set; and in every state the page reaches, whatever
    the events before, at most one of them is set. *)
Theorem selection_exclusive (w : World) (st : Store) :
  (forall (sel : Selection) (sys : Sys),
      selected_count (chat (step w (select sel) sys)) = 1)
  /\ (forall sys : Sys, reachable w st sys -> selected_count (chat sys) <= 1).
Proof.
  split.
  - intros [u|g|] sys; simpl; by rewrite selected_count_effects.
  - induction 1 as [|e sys _ IH]; [cbn; lia|].
    by apply step_selected_count.
Qed.

(** *** Presence and typing *)

Lemma step_userStatus w e sys :
  userStatus (chat (step w e sys)) =
  match e, statusListener (chat sys) with
  | StatusValue data, Some uid =>
      <[uid := {| st_status :=
                    default "offline" (or_else (data ≫= sd_status) None);
                  st_lastChanged := data ≫= sd_lastChanged |}]>
        (userStatus (chat sys))
  | _, _ => userStatus (chat sys)
  end.
Proof.
  destruct e as [u|g|page| |data|v|text|f| |message l|ud|gd|ng|mid ai]; simpl;
    rewrite ?(proj1 (run_effects_status _ _ _)).
  - done.
  - done.
  - unfold handleNavigate. by destruct (String.eqb page "ai").
  - unfold on_messages_snapshot. by destruct (messagesListener _).
  - unfold on_status_value. by destruct (statusListener _).
  - unfold on_typing_value. by destruct (typingListener _).
  - done.
  - done.
  - by destruct (frames_handleSubmit w sys) as (_&_&_&_&->&_).
  - by destruct (frames_handleForwardMessage w message l sys) as (_&_&_&_&->&_).
  - done.
  - done.
  - done.
  - by destruct (frames_handleDeleteMessage w mid ai sys) as (_&_&_&_&->&_).
Qed.

Lemma step_typingStatus w e sys :
  typingStatus (chat (step w e sys)) =
  match e, typingListener (chat sys) with
  | TypingValue v, Some uid => <[uid := v]> (typingStatus (chat sys))
  | _, _ => typingStatus (chat sys)
  end.
Proof.
  destruct e as [u|g|page| |data|v|text|f| |message l|ud|gd|ng|mid ai]; simpl;
    rewrite ?(proj2 (run_effects_status _ _ _)).
  - done.
  - done.
  - unfold handleNavigate. by destruct (String.eqb page "ai").
  - unfold on_messages_snapshot. by destruct (messagesListener _).
  - unfold on_status_value. by destruct (statusListener _).
  - unfold on_typing_value. by destruct (typingListener _).
  - done.
  - done.
  - by destruct (frames_handleSubmit w sys) as (_&_&_&_&_&->&_).
  - by destruct (frames_handleForwardMessage w message l sys) as (_&_&_&_&_&->&_).
  - done.
  - done.
  - done.
  - by destruct (frames_handleDeleteMessage w mid ai sys) as (_&_&_&_&_&->&_).
Qed.

Lemma run_app w es1 es2 sys : run w (es1 ++ es2) sys = run w es2 (run w es1 sys).
Proof. unfold run. apply foldl_app. Qed.

(** C10: an event never removes an entry of [userStatus] or
    [typingStatus]: over any sequence of events the uids recorded only
    grow; selecting or deselecting a user, a group or the assistant
    leaves both maps as they are; and a value from the status (typing)
    listener writes the entry of the listened uid only. *)
Theorem presence_typing_only_grow (w : World) (es : list Event) (sys : Sys) :
  dom (userStatus (chat sys)) ⊆ dom (userStatus (chat (run w es sys)))
  /\ dom (typingStatus (chat sys)) ⊆ dom (typingStatus (chat (run w es sys)))
  /\ (forall e, (exists u, e = OnUserSelect u) \/ (exists g, e = OnGroupSelect g)
                \/ (exists page, e = Navigate page) ->
        userStatus (chat (step w e sys)) = userStatus (chat sys)
        /\ typingStatus (chat (step w e sys)) = typingStatus (chat sys))
  /\ (forall data uid, statusListener (chat sys) = Some uid ->
        is_Some (userStatus (chat (step w (StatusValue data) sys)) !! uid)
        /\ forall uid', uid' ≠ uid ->
             userStatus (chat (step w (StatusValue data) sys)) !! uid'
             = userStatus (chat sys) !! uid')
  /\ (forall v uid, typingListener (chat sys) = Some uid ->
        typingStatus (chat (step w (TypingValue v) sys)) !! uid = Some v
        /\ forall uid', uid' ≠ uid ->
             typingStatus (chat (step w (TypingValue v) sys)) !! uid'
             = typingStatus (chat sys) !! uid').
Proof.
  split; [|split; [|split; [|split]]].
  - revert sys. induction es as [|e es IH] using rev_ind; intros sys; [done|].
    rewrite run_app. simpl. etrans; [apply IH|].
    rewrite step_userStatus.
    destruct e; try done. destruct (statusListener _); [|done].
    rewrite dom_insert_L. set_solver.
  - revert sys. induction es as [|e es IH] using rev_ind; intros sys; [done|].
    rewrite run_app. simpl. etrans; [apply IH|].
    rewrite step_typingStatus.
    destruct e; try done. destruct (typingListener _); [|done].
    rewrite dom_insert_L. set_solver.
  - intros e He. rewrite step_userStatus, step_typingStatus.
    destruct He as [[u ->]|[[g ->]|[page ->]]]; done.
  - intros data uid Hl. rewrite step_userStatus, Hl. split.
    + rewrite lookup_insert_eq. eauto.
    + intros uid' Hne. by rewrite lookup_insert_ne.
  - intros v uid Hl. rewrite step_typingStatus, Hl. split.
    + by rewrite lookup_insert_eq.
    + intros uid' Hne. by rewrite lookup_insert_ne.
Qed.

(** *** The messages query and the target switch *)

Lemma run_query_length st q : length (run_query st q) <= q_limit q.
Proof. unfold run_query. rewrite length_take. lia. Qed.

Lemma doc_le_total x y : doc_le x y = true \/ doc_le y x = true.
Proof.
  unfold doc_le.
  destruct (Nat.ltb_spec (m_timestamp x.2) (m_timestamp y.2)); [by left|].
  destruct (Nat.ltb_spec (m_timestamp y.2) (m_timestamp x.2));
    [right; by rewrite orb_true_l|].
  assert (E : m_timestamp x.2 = m_timestamp y.2) by lia.
  rewrite E, Nat.eqb_refl. simpl.
  destruct (Nat.leb_spec x.1 y.1); [by left|right].
  apply Nat.leb_le. lia.
Qed.

Lemma doc_insert_sorted x l :
  Sorted (fun a b => doc_le a b = true) l ->
  Sorted (fun a b => doc_le a b = true) (doc_insert x l).
Proof.
  induction 1 as [|y l Hs IH Hd]; simpl.
  - by repeat constructor.
  - destruct (doc_le x y) eqn:Hxy.
    + constructor; [by constructor | by constructor].
    + constructor; [exact IH|].
      destruct (doc_le_total x y) as [E|E]; [congruence|].
      destruct Hd as [|z l Hyz]; simpl; [by constructor|].
      destruct (doc_le x z); by constructor.
Qed.

Lemma Sorted_take {A} (R : A -> A -> Prop) n (l : list A) :
  Sorted R l -> Sorted R (take n l).
Proof.
  intros H. revert n. induction H as [|x l Hs IH Hd]; intros [|n]; simpl;
    try constructor.
  - apply IH.
  - destruct Hd; destruct n; simpl; by constructor.
Qed.

(** The window of a query is in ascending order of timestamp. *)
Lemma run_query_sorted st q :
  q_order q = Asc -> Sorted (fun a b => doc_le a b = true) (run_query st q).
Proof.
  intros Ho. unfold run_query. rewrite Ho. apply Sorted_take. simpl.
  induction (List.filter _ _) as [|x l IH]; [constructor|].
  apply doc_insert_sorted, IH.
Qed.

(** C2 at a stream of 51 messages: the query of the assistant target
    delivers fifty messages in ascending order of timestamp, and they are
    the fifty oldest.  The newest message of the stream, written at time
    50, is not among them; the oldest, written at time 0, is. *)
Theorem messages_window_keeps_oldest :
  let sys := run me_world [Navigate "ai"; MessagesSnapshot]
               (initial_sys (ai_stream 51)) in
  messagesListener (chat sys)
  = Some {| q_collection := ColAiMessages; q_where_field := FUserId;
            q_where_value := "me"; q_order := Asc; q_limit := 50 |}
  /\ length (aiMessagesCol (ai_stream 51)) = 51
  /\ map (fun m => m_timestamp (mv_doc m)) (messages (chat sys)) = seq 0 50
  /\ (50, stamp 50 (aiMessage me_world "m")) ∈ aiMessagesCol (ai_stream 51)
  /\ 50 ∉ map mv_id (messages (chat sys)).
Proof.
  vm_compute. split; [reflexivity|]. split; [reflexivity|].
  split; [reflexivity|]. split.
  - apply list_elem_of_In. vm_compute. repeat (first [left; reflexivity | right]).
  - intros H. apply list_elem_of_In in H. vm_compute in H.
    repeat (destruct H as [H|H]; [discriminate H|]). exact H.
Qed.

Lemma messages_status_effect s : messages (status_effect s) = messages s.
Proof. unfold status_effect. by destruct (listened_uid s). Qed.

Lemma messages_typing_effect s : messages (typing_effect s) = messages s.
Proof. unfold typing_effect. by destruct (listened_uid s). Qed.

Lemma messages_messages_effect w s :
  messages (messages_effect w s)
  = match messages_query w s with
    | Some _ => messages s
    | None => []
    end.
Proof. unfold messages_effect. by destruct (messages_query w s). Qed.

Lemma run_effects_messages w prev s :
  messages (run_effects w prev s)
  = if bool_decide ((selectedUser prev, selectedGroup prev, selectedAI prev)
                    = (selectedUser s, selectedGroup s, selectedAI s))
    then messages s
    else match messages_query w s with
         | Some _ => messages s
         | None => []
         end.
Proof.
  unfold run_effects.
  destruct (bool_decide ((selectedUser prev, _, _) = _));
    destruct (bool_decide (selectedUser prev = _)); cbn [negb];
    rewrite ?messages_typing_effect, ?messages_status_effect,
      ?messages_messages_effect; reflexivity.
Qed.

(** Selecting a target leaves [messages] as it was: the effect clears the
    list only when nothing is selected. *)
Lemma selection_keeps_messages w sel sys :
  messages (chat (step w (select sel) sys)) = messages (chat sys).
Proof.
  destruct sel as [u|g|]; simpl; rewrite run_effects_messages;
    case_bool_decide; try done; unfold messages_query; simpl; try done.
Qed.

(** Deselecting does clear it. *)
Lemma deselection_clears_messages w u sys :
  selectedUser (chat sys) = Some u ->
  messages (chat (step w (OnUserSelect None) sys)) = [].
Proof.
  intros Hu. simpl. rewrite run_effects_messages.
  case_bool_decide as E; [simpl in E; congruence|]. done.
Qed.

(** C4 at a switch from one user to another: [me] has [alice] selected
    and her conversation's snapshot has arrived; [me] selects [bob].
    The listener is now on the conversation with [bob], which is empty,
    and [messages] still holds the message of the conversation with
    [alice]. *)
Theorem switch_keeps_previous_messages :
  let before := run me_world [OnUserSelect (Some alice); MessagesSnapshot]
                  (initial_sys alice_wrote) in
  let after := step me_world (OnUserSelect (Some bob)) before in
  selectedUser (chat after) = Some bob
  /\ (exists q, messagesListener (chat after) = Some q
                /\ q_where_value q = conversationKey "me" "bob"
                /\ run_query (db after) q = [])
  /\ messages (chat after) = messages (chat before)
  /\ map (fun m => m_conversationId (mv_doc m)) (messages (chat after))
     = [Some (conversationKey "me" "alice")].
Proof.
  cbv zeta. split; [vm_compute; reflexivity|]. split.
  - eexists. split; [vm_compute; reflexivity|].
    split; vm_compute; reflexivity.
  - split; vm_compute; reflexivity.
Qed.


(** *** [handleSubmit] *)

(** Evaluation of the asynchronous code: unfold the actions, then decide
    each answer of a collaborator as it comes up. *)
Ltac act_eval :=
  cbv beta iota zeta delta
    [handleSubmit send ai_reply addDoc commit request_write newDocRef
     upload fetch generate alert update_chat try_catch
     mbind Act_bind mret Act_ret
     chat db alerts genCalls writeAttempts nextId fst snd fd_url].

Ltac oracle_case :=
  match goal with
  | |- context [match uploadFileToCloudinary ?w ?f with _ => _ end] =>
      destruct (uploadFileToCloudinary w f) eqn:?
  | |- context [if store_accepts ?w ?n then _ else _] =>
      destruct (store_accepts w n) eqn:?
  | |- context [match fetch_blob ?w ?u with _ => _ end] =>
      destruct (fetch_blob w u) eqn:?
  | |- context [match generateContent ?w ?r with _ => _ end] =>
      destruct (generateContent w r) eqn:?
  | |- context [if startsWith ?a ?b then _ else _] =>
      destruct (startsWith a b) eqn:?
  end.

Ltac run_submit :=
  act_eval; repeat (oracle_case; try discriminate; act_eval).

Lemma js_trim_empty : js_trim EmptyString = EmptyString.
Proof. reflexivity. Qed.

(** The guard lets a draft through only if there is one. *)
Lemma guard_draft c :
  nothing_to_send c = false -> draft c <> (EmptyString, None).
Proof.
  unfold nothing_to_send, draft. intros Hg [= Hm Hf].
  rewrite Hm, Hf, js_trim_empty in Hg.
  rewrite bool_decide_eq_false_2 in Hg by (intros [? ?]; discriminate).
  discriminate Hg.
Qed.

(** With a file picked on the assistant target there is something to
    send. *)
Lemma guard_file_ai c f :
  selectedAI c = true -> selectedFile c = Some f -> nothing_to_send c = false.
Proof.
  unfold nothing_to_send. intros -> ->.
  rewrite (bool_decide_eq_true_2 (is_Some (Some f))) by eauto.
  cbn [negb andb orb]. by rewrite !andb_false_r.
Qed.

(** What decides the run of [handleSubmit]. *)
Lemma handleSubmit_outcome (w : World) (sys : Sys) :
  nothing_to_send (chat sys) = false ->
  snd (handleSubmit w sys) = Done tt
  /\ if send_succeeds w sys
     then draft (chat (fst (handleSubmit w sys))) = (EmptyString, None)
          /\ alerts (fst (handleSubmit w sys)) = alerts sys
     else draft (chat (fst (handleSubmit w sys))) = draft (chat sys)
          /\ alerts (fst (handleSubmit w sys))
             = (alerts sys ++ [AlertSendFailed])%list.
Proof.
  intros Hguard.
  unfold handleSubmit. rewrite Hguard.
  unfold send_succeeds, upload_fails, generation_failed.
  destruct sys as [c st al gc wa ni]. cbn [chat writeAttempts alerts].
  destruct (selectedAI c) eqn:HAI, (selectedFile c) as [f|] eqn:Hf;
    act_eval; rewrite ?HAI, ?Hf; run_submit; cbn [negb andb orb];
    repeat split; unfold draft; unfold_setters; cbn; congruence.
Qed.

(** C7, as the code has it: a send ends without raising, either with the
    draft cleared and no notification, or with the draft as it was and
    exactly one notification.  A failed upload, or a refused write of the
    user's message, gives the latter.  For a user or a group the draft is
    cleared exactly when the upload and the write succeed.  On the
    assistant target, once the user's message is written, a refused write
    of the reply is absorbed like a failure of the generation: the draft
    is cleared without a notification when the reply or the apology gets
    written, and kept with one notification when neither does. *)
Theorem submit_failure_policy (w : World) (sys : Sys) :
  nothing_to_send (chat sys) = false ->
  snd (handleSubmit w sys) = Done tt
  /\ (send_succeeds w sys = true ->
        draft (chat (fst (handleSubmit w sys))) = (EmptyString, None)
        /\ alerts (fst (handleSubmit w sys)) = alerts sys)
  /\ (send_succeeds w sys = false ->
        draft (chat (fst (handleSubmit w sys))) = draft (chat sys)
        /\ alerts (fst (handleSubmit w sys))
           = (alerts sys ++ [AlertSendFailed])%list)
  /\ (draft (chat (fst (handleSubmit w sys))) = (EmptyString, None)
      <-> send_succeeds w sys = true)
  /\ (upload_fails w (chat sys) = true
      \/ store_accepts w (writeAttempts sys) = false ->
        send_succeeds w sys = false)
  /\ (selectedAI (chat sys) = false ->
        send_succeeds w sys
        = negb (upload_fails w (chat sys)) && store_accepts w (writeAttempts sys))
  /\ (selectedAI (chat sys) = true ->
        send_succeeds w sys
        = negb (upload_fails w (chat sys)) && store_accepts w (writeAttempts sys)
          && (store_accepts w (S (writeAttempts sys))
              || (negb (generation_failed w (chat sys))
                  && store_accepts w (S (S (writeAttempts sys)))))).
Proof.
  intros Hguard.
  destruct (handleSubmit_outcome w sys Hguard) as [Hdone Hout].
  split; [exact Hdone|].
  destruct (send_succeeds w sys) eqn:Hs.
  - destruct Hout as [Hd Ha].
    repeat split; try done.
    + intros [Hu|Hw]; unfold send_succeeds in Hs; rewrite ?Hu, ?Hw in Hs;
        cbn [negb andb] in Hs; [done|].
      by rewrite andb_false_r in Hs.
    + intros HAI. rewrite <- Hs. unfold send_succeeds.
      rewrite HAI. by rewrite andb_true_r.
    + intros HAI. rewrite <- Hs. unfold send_succeeds. by rewrite HAI.
  - destruct Hout as [Hd Ha].
    repeat split; try done.
    + intros E. rewrite E in Hd. symmetry in Hd.
      by apply guard_draft in Hd.
    + intros HAI. rewrite <- Hs. unfold send_succeeds.
      rewrite HAI. by rewrite andb_true_r.
    + intros HAI. rewrite <- Hs. unfold send_succeeds. by rewrite HAI.
Qed.

(** A draft on the assistant target; the store refuses the reply's
    write and accepts the others. *)
Lemma submit_failure_policy_witness :
  let sys := run (refusing 1) [Navigate "ai"; SetNewMessage "hi"]
               (initial_sys no_store) in
  send_succeeds (refusing 1) sys = true
  /\ draft (chat (fst (handleSubmit (refusing 1) sys))) = (EmptyString, None).
Proof.
  cbv zeta. split; [vm_compute; reflexivity|].
  apply (submit_failure_policy (refusing 1)
           (run (refusing 1) [Navigate "ai"; SetNewMessage "hi"]
              (initial_sys no_store))); vm_compute; reflexivity.
Defined.

(** C7, as stated, fails: on the assistant target a write is refused (the
    reply's), no notification follows and the draft is cleared. *)
Lemma refused_reply_write_is_absorbed :
  ~ (forall (w : World) (sys : Sys),
        nothing_to_send (chat sys) = false ->
        write_refused w sys (fst (handleSubmit w sys)) ->
        draft (chat (fst (handleSubmit w sys))) = draft (chat sys)
        /\ length (alerts (fst (handleSubmit w sys))) = S (length (alerts sys))).
Proof.
  intros H.
  specialize (H (refusing 1)
                (run (refusing 1) [Navigate "ai"; SetNewMessage "hi"]
                   (initial_sys no_store))).
  destruct H as [_ Hal].
  - vm_compute. reflexivity.
  - exists 1. split; [split|]; vm_compute; try reflexivity; lia.
  - vm_compute in Hal. discriminate Hal.
Qed.

(** The run of an assistant turn whose two writes are accepted. *)
Lemma ai_turn_run (w : World) (sys : Sys) :
  selectedAI (chat sys) = true ->
  nothing_to_send (chat sys) = false ->
  upload_fails w (chat sys) = false ->
  store_accepts w (writeAttempts sys) = true ->
  store_accepts w (S (writeAttempts sys)) = true ->
  exists (fileData : option FileData) (reply : MessageDoc) (id2 : nat),
    db (fst (handleSubmit w sys))
    = tick (insert_doc ColAiMessages id2
              (stamp (S (serverClock (db sys))) reply)
              (tick (insert_doc ColAiMessages (fresh_id (nextId sys) (db sys))
                       (stamp (serverClock (db sys))
                          (userMessage w (chat sys) fileData))
                       (db sys))))
    /\ (if generation_failed w (chat sys)
        then reply = errorMessage w
        else exists text, reply = aiMessage w text)
    /\ (forall f, selectedFile (chat sys) = Some f ->
          startsWith (file_type f) "image/" = false ->
          reply = aiMessage w (acknowledgment f (newMessage (chat sys)))
          /\ genCalls (fst (handleSubmit w sys)) = genCalls sys).
Proof.
  intros HAI Hguard Hup Hw1 Hw2.
  unfold handleSubmit. rewrite Hguard.
  unfold upload_fails, generation_failed in *.
  destruct sys as [c st al gc wa ni].
  cbn [chat writeAttempts alerts db nextId genCalls] in *.
  destruct (selectedFile c) as [f|] eqn:Hf;
    act_eval; rewrite ?HAI, ?Hf; act_eval.
  - destruct (uploadFileToCloudinary w f) as [r|] eqn:Hr; [|discriminate].
    act_eval. rewrite Hw1. act_eval.
    destruct (startsWith (file_type f) "image/") eqn:Himg; act_eval.
    + destruct (fetch_blob w (up_url r)) as [b|] eqn:Hb; act_eval.
      * destruct (generateContent w _) as [t|] eqn:Ht; act_eval;
          rewrite Hw2; act_eval; eexists _, _, _;
          (split; [reflexivity|]); (split; [eauto|]);
          intros ? [= <-] ?; congruence.
      * rewrite Hw2. act_eval. eexists _, _, _.
        split; [reflexivity|]. split; [reflexivity|].
        intros ? [= <-] ?; congruence.
    + rewrite Hw2. act_eval. eexists _, _, _.
      split; [reflexivity|]. split; [eauto|].
      intros ? [= <-] _. done.
  - rewrite Hw1. act_eval.
    destruct (generateContent w (GenText (newMessage c))) as [t|] eqn:Ht;
      act_eval; rewrite Hw2; act_eval; eexists _, _, _;
      (split; [reflexivity|]); (split; [eauto|]); intros ? [=].
Qed.

Lemma added_ai_app st st' new :
  aiMessagesCol st' = (aiMessagesCol st ++ new)%list -> added_ai st st' = new.
Proof. intros H. unfold added_ai. rewrite H. apply drop_app_length. Qed.

Ltac added_eval :=
  unfold added_ai;
  cbn [db aiMessagesCol messagesCol conversationsCol serverClock tick insert_doc
       alerts genCalls writeAttempts nextId chat fst snd];
  rewrite <- ?app_assoc;
  rewrite ?drop_app_length, ?drop_all;
  cbn [app map List.filter tagged_isAI m_isAI stamp userMessage aiMessage
       errorMessage].

(** The assistant's messages of a turn, whatever the collaborators
    answer: none, the reply, or the apology. *)
Lemma ai_turn_messages (w : World) (sys : Sys) :
  selectedAI (chat sys) = true ->
  nothing_to_send (chat sys) = false ->
  (forall f, selectedFile (chat sys) = Some f ->
     startsWith (file_type f) "image/" = false ->
     genCalls (fst (handleSubmit w sys)) = genCalls sys)
  /\ ((assistant_messages w sys = []
       /\ (upload_fails w (chat sys) = true
           \/ store_accepts w (writeAttempts sys) = false
           \/ store_accepts w (S (writeAttempts sys)) = false))
      \/ (upload_fails w (chat sys) = false
          /\ store_accepts w (writeAttempts sys) = true
          /\ ((exists text,
                 assistant_messages w sys
                 = [stamp (S (serverClock (db sys))) (aiMessage w text)]
                 /\ generation_failed w (chat sys) = false
                 /\ store_accepts w (S (writeAttempts sys)) = true
                 /\ (forall f, selectedFile (chat sys) = Some f ->
                       startsWith (file_type f) "image/" = false ->
                       text = acknowledgment f (newMessage (chat sys))))
              \/ (assistant_messages w sys
                  = [stamp (S (serverClock (db sys))) (errorMessage w)]
                  /\ (generation_failed w (chat sys) = true
                      \/ store_accepts w (S (writeAttempts sys)) = false))))).
Proof.
  intros HAI Hguard.
  unfold assistant_messages, handleSubmit. rewrite Hguard.
  unfold upload_fails, generation_failed.
  destruct sys as [c st al gc wa ni].
  cbn [chat writeAttempts db genCalls] in *.
  destruct (selectedFile c) as [f|] eqn:Hf;
    act_eval; rewrite ?HAI, ?Hf; run_submit; added_eval;
    (split;
     [intros f0 E Himg;
      first [discriminate E
            |injection E as <-; first [reflexivity|congruence]]
     |first [left; split; [reflexivity|auto; fail]
            |right; split; [reflexivity|]; split; [reflexivity|];
             first [left; eexists; split; [reflexivity|];
                    split; [reflexivity|]; split; [reflexivity|];
                    intros f0 E Himg;
                    first [discriminate E
                          |injection E as <-; first [reflexivity|congruence]]
                   |right; split; [reflexivity|auto; fail]]]]).
Qed.




(** With a store that accepts the user's message only, the turn persists
    no assistant message at all. *)
Example ai_turn_without_assistant_message :
  let sys := run (accepting_first 1) [Navigate "ai"; SetNewMessage "hi"]
               (initial_sys no_store) in
  assistant_messages (accepting_first 1) sys = []
  /\ generation_failed (accepting_first 1) (chat sys) = false.
Proof. vm_compute. split; reflexivity. Qed.

(** The backend throws: the apology is the turn's one assistant
    message, and nothing is raised or notified. *)
Example ai_turn_backend_throws :
  let sys := fst (handleSubmit failing_backend
                    (run failing_backend [Navigate "ai"; SetNewMessage "hi"]
                       (initial_sys no_store))) in
  map (fun d => (m_text (snd d), m_isAI (snd d), m_isError (snd d)))
    (aiMessagesCol (db sys))
  = [("hi", Some false, None); (apology, Some true, Some true)]
  /\ alerts sys = [] /\ genCalls sys = [GenText "hi"].
Proof. vm_compute. repeat split; reflexivity. Qed.

(** Neither the reply nor the apology gets written: the user's message
    is in the store, the draft is kept and the failure is notified. *)
Example ai_turn_no_assistant_write :
  let sys := fst (handleSubmit (accepting_first 1)
                    (run (accepting_first 1) [Navigate "ai"; SetNewMessage "hi"]
                       (initial_sys no_store))) in
  map (fun d => m_text (snd d)) (aiMessagesCol (db sys)) = ["hi"]
  /\ alerts sys = [AlertSendFailed] /\ newMessage (chat sys) = "hi".
Proof. vm_compute. repeat split; reflexivity. Qed.

(** The first piece of a split is the text before the first separator. *)
Lemma js_split_hd (sep : ascii) (s : string) :
  exists rest,
    s = hd EmptyString (js_split sep s) +:+ rest
    /\ has_char sep (hd EmptyString (js_split sep s)) = false
    /\ (rest = EmptyString \/ exists r, rest = String sep r).
Proof.
  induction s as [|c s IH]; cbn [js_split].
  - exists EmptyString. repeat split; auto.
  - destruct (Ascii.eqb c sep) eqn:Hc.
    + apply Ascii.eqb_eq in Hc. subst c.
      exists (String sep s). repeat split; eauto.
    + destruct IH as (rest & Hs & Hn & Hr).
      destruct (js_split sep s) as [|p ps]; cbn [hd] in *.
      * exists rest. cbn [has_char].
        rewrite Ascii.eqb_sym, Hc. repeat split; [by subst s|done].
      * exists rest. cbn [has_char].
        rewrite Ascii.eqb_sym, Hc. repeat split; [by subst s|done|done].
Qed.

(** C6, as the code has it.  An assistant turn with a file that is not
    an image makes no request to the generation backend.  An assistant
    message it persists is the acknowledgment or, when the store refused
    the acknowledgment, the apology.  When the upload and the two writes
    succeed, the one assistant message is not an error and its text names
    the file's category, the part of its MIME type before the first
    slash, and the file's name, followed by the user's text when there is
    one. *)
Theorem non_image_file_is_acknowledged (w : World) (sys : Sys) (f : File) :
  selectedAI (chat sys) = true ->
  selectedFile (chat sys) = Some f ->
  startsWith (file_type f) "image/" = false ->
  genCalls (fst (handleSubmit w sys)) = genCalls sys
  /\ generation_failed w (chat sys) = false
  /\ (forall d, d ∈ assistant_messages w sys ->
        (m_text d = acknowledgment f (newMessage (chat sys))
         /\ m_isError d = None
         /\ store_accepts w (S (writeAttempts sys)) = true)
        \/ (m_text d = apology /\ m_isError d = Some true
            /\ store_accepts w (S (writeAttempts sys)) = false))
  /\ (upload_fails w (chat sys) = false ->
      store_accepts w (writeAttempts sys) = true ->
      store_accepts w (S (writeAttempts sys)) = true ->
      exists (user reply : nat * MessageDoc) (category rest : string),
        aiMessagesCol (db (fst (handleSubmit w sys)))
        = (aiMessagesCol (db sys) ++ [user; reply])%list
        /\ assistant_messages w sys = [snd reply]
        /\ m_isAI (snd reply) = Some true
        /\ m_isError (snd reply) = None
        /\ file_type f = category +:+ rest
        /\ has_char "/" category = false
        /\ (rest = EmptyString \/ exists r, rest = String "/" r)
        /\ m_text (snd reply)
           = "I received your " +:+ category +:+ " file " +:+ dquote
             +:+ file_name f +:+ dquote +:+ ". "
             +:+ (if truthy (newMessage (chat sys))
                  then "Regarding your message: " +:+ newMessage (chat sys)
                  else "How can I help you with this file?")).
Proof.
  intros HAI Hf Himg.
  pose proof (guard_file_ai _ _ HAI Hf) as Hguard.
  destruct (ai_turn_messages w sys HAI Hguard) as [Hcalls Hshape].
  assert (Hgen : generation_failed w (chat sys) = false).
  { unfold generation_failed. by rewrite Hf, Himg. }
  split; [by apply (Hcalls f)|]. split; [exact Hgen|]. split.
  - intros d Hd.
    destruct Hshape as [[E _]|(_ & _ & [(text & E & _ & Hw2 & Hack)|[E Hwhy]])];
      rewrite E in Hd.
    + by apply elem_of_nil in Hd.
    + apply list_elem_of_singleton in Hd. subst d. left.
      rewrite (Hack f Hf Himg). by repeat split.
    + apply list_elem_of_singleton in Hd. subst d. right.
      destruct Hwhy as [Hwhy|Hwhy]; [congruence|]. by repeat split.
  - intros Hup Hw1 Hw2.
    destruct (ai_turn_run w sys HAI Hguard Hup Hw1 Hw2)
      as (fileData & reply & id2 & Hdb & _ & Hack).
    destruct (Hack f Hf Himg) as [-> _].
    destruct (js_split_hd "/" (file_type f)) as (rest & Hty & Hno & Hrest).
    assert (Hcol : aiMessagesCol (db (fst (handleSubmit w sys)))
                   = (aiMessagesCol (db sys)
                      ++ [(fresh_id (nextId sys) (db sys),
                           stamp (serverClock (db sys))
                             (userMessage w (chat sys) fileData));
                          (id2, stamp (S (serverClock (db sys)))
                                  (aiMessage w
                                     (acknowledgment f (newMessage (chat sys)))))])%list).
    { rewrite Hdb. cbn [aiMessagesCol tick insert_doc].
      by rewrite <- app_assoc. }
    eexists (_, _), (_, _), _, rest. split; [exact Hcol|].
    split.
    { unfold assistant_messages. by rewrite (added_ai_app _ _ _ Hcol). }
    cbn [snd]. split; [reflexivity|]. split; [reflexivity|].
    split; [exact Hty|]. split; [exact Hno|]. split; [exact Hrest|].
    reflexivity.
Qed.

(** A PDF and no text. *)
Lemma non_image_file_is_acknowledged_witness :
  let pdf := {| file_name := "doc.pdf"; file_size := 3;
                file_type := "application/pdf" |} in
  let sys := run me_world [Navigate "ai"; FileSelect (Some pdf)]
               (initial_sys no_store) in
  genCalls (fst (handleSubmit me_world sys)) = []
  /\ map (fun d => m_text (snd d))
       (aiMessagesCol (db (fst (handleSubmit me_world sys))))
     = [EmptyString;
        "I received your application file " +:+ dquote +:+ "doc.pdf" +:+ dquote
        +:+ ". How can I help you with this file?"].
Proof.
  cbv zeta. split; [|vm_compute; reflexivity].
  apply (non_image_file_is_acknowledged me_world
           (run me_world
              [Navigate "ai";
               FileSelect (Some {| file_name := "doc.pdf"; file_size := 3;
                                   file_type := "application/pdf" |})]
              (initial_sys no_store))
           {| file_name := "doc.pdf"; file_size := 3;
              file_type := "application/pdf" |});
    vm_compute; reflexivity.
Defined.

(** C6, as stated, fails.  The store refuses the write of the
    acknowledgment of a PDF: the assistant message the turn persists is
    the apology, which names neither the file's category nor its name. *)
Lemma refused_acknowledgment_gives_apology :
  ~ (forall (w : World) (sys : Sys) (f : File),
       selectedAI (chat sys) = true ->
       selectedFile (chat sys) = Some f ->
       startsWith (file_type f) "image/" = false ->
       exists reply : MessageDoc,
         assistant_messages w sys = [reply]
         /\ m_text reply = acknowledgment f (newMessage (chat sys))).
Proof.
  intros H.
  destruct (H (refusing 1)
              (run (refusing 1)
                 [Navigate "ai";
                  FileSelect (Some {| file_name := "doc.pdf"; file_size := 3;
                                      file_type := "application/pdf" |})]
                 (initial_sys no_store))
              {| file_name := "doc.pdf"; file_size := 3;
                 file_type := "application/pdf" |})
    as (reply & Hone & Htext); [vm_compute; reflexivity..|].
  vm_compute in Hone. injection Hone as <-.
  vm_compute in Htext. discriminate Htext.
Qed.

(** *** [handleForwardMessage] *)

Lemma docRef_run id sys :
  docRef id sys
  = if valid_ref id then (sys, Done (convo_path id))
    else (sys, Thrown InvalidReference).
Proof.
  unfold docRef, valid_ref, convo_path.
  destruct (has_double_slash id); [reflexivity|].
  cbn [negb andb]. by destruct (Nat.even _).
Qed.

Lemma max_id_lt (d : nat * MessageDoc) l : d ∈ l -> fst d < max_id l.
Proof.
  induction 1 as [d l|d d' l _ IH]; cbn [max_id foldr]; [lia|].
  fold (max_id l). lia.
Qed.

(** An id drawn from a store is the id of none of its documents. *)
Lemma fresh_id_fresh next st d :
  d ∈ messagesCol st \/ d ∈ aiMessagesCol st -> fst d <> fresh_id next st.
Proof.
  unfold fresh_id, store_next.
  intros [H|H]; apply max_id_lt in H; lia.
Qed.

Lemma fresh_id_succ next st :
  fresh_id (S (fresh_id next st)) st = S (fresh_id next st).
Proof. unfold fresh_id. lia. Qed.

(** The loop only draws fresh ids; it ends with the recipients' writes
    added to the batch, or throws at the first recipient whose reference
    or field name is refused. *)
Lemma forward_loop_run w c message l batch sys :
  exists sys' e,
    chat sys' = chat sys /\ db sys' = db sys /\ alerts sys' = alerts sys
    /\ genCalls sys' = genCalls sys /\ writeAttempts sys' = writeAttempts sys
    /\ forward_loop w c message l batch sys
       = (sys', if forallb (valid_recipient w) l
                then Done (batch ++ batch_of w c message
                                      (fresh_id (nextId sys) (db sys)) l)%list
                else Thrown e).
Proof.
  revert batch sys. induction l as [|uid l IH]; intros batch sys.
  - exists sys, InvalidReference. cbn [forward_loop forallb batch_of].
    rewrite app_nil_r. by repeat split.
  - cbn [forward_loop forallb batch_of].
    unfold mbind, Act_bind, newDocRef, checkFieldName. rewrite docRef_run.
    fold (conversationKey (auth_uid w) uid).
    unfold valid_recipient at 1.
    destruct (valid_ref (conversationKey (auth_uid w) uid)); cbn [andb].
    + destruct (valid_field_name uid).
      * match goal with
        | |- context [forward_loop w c message l ?b ?s] =>
            destruct (IH b s) as (sys' & e & Hc & Hd & Ha & Hg & Hw & Hrun)
        end.
        exists sys', e. rewrite Hrun. cbn [nextId db] in *.
        repeat split; try done.
        f_equal. destruct (forallb _ l); [|reflexivity].
        f_equal. unfold recipient_writes.
        rewrite fresh_id_succ. rewrite <- !app_assoc. reflexivity.
      * exists {| chat := chat sys; db := db sys; alerts := alerts sys;
                genCalls := genCalls sys; writeAttempts := writeAttempts sys;
                nextId := S (fresh_id (nextId sys) (db sys)) |}, InvalidData.
        by repeat split.
    + exists {| chat := chat sys; db := db sys; alerts := alerts sys;
                genCalls := genCalls sys; writeAttempts := writeAttempts sys;
                nextId := S (fresh_id (nextId sys) (db sys)) |}, InvalidReference.
      by repeat split.
Qed.

Lemma batch_of_nil w c message id l : batch_of w c message id l = [] -> l = [].
Proof. by destruct l. Qed.

(** What decides the run of [handleForwardMessage]. *)
Lemma handleForwardMessage_outcome w message l sys :
  snd (handleForwardMessage w message l sys) = Done tt
  /\ if forward_commits w sys l
     then alerts (fst (handleForwardMessage w message l sys)) = alerts sys
          /\ db (fst (handleForwardMessage w message l sys))
             = match l with
               | [] => db sys
               | _ :: _ =>
                   apply_batch (db sys)
                     (batch_of w (chat sys) message
                        (fresh_id (nextId sys) (db sys)) l)
               end
     else db (fst (handleForwardMessage w message l sys)) = db sys
          /\ exists e, alerts (fst (handleForwardMessage w message l sys))
                       = (alerts sys ++ [AlertForwardFailed e])%list.
Proof.
  unfold handleForwardMessage, forward_commits, try_catch, mbind, Act_bind.
  destruct (forward_loop_run w (chat sys) message l [] sys)
    as (sys' & e & Hc & Hd & Ha & Hg & Hw & ->).
  destruct (forallb (valid_recipient w) l); cbn [andb app].
  - destruct l as [|uid l]; cbn [batch_of commit].
    + cbn. by rewrite Ha, Hd.
    + unfold recipient_writes. cbn [app commit]. unfold request_write.
      rewrite Hw. destruct (store_accepts w (writeAttempts sys)); cbn.
      * by rewrite Ha, Hd.
      * rewrite Ha, Hd. eauto.
  - cbn. rewrite Ha, Hd. eauto.
Qed.

(** The store after a batch. *)
Lemma foldl_apply_write_messages now batch st :
  messagesCol (foldl (apply_write now) st batch)
  = (messagesCol st ++ batch_messages now batch)%list.
Proof.
  revert st. induction batch as [|[id d|k p] batch IH]; intros st;
    cbn [foldl batch_messages].
  - by rewrite app_nil_r.
  - rewrite IH. cbn [apply_write insert_doc messagesCol].
    by rewrite <- app_assoc.
  - by rewrite IH.
Qed.

Lemma foldl_apply_write_convo now batch st k :
  conversationsCol (foldl (apply_write now) st batch) !! k
  = foldl (fun d p => Some (merge_convo now d p))
      (conversationsCol st !! k) (patches_for k batch).
Proof.
  revert st. induction batch as [|[id d|k' p] batch IH]; intros st;
    cbn [foldl patches_for].
  - reflexivity.
  - rewrite IH. reflexivity.
  - rewrite IH. cbn [apply_write conversationsCol].
    destruct (decide (k' = k)) as [->|Hne].
    + by rewrite lookup_insert_eq.
    + by rewrite lookup_insert_ne.
Qed.

Lemma batch_messages_batch_of w c message now id l :
  batch_messages now (batch_of w c message id l)
  = forwarded_docs w c message now id l.
Proof.
  revert id. induction l as [|uid l IH]; intros id; [reflexivity|].
  cbn [batch_of recipient_writes app batch_messages forwarded_docs].
  by rewrite IH.
Qed.

Lemma forwarded_docs_length w c message now id l :
  length (forwarded_docs w c message now id l) = length l.
Proof.
  revert id. induction l as [|uid l IH]; intros id; [reflexivity|].
  cbn [forwarded_docs length]. by rewrite IH.
Qed.

Lemma patches_for_batch_of w c message id l k :
  patches_for k (batch_of w c message id l)
  = map (fun uid => convoData (participants_of (auth_uid w) uid) message uid)
      (List.filter
         (fun uid => bool_decide (convo_path (conversationKey (auth_uid w) uid) = k))
         l).
Proof.
  revert id. induction l as [|uid l IH]; intros id; [reflexivity|].
  cbn [batch_of recipient_writes app patches_for List.filter].
  rewrite IH. destruct (decide (_ = k)) as [E|E].
  - by rewrite (bool_decide_eq_true_2 _ E).
  - by rewrite (bool_decide_eq_false_2 _ E).
Qed.

(** Merging the same patch again changes nothing. *)
Lemma merge_convo_idemp now old p :
  merge_convo now (Some (merge_convo now old p)) p = merge_convo now old p.
Proof.
  unfold merge_convo. cbn [from_option cv_unreadCount cv_extra].
  f_equal. by rewrite (assoc_L (∪)), (idemp_L (∪)).
Qed.

Lemma foldl_merge_same now old p n :
  foldl (fun d q => Some (merge_convo now d q)) (Some (merge_convo now old p))
    (replicate n p)
  = Some (merge_convo now old p).
Proof.
  induction n as [|n IH]; [reflexivity|].
  cbn [replicate foldl]. by rewrite merge_convo_idemp.
Qed.

Lemma foldl_merge_is_Some now (d : option ConvoDoc) p ps :
  is_Some (foldl (fun d q => Some (merge_convo now d q)) d (p :: ps)).
Proof.
  cbn [foldl]. generalize (merge_convo now d p). clear d p.
  induction ps as [|q ps IH]; intros d; cbn [foldl]; [eauto | apply IH].
Qed.

Lemma map_replicate {A B : Type} (f : A -> B) (n : nat) (x : A) :
  map f (replicate n x) = replicate n (f x).
Proof. induction n as [|n IH]; [reflexivity|]. cbn. by rewrite IH. Qed.

Lemma filter_all_same {A : Type} (P : A -> bool) (x : A) (l : list A) :
  (forall y, y ∈ l -> P y = true -> y = x) ->
  exists n, List.filter P l = replicate n x.
Proof.
  induction l as [|y l IH]; intros H; [by exists 0|].
  destruct IH as [n Hn].
  { intros z Hz. apply H. by right. }
  cbn [List.filter]. destruct (P y) eqn:Hy.
  - exists (S n). rewrite Hn. rewrite (H y); [done|by left|done].
  - by exists n.
Qed.

(** The conversation document after the patches of the recipients [us],
    merged in order into [d0]. *)
Lemma foldl_merge_recipients now me message (us : list string)
  (d0 : option ConvoDoc) :
  let g := fun uid => convoData (participants_of me uid) message uid in
  let r := foldl (fun d p => Some (merge_convo now d p)) d0 (map g us) in
  (forall u, u ∈ us -> unread_of r !! u = Some 1%Z)
  /\ (forall u, u ∉ us -> unread_of r !! u = unread_of d0 !! u)
  /\ extra_of r = extra_of d0
  /\ (us <> [] ->
      exists d u, r = Some d /\ u ∈ us
        /\ cv_participants d = Some (participants_of me u)
        /\ cv_lastMessage d = Some (cp_lastMessage (g u))
        /\ cv_lastMessageTimestamp d = Some now).
Proof.
  intros g r. subst r. induction us as [|u us IH] using rev_ind.
  - cbn [map foldl]. split; [intros u Hu; by apply elem_of_nil in Hu|].
    repeat split; done.
  - rewrite map_app, foldl_app. cbn [map foldl].
    destruct IH as (H1 & H2 & H3 & _).
    set (prev := foldl _ d0 (map g us)) in *.
    split; [|split; [|split]].
    + intros u' Hu'. unfold unread_of, g, convoData.
      cbn [from_option merge_convo cv_unreadCount cp_unreadCount].
      destruct (decide (u' = u)) as [->|Hne].
      * apply lookup_union_Some_l, lookup_singleton_eq.
      * rewrite lookup_union_r by (by apply lookup_singleton_ne).
        apply H1. apply elem_of_app in Hu' as [Hu'|Hu']; [done|].
        apply list_elem_of_singleton in Hu'. done.
    + intros u' Hu'. unfold unread_of at 1. unfold g, convoData.
      cbn [from_option merge_convo cv_unreadCount cp_unreadCount].
      rewrite lookup_union_r.
      * apply H2. intros Hin. apply Hu', elem_of_app. by left.
      * apply lookup_singleton_ne. intros ->. apply Hu', elem_of_app.
        right. by apply list_elem_of_singleton.
    + exact H3.
    + intros _. exists (merge_convo now prev (g u)), u.
      split; [reflexivity|].
      split; [apply elem_of_app; right; by apply list_elem_of_singleton|].
      by repeat split.
Qed.

(** C8: a forward ends without raising.  When every recipient's
    references and field name are accepted and the store accepts the
    batch, the store gains one message document for each element of the
    list of recipients, in its order and with its repetitions, and the
    conversation document of every recipient holds the metadata of the
    forward: [lastMessage], the server's time, [unreadCount] 1 under the
    recipient's uid and the sorted pair of a recipient of the document;
    nothing is notified.  Otherwise the store is as it was, for every
    recipient, and the failure is notified once.  One recipient with an
    invalid write, or a refused batch, is enough for that.  A forward to
    no recipient commits and changes nothing. *)
Theorem forward_all_or_nothing (w : World) (sys : Sys) (message : MessageView)
  (l : list string) :
  snd (handleForwardMessage w message l sys) = Done tt
  /\ (forward_commits w sys l = true ->
        alerts (fst (handleForwardMessage w message l sys)) = alerts sys
        /\ messagesCol (db (fst (handleForwardMessage w message l sys)))
           = (messagesCol (db sys)
              ++ forwarded_docs w (chat sys) message (serverClock (db sys))
                   (fresh_id (nextId sys) (db sys)) l)%list
        /\ length (messagesCol (db (fst (handleForwardMessage w message l sys))))
           = length (messagesCol (db sys)) + length l
        /\ forall uid, uid ∈ l ->
             exists d : ConvoDoc,
               conversationsCol (db (fst (handleForwardMessage w message l sys)))
               !! convo_path (conversationKey (auth_uid w) uid) = Some d
               /\ cv_lastMessage d
                  = Some (if truthy (m_text (mv_doc message))
                          then LastText (m_text (mv_doc message))
                          else match m_fileData (mv_doc message) with
                               | Some fd => LastAttachment (fd_name fd)
                               | None => LastText "File"
                               end)
               /\ cv_lastMessageTimestamp d = Some (serverClock (db sys))
               /\ cv_unreadCount d !! uid = Some 1%Z
               /\ exists u, u ∈ l
                    /\ convo_path (conversationKey (auth_uid w) u)
                       = convo_path (conversationKey (auth_uid w) uid)
                    /\ cv_participants d = Some (js_sort [auth_uid w; u]))
  /\ (forward_commits w sys l = false ->
        db (fst (handleForwardMessage w message l sys)) = db sys
        /\ exists e, alerts (fst (handleForwardMessage w message l sys))
                     = (alerts sys ++ [AlertForwardFailed e])%list)
  /\ ((exists uid, uid ∈ l /\ valid_recipient w uid = false) ->
        forward_commits w sys l = false)
  /\ (l <> [] -> store_accepts w (writeAttempts sys) = false ->
        forward_commits w sys l = false)
  /\ (l = [] ->
        forward_commits w sys l = true
        /\ db (fst (handleForwardMessage w message l sys)) = db sys).
Proof.
  destruct (handleForwardMessage_outcome w message l sys) as [Hdone Hout].
  split; [exact Hdone|].
  assert (Hmsgs : forward_commits w sys l = true ->
            messagesCol (db (fst (handleForwardMessage w message l sys)))
            = (messagesCol (db sys)
               ++ forwarded_docs w (chat sys) message (serverClock (db sys))
                    (fresh_id (nextId sys) (db sys)) l)%list).
  { intros Hc. rewrite Hc in Hout. destruct Hout as [_ ->].
    destruct l as [|uid l]; [by rewrite app_nil_r|].
    unfold apply_batch. cbn [tick messagesCol].
    by rewrite foldl_apply_write_messages, batch_messages_batch_of. }
  split; [|split; [|split; [|split]]].
  - intros Hc. split; [by rewrite Hc in Hout; destruct Hout|].
    split; [by apply Hmsgs|].
    split.
    { rewrite (Hmsgs Hc), length_app, forwarded_docs_length. done. }
    intros uid Hin. rewrite Hc in Hout. destruct Hout as [_ ->].
    destruct l as [|u0 l]; [by apply elem_of_nil in Hin|].
    unfold apply_batch. cbn [tick conversationsCol].
    rewrite foldl_apply_write_convo, patches_for_batch_of.
    set (k := convo_path (conversationKey (auth_uid w) uid)).
    set (us := List.filter
                 (fun u => bool_decide
                    (convo_path (conversationKey (auth_uid w) u) = k))
                 (u0 :: l)).
    assert (Hf : uid ∈ us).
    { apply list_elem_of_In, filter_In.
      split; [by apply list_elem_of_In|]. by apply bool_decide_eq_true_2. }
    destruct (foldl_merge_recipients (serverClock (db sys)) (auth_uid w)
                message us (conversationsCol (db sys) !! k))
      as (Hone & _ & _ & Hdoc).
    destruct Hdoc as (d & u & Hd & Hu & Hp & Hl & Ht).
    { intros E. rewrite E in Hf. by apply elem_of_nil in Hf. }
    specialize (Hone uid Hf). rewrite Hd in Hone |- *.
    exists d. split; [reflexivity|]. split; [exact Hl|]. split; [exact Ht|].
    split; [exact Hone|].
    apply list_elem_of_In, filter_In in Hu as [Hu Hk].
    apply bool_decide_eq_true_1 in Hk.
    exists u. split; [by apply list_elem_of_In|]. split; [exact Hk|exact Hp].
  - intros Hc. by rewrite Hc in Hout.
  - intros (uid & Hin & Hbad). unfold forward_commits.
    assert (forallb (valid_recipient w) l = false) as ->; [|reflexivity].
    apply not_true_is_false. intros Hall.
    rewrite forallb_forall in Hall. apply list_elem_of_In in Hin.
    rewrite (Hall uid Hin) in Hbad. discriminate.
  - intros Hne Hw. unfold forward_commits.
    destruct l; [done|]. rewrite Hw. apply andb_false_r.
  - intros ->. split; [reflexivity|]. by destruct Hout.
Qed.

(** The forward of three recipients whose second has a malformed id:
    nothing is written for any of them. *)
Example forward_three_second_invalid :
  let message := {| mv_id := 0; mv_doc := aiMessage me_world "hello";
                    mv_isAI := true |} in
  let sys := fst (handleForwardMessage me_world message ["u1"; "x/y"; "u3"]
                    (initial_sys no_store)) in
  db sys = no_store /\ alerts sys = [AlertForwardFailed InvalidReference].
Proof. vm_compute. split; reflexivity. Qed.

(** A recipient whose uid is no field name, the empty string or a name
    between double underscores: the conversation data is refused and
    nothing is written for any recipient. *)
Example forward_invalid_field_name :
  let message := {| mv_id := 0; mv_doc := aiMessage me_world "hello";
                    mv_isAI := true |} in
  let sys1 := fst (handleForwardMessage me_world message
                     ["u1"; EmptyString; "u3"] (initial_sys no_store)) in
  let sys2 := fst (handleForwardMessage me_world message
                     ["u1"; "__x__"] (initial_sys no_store)) in
  db sys1 = no_store /\ alerts sys1 = [AlertForwardFailed InvalidData]
  /\ db sys2 = no_store /\ alerts sys2 = [AlertForwardFailed InvalidData]
  /\ forward_commits me_world (initial_sys no_store) ["u1"; EmptyString; "u3"]
     = false.
Proof. vm_compute. repeat split; reflexivity. Qed.

(** A recipient named twice gets two messages. *)
Example forward_duplicate_recipient :
  let message := {| mv_id := 0; mv_doc := aiMessage me_world "hello";
                    mv_isAI := true |} in
  let sys := fst (handleForwardMessage me_world message ["u1"; "u1"]
                    (initial_sys no_store)) in
  map (fun d => (fst d, m_receiverId (snd d))) (messagesCol (db sys))
  = [(0, Some "u1"); (1, Some "u1")]
  /\ alerts sys = [].
Proof. vm_compute. split; reflexivity. Qed.

(** C9: after a forward that commits, the conversation document of a
    recipient [uid] (no other recipient of the call sharing it) holds the
    sorted pair as [participants], the message's text, or the paperclip
    and the file's name when the text is empty and a file is attached, as
    [lastMessage], the server's time as [lastMessageTimestamp], and
    [unreadCount[uid] = 1]; the unread counts of every other key and the
    document's other fields are what they were. *)
Theorem forward_upserts_metadata (w : World) (sys : Sys) (message : MessageView)
  (l : list string) (uid : string) :
  forward_commits w sys l = true ->
  uid ∈ l ->
  (forall u, u ∈ l ->
     convo_path (conversationKey (auth_uid w) u)
     = convo_path (conversationKey (auth_uid w) uid) -> u = uid) ->
  exists d : ConvoDoc,
    conversationsCol (db (fst (handleForwardMessage w message l sys)))
    !! convo_path (conversationKey (auth_uid w) uid) = Some d
    /\ cv_participants d = Some (js_sort [auth_uid w; uid])
    /\ cv_lastMessage d
       = Some (if truthy (m_text (mv_doc message))
               then LastText (m_text (mv_doc message))
               else match m_fileData (mv_doc message) with
                    | Some fd => LastAttachment (fd_name fd)
                    | None => LastText "File"
                    end)
    /\ cv_lastMessageTimestamp d = Some (serverClock (db sys))
    /\ cv_unreadCount d !! uid = Some 1%Z
    /\ (forall u', u' ≠ uid ->
          cv_unreadCount d !! u'
          = unread_of (conversationsCol (db sys)
                       !! convo_path (conversationKey (auth_uid w) uid)) !! u')
    /\ cv_extra d
       = extra_of (conversationsCol (db sys)
                   !! convo_path (conversationKey (auth_uid w) uid)).
Proof.
  intros Hc Hin Hsame.
  destruct (handleForwardMessage_outcome w message l sys) as [_ Hout].
  rewrite Hc in Hout. destruct Hout as [_ Hdb].
  set (k := convo_path (conversationKey (auth_uid w) uid)) in *.
  set (old := conversationsCol (db sys) !! k).
  set (p := convoData (participants_of (auth_uid w) uid) message uid).
  exists (merge_convo (serverClock (db sys)) old p).
  split.
  - rewrite Hdb. destruct l as [|u0 l]; [by apply elem_of_nil in Hin|].
    unfold apply_batch. cbn [tick conversationsCol].
    rewrite foldl_apply_write_convo, patches_for_batch_of.
    destruct (filter_all_same
                (fun u => bool_decide
                   (convo_path (conversationKey (auth_uid w) u) = k))
                uid (u0 :: l)) as [n Hn].
    { intros y Hy HP. apply bool_decide_eq_true_1 in HP. by apply Hsame. }
    assert (Hf : In uid
              (List.filter
                 (fun u => bool_decide
                    (convo_path (conversationKey (auth_uid w) u) = k))
                 (u0 :: l))).
    { apply filter_In. split; [by apply list_elem_of_In|].
      by apply bool_decide_eq_true_2. }
    rewrite Hn in Hf |- *.
    destruct n as [|n]; [destruct Hf|].
    rewrite map_replicate. cbn [replicate foldl].
    apply foldl_merge_same.
  - unfold merge_convo, p, convoData.
    cbn [cv_participants cv_lastMessage cv_lastMessageTimestamp
         cv_unreadCount cv_extra cp_participants cp_lastMessage cp_unreadCount].
    repeat split.
    + apply lookup_union_Some_l, lookup_singleton_eq.
    + intros u' Hne. apply lookup_union_r. by apply lookup_singleton_ne.
Qed.

(** A conversation with unread counts of both participants and a field
    of its own; [me] forwards to [bob]. *)
Lemma forward_upserts_metadata_witness :
  let st := {| messagesCol := []; aiMessagesCol := [];
               conversationsCol :=
                 {[ "bob_me" :=
                      {| cv_participants := Some ["bob"; "me"];
                         cv_lastMessage := Some (LastText "old");
                         cv_lastMessageTimestamp := Some 0;
                         cv_unreadCount := {[ "me" := 4%Z; "bob" := 7%Z ]};
                         cv_extra := {[ "muted" := "true" ]} |} ]};
               serverClock := 5 |} in
  let message := {| mv_id := 0; mv_doc := aiMessage me_world "hello";
                    mv_isAI := true |} in
  exists d : ConvoDoc,
    conversationsCol
      (db (fst (handleForwardMessage me_world message ["bob"] (initial_sys st))))
    !! "bob_me" = Some d
    /\ cv_unreadCount d !! "bob" = Some 1%Z
    /\ cv_unreadCount d !! "me" = Some 4%Z
    /\ cv_extra d !! "muted" = Some "true"
    /\ cv_lastMessage d = Some (LastText "hello").
Proof.
  cbv zeta.
  destruct (forward_upserts_metadata me_world
              (initial_sys
                 {| messagesCol := []; aiMessagesCol := [];
                    conversationsCol :=
                      {[ "bob_me" :=
                           {| cv_participants := Some ["bob"; "me"];
                              cv_lastMessage := Some (LastText "old");
                              cv_lastMessageTimestamp := Some 0;
                              cv_unreadCount := {[ "me" := 4%Z; "bob" := 7%Z ]};
                              cv_extra := {[ "muted" := "true" ]} |} ]};
                    serverClock := 5 |})
              {| mv_id := 0; mv_doc := aiMessage me_world "hello";
                 mv_isAI := true |}
              ["bob"] "bob")
    as (d & Hd & _ & Hlast & _ & Hbob & Hothers & Hextra).
  - vm_compute. reflexivity.
  - apply list_elem_of_In. left. reflexivity.
  - intros u Hu _. apply list_elem_of_In in Hu.
    destruct Hu as [<-|[]]. reflexivity.
  - exists d. split; [exact Hd|]. split; [exact Hbob|].
    split; [rewrite Hothers by discriminate; vm_compute; reflexivity|].
    split; [rewrite Hextra; vm_compute; reflexivity|].
    rewrite Hlast. vm_compute. reflexivity.
Defined.

(** ** Further properties *)

(** *** The listeners and the selection *)

Lemma messages_query_ext w c c' :
  selectedUser c' = selectedUser c -> selectedGroup c' = selectedGroup c ->
  selectedAI c' = selectedAI c -> messages_query w c' = messages_query w c.
Proof. unfold messages_query. by intros -> -> ->. Qed.

Lemma listened_uid_ext c c' :
  selectedUser c' = selectedUser c -> listened_uid c' = listened_uid c.
Proof. unfold listened_uid. by intros ->. Qed.

Lemma messages_query_None w c :
  messages_query w c = None <-> selected_count c = 0.
Proof.
  unfold messages_query, selected_count.
  destruct (selectedUser c), (selectedGroup c), (selectedAI c); cbn;
    split; intros H; try done; lia.
Qed.

Lemma messagesListener_messages_effect w s :
  messagesListener (messages_effect w s)
  = match messages_query w s with
    | Some q => Some q
    | None => messagesListener s
    end.
Proof. unfold messages_effect. by destruct (messages_query w s). Qed.

Lemma messagesListener_status_effect s :
  messagesListener (status_effect s) = messagesListener s.
Proof. unfold status_effect. by destruct (listened_uid s). Qed.

Lemma messagesListener_typing_effect s :
  messagesListener (typing_effect s) = messagesListener s.
Proof. unfold typing_effect. by destruct (listened_uid s). Qed.

Lemma run_effects_messagesListener w prev s :
  messagesListener (run_effects w prev s)
  = if bool_decide ((selectedUser prev, selectedGroup prev, selectedAI prev)
                    = (selectedUser s, selectedGroup s, selectedAI s))
    then messagesListener s
    else messages_query w s.
Proof.
  unfold run_effects.
  destruct (bool_decide ((selectedUser prev, _, _) = _));
    destruct (bool_decide (selectedUser prev = _)); cbn [negb];
    rewrite ?messagesListener_typing_effect, ?messagesListener_status_effect,
      ?messagesListener_messages_effect; try reflexivity.
  - change (messages_query w (messages_cleanup s)) with (messages_query w s).
    by destruct (messages_query w s).
  - change (messages_query w (typing_cleanup (status_cleanup (messages_cleanup s))))
      with (messages_query w s).
    by destruct (messages_query w s).
Qed.

Lemma run_effects_statusListener w prev s :
  statusListener (run_effects w prev s)
  = if bool_decide (selectedUser prev = selectedUser s)
    then statusListener s
    else listened_uid s.
Proof.
  unfold run_effects.
  destruct (bool_decide ((selectedUser prev, _, _) = _));
    destruct (bool_decide (selectedUser prev = _)); cbn [negb];
    unfold typing_effect, status_effect, messages_effect, typing_cleanup,
      status_cleanup, messages_cleanup.
  - reflexivity.
  - change (listened_uid (setTypingListener None (setStatusListener None s)))
      with (listened_uid s).
    destruct (listened_uid s) eqn:E; cbn.
    + change (listened_uid (setStatusListener (Some s0)
                (setTypingListener None (setStatusListener None s))))
        with (listened_uid s).
      by rewrite E.
    + change (listened_uid (setTypingListener None (setStatusListener None s)))
        with (listened_uid s).
      by rewrite E.
  - by destruct (messages_query w _).
  - change (messages_query w
              (setTypingListener None
                 (setStatusListener None (setMessagesListener None s))))
      with (messages_query w s).
    destruct (messages_query w s); cbn;
      match goal with
      | |- context [listened_uid ?x] =>
          change (listened_uid x) with (listened_uid s)
      end;
      destruct (listened_uid s) eqn:E; cbn;
      match goal with
      | |- context [listened_uid ?x] =>
          change (listened_uid x) with (listened_uid s)
      end; by rewrite E.
Qed.

Ltac fold_listened s :=
  repeat match goal with
         | |- context [listened_uid ?x] =>
             lazymatch x with
             | s => fail
             | _ => change (listened_uid x) with (listened_uid s)
             end
         end.

Lemma run_effects_typingListener w prev s :
  typingListener (run_effects w prev s)
  = if bool_decide (selectedUser prev = selectedUser s)
    then typingListener s
    else listened_uid s.
Proof.
  unfold run_effects.
  destruct (bool_decide ((selectedUser prev, _, _) = _));
    destruct (bool_decide (selectedUser prev = _)); cbn [negb];
    unfold typing_effect, status_effect, messages_effect, typing_cleanup,
      status_cleanup, messages_cleanup.
  - reflexivity.
  - fold_listened s. destruct (listened_uid s) eqn:E; cbn;
      fold_listened s; by rewrite E.
  - by destruct (messages_query w _).
  - change (messages_query w
              (setTypingListener None
                 (setStatusListener None (setMessagesListener None s))))
      with (messages_query w s).
    destruct (messages_query w s); cbn; fold_listened s;
      destruct (listened_uid s) eqn:E; cbn; fold_listened s; by rewrite E.
Qed.

Lemma listeners_follow_effects w prev s :
  listeners_follow w prev ->
  messagesListener s = messagesListener prev ->
  statusListener s = statusListener prev ->
  typingListener s = typingListener prev ->
  listeners_follow w (run_effects w prev s).
Proof.
  intros (Hm & Hs & Ht) Em Es Et.
  destruct (run_effects_selection w prev s) as (Su & Sg & Sa).
  unfold listeners_follow.
  rewrite (messages_query_ext w s _ Su Sg Sa), (listened_uid_ext s _ Su).
  rewrite run_effects_messagesListener, run_effects_statusListener,
    run_effects_typingListener.
  split; [|split].
  - case_bool_decide as E; [|reflexivity].
    injection E as Eu Eg Ea.
    rewrite Em, Hm. by apply messages_query_ext.
  - case_bool_decide as E; [|reflexivity].
    rewrite Es, Hs. by apply listened_uid_ext.
  - case_bool_decide as E; [|reflexivity].
    rewrite Et, Ht. by apply listened_uid_ext.
Qed.

Lemma listeners_follow_untouched w c c' :
  untouched c c' -> listeners_follow w c -> listeners_follow w c'.
Proof.
  intros (Su & Sg & Sa & _ & _ & _ & Lm & Ls & Lt & _) (Hm & Hs & Ht).
  unfold listeners_follow.
  rewrite Lm, Ls, Lt, (messages_query_ext w c c' Su Sg Sa),
    (listened_uid_ext c c' Su).
  done.
Qed.

Lemma selected_count_deps prev s :
  (selectedUser prev, selectedGroup prev, selectedAI prev)
  = (selectedUser s, selectedGroup s, selectedAI s) ->
  selected_count s = selected_count prev.
Proof. intros [= Eu Eg Ea]. unfold selected_count. by rewrite Eu, Eg, Ea. Qed.

(** A handler that leaves the listeners and [messages] alone, then the
    effects. *)
Lemma view_invariant_render w (h : ChatState -> ChatState) c :
  view_invariant w c ->
  messagesListener (h c) = messagesListener c ->
  statusListener (h c) = statusListener c ->
  typingListener (h c) = typingListener c ->
  messages (h c) = messages c ->
  view_invariant w (run_effects w c (h c)).
Proof.
  intros [Hl Hm] Em Es Et Emsg. split.
  - by apply listeners_follow_effects.
  - rewrite selected_count_effects, run_effects_messages. intros Hc.
    case_bool_decide as E.
    + rewrite Emsg. apply Hm. by rewrite <- (selected_count_deps _ _ E).
    + by rewrite (proj2 (messages_query_None w _) Hc).
Qed.

(** The snapshot callback, then the effects. *)
Lemma view_invariant_snapshot w st c :
  view_invariant w c ->
  view_invariant w (run_effects w c (on_messages_snapshot st c)).
Proof.
  intros [Hl Hm]. unfold on_messages_snapshot.
  destruct (messagesListener c) as [q|] eqn:Eq.
  - split.
    + by apply listeners_follow_effects.
    + rewrite selected_count_effects. intros Hc.
      change (selected_count (setMessages (snapshot_view (run_query st q)) c))
        with (selected_count c) in Hc.
      pose proof (proj2 (messages_query_None w c) Hc) as Hn.
      destruct Hl as [Hq _]. congruence.
  - by apply (view_invariant_render w (fun x => x) c).
Qed.

Lemma view_invariant_untouched w c c' :
  untouched c c' -> view_invariant w c -> view_invariant w c'.
Proof.
  intros Hu [Hl Hm]. split; [by eapply listeners_follow_untouched|].
  rewrite (selected_count_untouched _ _ Hu).
  destruct Hu as (_ & _ & _ & -> & _). exact Hm.
Qed.

Lemma view_invariant_step w e sys :
  view_invariant w (chat sys) -> view_invariant w (chat (step w e sys)).
Proof.
  intros H.
  destruct e as [u|g|page| |data|v|text|f| |message l|ud|gd|ng|mid ai];
    cbn [step render chat].
  - by apply view_invariant_render.
  - by apply view_invariant_render.
  - apply view_invariant_render; try done;
      unfold handleNavigate; by destruct (String.eqb page "ai").
  - by apply view_invariant_snapshot.
  - apply view_invariant_render; try done;
      unfold on_status_value; destruct (statusListener (chat sys)) eqn:E;
      unfold_setters; cbn [messagesListener statusListener typingListener messages];
      congruence.
  - apply view_invariant_render; try done;
      unfold on_typing_value; destruct (typingListener (chat sys)) eqn:E;
      unfold_setters; cbn [messagesListener statusListener typingListener messages];
      congruence.
  - by apply view_invariant_render.
  - by apply view_invariant_render.
  - eapply view_invariant_untouched; [apply frames_handleSubmit|done].
  - eapply view_invariant_untouched; [apply frames_handleForwardMessage|done].
  - by apply view_invariant_render.
  - by apply view_invariant_render.
  - by apply view_invariant_render.
  - eapply view_invariant_untouched; [apply frames_handleDeleteMessage|done].
Qed.

Lemma view_invariant_reachable w st sys :
  reachable w st sys -> view_invariant w (chat sys).
Proof.
  induction 1 as [|e sys _ IH]; [|by apply view_invariant_step].
  split; [by repeat split|]. reflexivity.
Qed.

(** X1: in every state the page reaches, the three listeners are those
    of the current selection: the messages listener is on the query of
    the selected user, group or assistant and absent when nothing is
    selected; the status and typing listeners are on the selected user's
    uid and absent when no user with a uid is selected. *)
Theorem listeners_follow_selection (w : World) (st : Store) (sys : Sys) :
  reachable w st sys ->
  messagesListener (chat sys) = messages_query w (chat sys)
  /\ statusListener (chat sys) = listened_uid (chat sys)
  /\ typingListener (chat sys) = listened_uid (chat sys)
  /\ (selected_count (chat sys) = 0 -> messagesListener (chat sys) = None)
  /\ (selectedUser (chat sys) = None ->
        statusListener (chat sys) = None /\ typingListener (chat sys) = None).
Proof.
  intros Hr. destruct (view_invariant_reachable w st sys Hr) as [(Hm & Hs & Ht) _].
  split; [exact Hm|]. split; [exact Hs|]. split; [exact Ht|]. split.
  - intros Hc. rewrite Hm. by apply (proj2 (messages_query_None w _)).
  - intros Hu. rewrite Hs, Ht. unfold listened_uid. by rewrite Hu.
Qed.

Lemma listeners_follow_selection_witness :
  messagesListener
    (chat (run me_world [OnUserSelect (Some alice); OnUserSelect (Some bob)]
             (initial_sys no_store)))
  = Some (peer_query "me" "bob").
Proof.
  destruct (listeners_follow_selection me_world no_store
              (run me_world [OnUserSelect (Some alice); OnUserSelect (Some bob)]
                 (initial_sys no_store))) as (Hm & _).
  - apply reachable_step, reachable_step, reachable_initial.
  - rewrite Hm. vm_compute. reflexivity.
Defined.

(** X2: in every state the page reaches, [messages] is empty whenever no
    target is selected. *)
Theorem no_target_no_messages (w : World) (st : Store) (sys : Sys) :
  reachable w st sys ->
  selected_count (chat sys) = 0 -> messages (chat sys) = [].
Proof.
  intros Hr. by destruct (view_invariant_reachable w st sys Hr) as [_ Hm].
Qed.

Lemma no_target_no_messages_witness :
  messages
    (chat (run me_world
             [OnUserSelect (Some alice); MessagesSnapshot; OnUserSelect None;
              MessagesSnapshot]
             (initial_sys alice_wrote))) = [].
Proof.
  apply (no_target_no_messages me_world alice_wrote).
  - apply reachable_step, reachable_step, reachable_step, reachable_step,
      reachable_initial.
  - vm_compute. reflexivity.
Defined.

(** *** What a snapshot delivers *)

Lemma doc_insert_perm x l : doc_insert x l ≡ₚ x :: l.
Proof.
  induction l as [|y l IH]; cbn [doc_insert]; [done|].
  destruct (doc_le x y); [done|].
  rewrite IH. apply Permutation_swap.
Qed.

Lemma order_by_timestamp_perm d l : order_by_timestamp d l ≡ₚ l.
Proof.
  assert (H : foldr doc_insert [] l ≡ₚ l).
  { induction l as [|x l IH]; [done|].
    cbn [foldr]. by rewrite doc_insert_perm, IH. }
  destruct d; cbn [order_by_timestamp]; [done|].
  by rewrite <- Permutation_rev.
Qed.

Lemma run_query_elem st q d :
  d ∈ run_query st q ->
  d ∈ collection_docs st (q_collection q)
  /\ field_of (q_where_field q) (snd d) = Some (q_where_value q).
Proof.
  unfold run_query. intros H.
  apply (subseteq_take (q_limit q)) in H.
  rewrite order_by_timestamp_perm in H.
  apply list_elem_of_In, filter_In in H. destruct H as [Hin Hm].
  split; [by apply list_elem_of_In|].
  unfold matches in Hm. by apply bool_decide_eq_true_1 in Hm.
Qed.

Lemma messages_query_shape w c q :
  messages_query w c = Some q -> q_order q = Asc /\ q_limit q = 50.
Proof.
  unfold messages_query.
  destruct (selectedUser c), (selectedGroup c), (selectedAI c);
    intros [= <-]; done.
Qed.

Lemma doc_le_timestamp x y :
  doc_le x y = true -> m_timestamp (snd x) <= m_timestamp (snd y).
Proof.
  unfold doc_le. intros H. apply orb_true_iff in H. destruct H as [H|H].
  - apply Nat.ltb_lt in H. lia.
  - apply andb_true_iff in H. destruct H as [H _].
    apply Nat.eqb_eq in H. lia.
Qed.

Lemma snapshot_view_timestamps l :
  Sorted (fun a b => doc_le a b = true) l ->
  Sorted le (map (fun m => m_timestamp (mv_doc m)) (snapshot_view l)).
Proof.
  induction 1 as [|x l Hs IH Hd]; cbn [snapshot_view map]; [constructor|].
  constructor; [exact IH|].
  destruct Hd as [|y l Hxy]; cbn [snapshot_view map]; constructor.
  cbn [mv_doc]. by apply doc_le_timestamp.
Qed.

Lemma snapshot_view_elem m l :
  m ∈ snapshot_view l ->
  (mv_id m, mv_doc m) ∈ l /\ mv_isAI m = default false (m_isAI (mv_doc m)).
Proof.
  unfold snapshot_view. intros H.
  apply list_elem_of_In, in_map_iff in H. destruct H as ([id d] & <- & Hin).
  cbn [mv_id mv_doc mv_isAI fst snd]. split; [by apply list_elem_of_In|done].
Qed.

Lemma snapshot_view_length l : length (snapshot_view l) = length l.
Proof. unfold snapshot_view. apply length_map. Qed.

Lemma step_snapshot_messages w sys :
  messages (chat (step w MessagesSnapshot sys))
  = match messagesListener (chat sys) with
    | Some q => snapshot_view (run_query (db sys) q)
    | None => messages (chat sys)
    end.
Proof.
  cbn [step render chat]. rewrite run_effects_messages.
  unfold on_messages_snapshot.
  destruct (messagesListener (chat sys)) as [q|];
    (rewrite bool_decide_eq_true_2; reflexivity).
Qed.

(** X3: what a snapshot of the messages listener leaves in [messages],
    in any state the page reaches: at most fifty messages, in ascending
    order of timestamp, each one a document of the store that carries the
    routing tag of the current target, with [isAI] read from the document
    and [false] when the document has none.  What [messages] held before
    plays no part. *)
Theorem snapshot_shows_current_target (w : World) (st : Store) (sys : Sys) :
  reachable w st sys ->
  length (messages (chat (step w MessagesSnapshot sys))) <= 50
  /\ Sorted le (map (fun m => m_timestamp (mv_doc m))
                  (messages (chat (step w MessagesSnapshot sys))))
  /\ (forall m, m ∈ messages (chat (step w MessagesSnapshot sys)) ->
        exists q, messages_query w (chat sys) = Some q
                  /\ (mv_id m, mv_doc m) ∈ collection_docs (db sys) (q_collection q)
                  /\ field_of (q_where_field q) (mv_doc m) = Some (q_where_value q)
                  /\ mv_isAI m = default false (m_isAI (mv_doc m)))
  /\ (forall q, messages_query w (chat sys) = Some q ->
        messages (chat (step w MessagesSnapshot sys))
        = snapshot_view (run_query (db sys) q)).
Proof.
  intros Hr.
  destruct (view_invariant_reachable w st sys Hr) as [(Hl & _ & _) Hempty].
  rewrite step_snapshot_messages, Hl.
  destruct (messages_query w (chat sys)) as [q|] eqn:Hq.
  - destruct (messages_query_shape w _ q Hq) as [Ho Hlim].
    split; [|split; [|split]].
    + rewrite snapshot_view_length, <- Hlim. apply run_query_length.
    + apply snapshot_view_timestamps. by apply run_query_sorted.
    + intros m Hm. exists q. split; [reflexivity|].
      apply snapshot_view_elem in Hm. destruct Hm as [Hin HAI].
      apply run_query_elem in Hin. destruct Hin as [Hin Hf].
      by repeat split.
    + by intros q' [= <-].
  - rewrite Hempty by (by apply (proj1 (messages_query_None w _))).
    split; [cbn; lia|]. split; [constructor|]. split.
    + intros m Hm. by apply elem_of_nil in Hm.
    + intros q' [=].
Qed.

Lemma snapshot_shows_current_target_witness :
  map (fun m => m_text (mv_doc m))
    (messages
       (chat (step me_world MessagesSnapshot
                (run me_world [OnUserSelect (Some alice)]
                   (initial_sys alice_wrote))))) = ["hi"].
Proof.
  destruct (snapshot_shows_current_target me_world alice_wrote
              (run me_world [OnUserSelect (Some alice)] (initial_sys alice_wrote)))
    as (_ & _ & _ & Hq).
  - apply reachable_step, reachable_initial.
  - rewrite (Hq (peer_query "me" "alice")); vm_compute; reflexivity.
Defined.

(** *** Users, groups and navigation *)

Lemma run_effects_rest w prev s :
  users (run_effects w prev s) = users s
  /\ groups (run_effects w prev s) = groups s
  /\ currentUserData (run_effects w prev s) = currentUserData s
  /\ newMessage (run_effects w prev s) = newMessage s
  /\ selectedFile (run_effects w prev s) = selectedFile s
  /\ loading (run_effects w prev s) = loading s
  /\ aiLoading (run_effects w prev s) = aiLoading s.
Proof. effects_cases; done. Qed.

(** X4: a snapshot of the users listener replaces [users] by the list
    and sets [currentUserData] to the first record of the list with the
    signed-in uid; when the list has none, [currentUserData] becomes
    undefined whatever it was.  The selection and [messages] stay. *)
Theorem users_snapshot_sets_current_user (w : World) (sys : Sys)
  (usersData : list User) :
  users (chat (step w (UsersSnapshot usersData) sys)) = usersData
  /\ (forall u, currentUserData (chat (step w (UsersSnapshot usersData) sys)) = Some u ->
        u ∈ usersData /\ user_uid u = auth_uid w
        /\ exists before after,
             usersData = (before ++ u :: after)%list
             /\ forall v, v ∈ before -> user_uid v <> auth_uid w)
  /\ (currentUserData (chat (step w (UsersSnapshot usersData) sys)) = None
      <-> forall u, u ∈ usersData -> user_uid u <> auth_uid w)
  /\ selectedUser (chat (step w (UsersSnapshot usersData) sys))
     = selectedUser (chat sys)
  /\ messages (chat (step w (UsersSnapshot usersData) sys)) = messages (chat sys).
Proof.
  cbn [step render chat].
  destruct (run_effects_rest w (chat sys) (on_users_snapshot w usersData (chat sys)))
    as (-> & _ & -> & _).
  destruct (run_effects_selection w (chat sys)
              (on_users_snapshot w usersData (chat sys))) as (-> & _ & _).
  rewrite run_effects_messages, bool_decide_eq_true_2 by reflexivity.
  unfold on_users_snapshot, setCurrentUserData, setUsers.
  cbn [users currentUserData selectedUser messages].
  split; [reflexivity|]. split; [|split; [|done]].
  - intros u Hu.
    induction usersData as [|v l IH]; [discriminate|].
    cbn [List.find] in Hu. destruct (String.eqb (user_uid v) (auth_uid w)) eqn:E.
    + injection Hu as ->. apply String.eqb_eq in E.
      split; [by left|]. split; [exact E|].
      exists [], l. split; [reflexivity|]. intros x Hx. by apply elem_of_nil in Hx.
    + destruct (IH Hu) as (Hin & Huid & before & after & -> & Hb).
      split; [by right|]. split; [exact Huid|].
      exists (v :: before), after. split; [reflexivity|].
      intros x Hx. apply elem_of_cons in Hx. destruct Hx as [->|Hx].
      * by apply String.eqb_neq.
      * by apply Hb.
  - split.
    + intros Hn u Hu Huid.
      apply list_elem_of_In in Hu.
      apply (find_none _ _ Hn) in Hu. rewrite Huid, String.eqb_refl in Hu.
      discriminate.
    + intros Hall.
      destruct (List.find _ usersData) as [u|] eqn:Hf; [|reflexivity].
      apply find_some in Hf. destruct Hf as [Hin E].
      apply String.eqb_eq in E. apply list_elem_of_In in Hin.
      by destruct (Hall u Hin).
Qed.

(** X5: a snapshot of the groups listener leaves in [groups] only groups
    of the snapshot that have the signed-in user among their members, in
    the snapshot's order, and replaces what [groups] held: a group added
    by [onGroupCreate] before the snapshot is there afterwards only if
    the snapshot has it.  [onGroupCreate] itself appends its group
    without a test, also a second time. *)
Theorem groups_snapshot_replaces (w : World) (sys : Sys) (docs : list Group)
  (newGroup : Group) :
  (forall g, g ∈ groups (chat (step w (GroupsSnapshot docs) sys)) ->
     g ∈ docs /\ auth_uid w ∈ group_members g)
  /\ (forall g, g ∈ docs -> auth_uid w ∈ group_members g ->
        g ∈ groups (chat (step w (GroupsSnapshot docs) sys)))
  /\ groups (chat (run w [OnGroupCreate newGroup; GroupsSnapshot docs] sys))
     = groups (chat (step w (GroupsSnapshot docs) sys))
  /\ groups (chat (run w [OnGroupCreate newGroup; OnGroupCreate newGroup] sys))
     = (groups (chat sys) ++ [newGroup; newGroup])%list
  /\ selectedGroup (chat (step w (GroupsSnapshot docs) sys))
     = selectedGroup (chat sys).
Proof.
  cbn [run foldl step render chat].
  repeat match goal with
         | |- context [groups (run_effects w ?p ?s)] =>
             rewrite (proj1 (proj2 (run_effects_rest w p s)))
         end.
  destruct (run_effects_selection w (chat sys)
              (on_groups_snapshot w docs (chat sys))) as (_ & -> & _).
  unfold on_groups_snapshot, onGroupCreate, setGroups. cbn [groups selectedGroup].
  repeat match goal with
         | |- context [groups (run_effects w ?p ?s)] =>
             rewrite (proj1 (proj2 (run_effects_rest w p s)))
         end.
  cbn [groups].
  split; [|split; [|split; [|split]]]; try reflexivity.
  - intros g Hg. apply list_elem_of_In, filter_In in Hg. destruct Hg as [Hin Hm].
    split; [by apply list_elem_of_In | by apply bool_decide_eq_true_1 in Hm].
  - intros g Hin Hm. apply list_elem_of_In, filter_In.
    split; [by apply list_elem_of_In | by apply bool_decide_eq_true_2].
  - by rewrite <- app_assoc.
Qed.

Lemma reachable_selected_count w st sys :
  reachable w st sys -> selected_count (chat sys) <= 1.
Proof.
  induction 1 as [|e sys _ IH]; [cbn; lia|]. by apply step_selected_count.
Qed.

Lemma reachable_assistant_alone w st sys :
  reachable w st sys -> selectedAI (chat sys) = true ->
  selectedUser (chat sys) = None /\ selectedGroup (chat sys) = None.
Proof.
  intros Hr HAI. pose proof (reachable_selected_count w st sys Hr) as Hc.
  unfold selected_count in Hc. rewrite HAI in Hc.
  destruct (selectedUser (chat sys)), (selectedGroup (chat sys));
    cbn in Hc; try lia. done.
Qed.

(** X6: with the assistant as target, navigating to any page but ['ai']
    leaves nothing selected, removes the messages listener and empties
    [messages]; navigating to ['ai'] again changes none of these. *)
Theorem navigate_away_from_assistant (w : World) (st : Store) (sys : Sys)
  (page : string) :
  reachable w st sys ->
  selectedAI (chat sys) = true ->
  page <> "ai" ->
  selected_count (chat (step w (Navigate page) sys)) = 0
  /\ messagesListener (chat (step w (Navigate page) sys)) = None
  /\ messages (chat (step w (Navigate page) sys)) = []
  /\ selectedAI (chat (step w (Navigate "ai") sys)) = true
  /\ messagesListener (chat (step w (Navigate "ai") sys))
     = messagesListener (chat sys)
  /\ messages (chat (step w (Navigate "ai") sys)) = messages (chat sys).
Proof.
  intros Hr HAI Hpage.
  destruct (reachable_assistant_alone w st sys Hr HAI) as [Hu Hg].
  apply String.eqb_neq in Hpage.
  assert (Hq : messages_query w (handleNavigate page (chat sys)) = None).
  { unfold handleNavigate, messages_query. rewrite Hpage.
    change (selectedUser (setSelectedAI false (chat sys)))
      with (selectedUser (chat sys)).
    change (selectedGroup (setSelectedAI false (chat sys)))
      with (selectedGroup (chat sys)).
    by rewrite Hu, Hg. }
  assert (Hdeps : (selectedUser (chat sys), selectedGroup (chat sys),
                   selectedAI (chat sys))
                  <> (selectedUser (handleNavigate page (chat sys)),
                      selectedGroup (handleNavigate page (chat sys)),
                      selectedAI (handleNavigate page (chat sys)))).
  { unfold handleNavigate. rewrite Hpage, HAI. intros [= _ _ E]. }
  assert (Hsame : (selectedUser (chat sys), selectedGroup (chat sys),
                   selectedAI (chat sys))
                  = (selectedUser (handleNavigate "ai" (chat sys)),
                     selectedGroup (handleNavigate "ai" (chat sys)),
                     selectedAI (handleNavigate "ai" (chat sys)))).
  { unfold handleNavigate. cbn [String.eqb Ascii.eqb Bool.eqb].
    unfold_setters. cbn [selectedUser selectedGroup selectedAI].
    by rewrite Hu, Hg, HAI. }
  cbn [step render chat].
  rewrite !selected_count_effects, !run_effects_messagesListener,
    !run_effects_messages.
  rewrite (bool_decide_eq_false_2 _ Hdeps), (bool_decide_eq_true_2 _ Hsame), Hq.
  destruct (run_effects_selection w (chat sys) (handleNavigate "ai" (chat sys)))
    as (_ & _ & ->).
  split; [by apply (proj1 (messages_query_None w _))|].
  repeat split; reflexivity.
Qed.

Lemma navigate_away_from_assistant_witness :
  messages
    (chat (step me_world (Navigate "home")
             (run me_world [Navigate "ai"; MessagesSnapshot]
                (initial_sys (ai_stream 3))))) = [].
Proof.
  apply (navigate_away_from_assistant me_world (ai_stream 3)
           (run me_world [Navigate "ai"; MessagesSnapshot]
              (initial_sys (ai_stream 3))) "home").
  - apply reachable_step, reachable_step, reachable_initial.
  - vm_compute. reflexivity.
  - discriminate.
Defined.

(** *** More on [handleSubmit] *)

Lemma trim_start_all_white s : all_white s = true -> trim_start s = EmptyString.
Proof.
  induction s as [|c s IH]; [reflexivity|].
  cbn [all_white trim_start]. intros H. apply andb_true_iff in H.
  destruct H as [-> H]. by apply IH.
Qed.

Lemma js_trim_all_white s : all_white s = true -> js_trim s = EmptyString.
Proof. intros H. unfold js_trim. by rewrite (trim_start_all_white s H). Qed.

(** X7: a draft whose text is white space only, with no file picked, is
    not sent, and neither is any draft while no target is selected:
    [handleSubmit] returns at once, with the state, the store, the alerts
    and the backend untouched. *)
Theorem blank_draft_sends_nothing (w : World) (sys : Sys) :
  (all_white (newMessage (chat sys)) = true /\ selectedFile (chat sys) = None)
  \/ selected_count (chat sys) = 0 ->
  handleSubmit w sys = (sys, Done tt).
Proof.
  intros H. unfold handleSubmit.
  assert (nothing_to_send (chat sys) = true) as ->; [|reflexivity].
  unfold nothing_to_send. destruct H as [[Hw Hf]|Hc].
  - rewrite (js_trim_all_white _ Hw), Hf.
    rewrite (bool_decide_eq_false_2 (is_Some None)) by (intros [? ?]; discriminate).
    reflexivity.
  - apply orb_true_iff. right.
    unfold selected_count in Hc.
    destruct (selectedUser (chat sys)), (selectedGroup (chat sys)),
      (selectedAI (chat sys)); cbn in Hc; try lia.
    rewrite !(bool_decide_eq_false_2 (is_Some None))
      by (intros [? ?]; discriminate).
    reflexivity.
Qed.

Lemma blank_draft_sends_nothing_witness :
  let sys := run me_world [OnUserSelect (Some alice); SetNewMessage "   "]
               (initial_sys no_store) in
  db (fst (handleSubmit me_world sys)) = no_store.
Proof.
  cbv zeta.
  rewrite (blank_draft_sends_nothing me_world
             (run me_world [OnUserSelect (Some alice); SetNewMessage "   "]
                (initial_sys no_store))).
  - vm_compute. reflexivity.
  - left. split; vm_compute; reflexivity.
Defined.

Ltac store_eval :=
  cbn [db aiMessagesCol messagesCol conversationsCol serverClock tick insert_doc
       alerts genCalls writeAttempts nextId chat fst snd].

Ltac solve_appended :=
  first [ exists []; split; [by rewrite app_nil_r|]
        | eexists [_]; split; [reflexivity|]
        | eexists [_; _]; split; [by rewrite <- app_assoc|] ].

(** X8: [handleSubmit] only appends to the store: the documents of both
    message collections stay, in their order, and the conversation
    documents are not written at all.  A send to a user or a group adds at
    most one document to [messages] and none to [aiMessages]; a send to
    the assistant adds at most two documents to [aiMessages] and none to
    [messages].  Every added document names the signed-in user as sender
    ([uid]) or as owner of the assistant stream ([userId]). *)
Theorem submit_only_appends (w : World) (sys : Sys) :
  conversationsCol (db (fst (handleSubmit w sys))) = conversationsCol (db sys)
  /\ (exists new,
        messagesCol (db (fst (handleSubmit w sys)))
        = (messagesCol (db sys) ++ new)%list
        /\ length new <= 1
        /\ Forall (fun d => m_uid (snd d) = Some (auth_uid w)) new
        /\ (selectedAI (chat sys) = true -> new = []))
  /\ (exists new,
        aiMessagesCol (db (fst (handleSubmit w sys)))
        = (aiMessagesCol (db sys) ++ new)%list
        /\ length new <= 2
        /\ Forall (fun d => m_userId (snd d) = Some (auth_uid w)) new
        /\ (selectedAI (chat sys) = false -> new = [])).
Proof.
  unfold handleSubmit.
  destruct sys as [c st al gc wa ni]. cbn [chat].
  destruct (nothing_to_send c).
  { store_eval. split; [reflexivity|].
    split; exists []; rewrite app_nil_r; repeat split; auto. }
  destruct (selectedAI c) eqn:HAI, (selectedFile c) as [f|] eqn:Hf;
    act_eval; rewrite ?HAI, ?Hf; run_submit; store_eval;
    (split; [reflexivity|]);
    (split; solve_appended;
     (split; [cbn [length]; lia|]);
     (split; [repeat constructor|]); done).
Qed.

(** The first write of a send: the user's message, under a fresh id and
    the server's time. *)
Lemma submit_first_write (w : World) (sys : Sys) :
  nothing_to_send (chat sys) = false ->
  upload_fails w (chat sys) = false ->
  store_accepts w (writeAttempts sys) = true ->
  exists (fileData : option FileData) (rest : list (nat * MessageDoc)),
    collection_docs (db (fst (handleSubmit w sys)))
      (if selectedAI (chat sys) then ColAiMessages else ColMessages)
    = (collection_docs (db sys)
         (if selectedAI (chat sys) then ColAiMessages else ColMessages)
       ++ (fresh_id (nextId sys) (db sys),
           stamp (serverClock (db sys))
             (if selectedAI (chat sys)
              then userMessage w (chat sys) fileData
              else messageData w (chat sys) fileData)) :: rest)%list
    /\ Forall (fun d => fresh_id (nextId sys) (db sys) < fst d) rest.
Proof.
  intros Hguard Hup Hw.
  unfold handleSubmit. rewrite Hguard. unfold upload_fails in Hup.
  destruct sys as [c st al gc wa ni].
  cbn [chat writeAttempts db nextId] in *.
  destruct (selectedAI c) eqn:HAI, (selectedFile c) as [f|] eqn:Hf;
    act_eval; rewrite ?HAI, ?Hf; act_eval;
    try (destruct (uploadFileToCloudinary w f) as [r|] eqn:Hr; [|discriminate];
         act_eval);
    rewrite Hw; run_submit; eexists _, _;
    (split;
     [cbn [collection_docs]; store_eval; rewrite <- ?app_assoc; reflexivity
     |repeat first [apply Forall_nil_2
                   |apply Forall_cons_2;
                    [cbv beta iota; unfold fresh_id; lia|]]]).
Qed.

(** After the send no other document of the collection has the id of the
    user's message. *)
Lemma submit_id_unique (w : World) (sys : Sys) (d1 d2 : nat * MessageDoc) :
  nothing_to_send (chat sys) = false ->
  upload_fails w (chat sys) = false ->
  store_accepts w (writeAttempts sys) = true ->
  d1 ∈ collection_docs (db (fst (handleSubmit w sys)))
         (if selectedAI (chat sys) then ColAiMessages else ColMessages) ->
  d2 ∈ collection_docs (db (fst (handleSubmit w sys)))
         (if selectedAI (chat sys) then ColAiMessages else ColMessages) ->
  fst d1 = fresh_id (nextId sys) (db sys) ->
  fst d2 = fresh_id (nextId sys) (db sys) ->
  d1 = d2.
Proof.
  intros Hguard Hup Hw H1 H2 E1 E2.
  destruct (submit_first_write w sys Hguard Hup Hw) as (fd & rest & Hdb & Hrest).
  rewrite Hdb in H1, H2.
  assert (Hone : forall d : nat * MessageDoc,
            d ∈ (collection_docs (db sys)
                   (if selectedAI (chat sys) then ColAiMessages else ColMessages)
                 ++ (fresh_id (nextId sys) (db sys),
                     stamp (serverClock (db sys))
                       (if selectedAI (chat sys)
                        then userMessage w (chat sys) fd
                        else messageData w (chat sys) fd)) :: rest)%list ->
            fst d = fresh_id (nextId sys) (db sys) ->
            d = (fresh_id (nextId sys) (db sys),
                 stamp (serverClock (db sys))
                   (if selectedAI (chat sys)
                    then userMessage w (chat sys) fd
                    else messageData w (chat sys) fd))).
  { intros d Hd E. apply elem_of_app in Hd as [Hd|Hd].
    - exfalso. apply (fresh_id_fresh (nextId sys) (db sys) d); [|exact E].
      destruct (selectedAI (chat sys)); [by right|by left].
    - apply elem_of_cons in Hd as [Hd|Hd]; [exact Hd|].
      rewrite Forall_forall in Hrest. specialize (Hrest d Hd). lia. }
  by rewrite (Hone d1 H1 E1), (Hone d2 H2 E2).
Qed.

Lemma guard_target c :
  nothing_to_send c = false -> selectedAI c = false ->
  is_Some (selectedUser c) \/ (selectedUser c = None /\ is_Some (selectedGroup c)).
Proof.
  unfold nothing_to_send. intros Hg HAI. rewrite HAI in Hg.
  apply orb_false_iff in Hg. destruct Hg as [_ Hg].
  destruct (selectedUser c) as [u|]; [left; eauto|].
  destruct (selectedGroup c) as [g|]; [right; eauto|].
  rewrite !(bool_decide_eq_false_2 (is_Some None)) in Hg
    by (intros [? ?]; discriminate).
  discriminate Hg.
Qed.

(** The user's message of a send, in the collection and under the tag
    of the current listener. *)
Lemma submit_matches_listener (w : World) (st : Store) (sys : Sys) :
  reachable w st sys ->
  nothing_to_send (chat sys) = false ->
  upload_fails w (chat sys) = false ->
  store_accepts w (writeAttempts sys) = true ->
  exists (q : Query) (d : MessageDoc),
    messagesListener (chat sys) = Some q
    /\ q_collection q = (if selectedAI (chat sys) then ColAiMessages else ColMessages)
    /\ (fresh_id (nextId sys) (db sys), d)
         ∈ collection_docs (db (fst (handleSubmit w sys))) (q_collection q)
    /\ field_of (q_where_field q) d = Some (q_where_value q)
    /\ m_text d = newMessage (chat sys)
    /\ m_timestamp d = serverClock (db sys)
    /\ routing_tags d = 1
    /\ default false (m_isAI d) = false.
Proof.
  intros Hr Hguard Hup Hw.
  destruct (view_invariant_reachable w st sys Hr) as [(Hl & _ & _) _].
  destruct (submit_first_write w sys Hguard Hup Hw) as (fd & rest & Hdb & _).
  rewrite Hl. unfold messages_query.
  assert (Hin : forall c x (l r : list (nat * MessageDoc)) l',
             collection_docs (db (fst (handleSubmit w sys))) c = (l ++ x :: r)%list ->
             l' = collection_docs (db (fst (handleSubmit w sys))) c -> x ∈ l').
  { intros c x l r l' E ->. rewrite E. apply elem_of_app. right. by left. }
  destruct (selectedAI (chat sys)) eqn:HAI.
  - destruct (reachable_assistant_alone w st sys Hr HAI) as [-> ->].
    eexists _, _. split; [reflexivity|]. split; [reflexivity|].
    split; [eapply Hin; [exact Hdb|reflexivity]|]. by repeat split.
  - destruct (guard_target _ Hguard HAI) as [[u Hu]|[Hu [g Hg]]].
    + rewrite Hu in *. eexists _, _. split; [reflexivity|].
      split; [reflexivity|].
      split; [eapply Hin; [exact Hdb|reflexivity]|].
      unfold messageData, routing_tags. rewrite Hu.
      by repeat split.
    + rewrite Hu, Hg in *. eexists _, _. split; [reflexivity|].
      split; [reflexivity|].
      split; [eapply Hin; [exact Hdb|reflexivity]|].
      unfold messageData, routing_tags. rewrite Hu, Hg.
      by repeat split.
Qed.

(** X9: in any state the page reaches, a send whose upload and first
    write succeed puts the user's message, under a fresh id and the
    server's time, into the collection the current messages listener
    reads and under the routing tag its query asks for: what is sent goes
    to the conversation on screen.  The document has the draft's text and
    exactly one of the tags [conversationId], [groupId] and [userId].
    The id is fresh: no document of the store before the send has it, and
    after the send the user's message is the collection's only document
    under it. *)
Theorem sent_message_matches_listener (w : World) (st : Store) (sys : Sys) :
  reachable w st sys ->
  nothing_to_send (chat sys) = false ->
  upload_fails w (chat sys) = false ->
  store_accepts w (writeAttempts sys) = true ->
  exists (q : Query) (d : MessageDoc),
    messagesListener (chat sys) = Some q
    /\ messagesListener (chat (fst (handleSubmit w sys))) = Some q
    /\ (fresh_id (nextId sys) (db sys), d)
         ∈ collection_docs (db (fst (handleSubmit w sys))) (q_collection q)
    /\ field_of (q_where_field q) d = Some (q_where_value q)
    /\ m_text d = newMessage (chat sys)
    /\ m_timestamp d = serverClock (db sys)
    /\ routing_tags d = 1
    /\ (forall d', d' ∈ messagesCol (db sys) \/ d' ∈ aiMessagesCol (db sys) ->
          fst d' <> fresh_id (nextId sys) (db sys))
    /\ (forall d',
          d' ∈ collection_docs (db (fst (handleSubmit w sys))) (q_collection q) ->
          fst d' = fresh_id (nextId sys) (db sys) ->
          d' = (fresh_id (nextId sys) (db sys), d)).
Proof.
  intros Hr Hguard Hup Hw.
  destruct (submit_matches_listener w st sys Hr Hguard Hup Hw)
    as (q & d & Hq & Hcol & Hin & Hf & Ht & Hts & Htags & _).
  exists q, d. split; [exact Hq|]. split.
  { destruct (frames_handleSubmit w sys) as (_&_&_&_&_&_&->&_). exact Hq. }
  do 5 (split; [done|]).
  split; [intros d' Hd'; by apply fresh_id_fresh|].
  intros d' Hd' E. rewrite Hcol in Hin, Hd'.
  by apply (submit_id_unique w sys d' _ Hguard Hup Hw Hd' Hin).
Qed.

Lemma sent_message_matches_listener_witness :
  let sys := run me_world [OnUserSelect (Some alice); SetNewMessage "hello"]
               (initial_sys alice_wrote) in
  exists (q : Query) (d : MessageDoc),
    (fresh_id (nextId sys) (db sys), d)
      ∈ collection_docs (db (fst (handleSubmit me_world sys))) (q_collection q)
    /\ m_text d = "hello" /\ routing_tags d = 1
    /\ (forall d', d' ∈ messagesCol (db sys) ->
          fst d' <> fresh_id (nextId sys) (db sys)).
Proof.
  cbv zeta.
  destruct (sent_message_matches_listener me_world alice_wrote
              (run me_world [OnUserSelect (Some alice); SetNewMessage "hello"]
                 (initial_sys alice_wrote)))
    as (q & d & _ & _ & Hin & _ & Ht & _ & Htags & Hfresh & _).
  - apply reachable_step, reachable_step, reachable_initial.
  - vm_compute. reflexivity.
  - vm_compute. reflexivity.
  - vm_compute. reflexivity.
  - exists q, d. split; [exact Hin|]. split; [|split; [exact Htags|]].
    + rewrite Ht. vm_compute. reflexivity.
    + intros d' Hd'. apply Hfresh. by left.
Defined.

(** A matching document is in the window when the window is not full. *)
Lemma run_query_complete st q d :
  length (List.filter (matches q) (collection_docs st (q_collection q))) <= q_limit q ->
  d ∈ collection_docs st (q_collection q) ->
  field_of (q_where_field q) (snd d) = Some (q_where_value q) ->
  d ∈ run_query st q.
Proof.
  intros Hlen Hin Hf. unfold run_query.
  rewrite take_ge
    by (by rewrite (Permutation_length (order_by_timestamp_perm _ _))).
  rewrite order_by_timestamp_perm.
  apply list_elem_of_In, filter_In. split; [by apply list_elem_of_In|].
  unfold matches. by apply bool_decide_eq_true_2.
Qed.

(** X10: in any state the page reaches, after a send whose upload and
    first write succeed, the next snapshot of the messages listener shows
    the message sent, with the draft's text and [isAI = false], provided
    the stream of the target then holds at most fifty messages. *)
Theorem sent_message_shows_after_snapshot (w : World) (st : Store) (sys : Sys) :
  reachable w st sys ->
  nothing_to_send (chat sys) = false ->
  upload_fails w (chat sys) = false ->
  store_accepts w (writeAttempts sys) = true ->
  (forall q, messagesListener (chat sys) = Some q ->
     length (List.filter (matches q)
               (collection_docs (db (fst (handleSubmit w sys))) (q_collection q)))
     <= 50) ->
  exists m : MessageView,
    m ∈ messages (chat (run w [Submit; MessagesSnapshot] sys))
    /\ mv_id m = fresh_id (nextId sys) (db sys)
    /\ m_text (mv_doc m) = newMessage (chat sys)
    /\ mv_isAI m = false.
Proof.
  intros Hr Hguard Hup Hw Hroom.
  destruct (submit_matches_listener w st sys Hr Hguard Hup Hw)
    as (q & d & Hq & _ & Hin & Hf & Ht & _ & _ & HAI).
  destruct (view_invariant_reachable w st sys Hr) as [(Hl & _ & _) _].
  assert (Hlim : q_limit q = 50).
  { rewrite Hl in Hq. by destruct (messages_query_shape w _ q Hq). }
  cbn [run foldl]. rewrite step_snapshot_messages. cbn [step].
  destruct (frames_handleSubmit w sys) as (_&_&_&_&_&_&->&_). rewrite Hq.
  exists {| mv_id := fresh_id (nextId sys) (db sys); mv_doc := d;
            mv_isAI := default false (m_isAI d) |}.
  split; [|by repeat split].
  unfold snapshot_view. apply list_elem_of_In, in_map_iff.
  exists (fresh_id (nextId sys) (db sys), d). split; [reflexivity|].
  apply list_elem_of_In, run_query_complete; [|exact Hin|exact Hf].
  rewrite Hlim. by apply Hroom.
Qed.

Lemma sent_message_shows_after_snapshot_witness :
  exists m : MessageView,
    m ∈ messages
          (chat (run me_world [Submit; MessagesSnapshot]
                   (run me_world [OnUserSelect (Some alice); SetNewMessage "hello"]
                      (initial_sys alice_wrote))))
    /\ m_text (mv_doc m) = "hello".
Proof.
  destruct (sent_message_shows_after_snapshot me_world alice_wrote
              (run me_world [OnUserSelect (Some alice); SetNewMessage "hello"]
                 (initial_sys alice_wrote))) as (m & Hin & _ & Ht & _).
  - apply reachable_step, reachable_step, reachable_initial.
  - vm_compute. reflexivity.
  - vm_compute. reflexivity.
  - vm_compute. reflexivity.
  - intros q Hq. vm_compute in Hq. injection Hq as <-. vm_compute. lia.
  - exists m. split; [exact Hin|]. rewrite Ht. vm_compute. reflexivity.
Defined.

(** X11: when the upload of the draft's file fails, or the store refuses
    the write of the user's message, the send stops there: the store is
    as it was and the generation backend is not called.  After a failed
    upload not even a write is attempted. *)
Theorem failed_send_writes_nothing (w : World) (sys : Sys) :
  nothing_to_send (chat sys) = false ->
  upload_fails w (chat sys) = true
  \/ store_accepts w (writeAttempts sys) = false ->
  db (fst (handleSubmit w sys)) = db sys
  /\ genCalls (fst (handleSubmit w sys)) = genCalls sys
  /\ loading (chat (fst (handleSubmit w sys))) = false
  /\ (upload_fails w (chat sys) = true ->
        writeAttempts (fst (handleSubmit w sys)) = writeAttempts sys
        /\ nextId (fst (handleSubmit w sys)) = nextId sys).
Proof.
  intros Hguard H.
  unfold handleSubmit. rewrite Hguard. unfold upload_fails in *.
  destruct sys as [c st al gc wa ni].
  cbn [chat writeAttempts db nextId genCalls] in *.
  destruct (selectedAI c) eqn:HAI, (selectedFile c) as [f|] eqn:Hf;
    act_eval; rewrite ?HAI, ?Hf; act_eval;
    try (destruct (uploadFileToCloudinary w f) as [r|] eqn:Hr; act_eval);
    try (destruct H as [H|H]; [discriminate H|]; rewrite H; act_eval);
    repeat split; try reflexivity; try discriminate.
Qed.

Lemma failed_send_writes_nothing_witness :
  let sys := run (accepting_first 0) [OnUserSelect (Some alice); SetNewMessage "hello"]
               (initial_sys alice_wrote) in
  db (fst (handleSubmit (accepting_first 0) sys)) = alice_wrote.
Proof.
  cbv zeta.
  destruct (failed_send_writes_nothing (accepting_first 0)
              (run (accepting_first 0)
                 [OnUserSelect (Some alice); SetNewMessage "hello"]
                 (initial_sys alice_wrote))) as (Hdb & _).
  - vm_compute. reflexivity.
  - right. vm_compute. reflexivity.
  - rewrite Hdb. vm_compute. reflexivity.
Defined.

(** X12: a send makes at most one request to the generation backend, and
    none unless the assistant is the target.  Without a file the request
    is the draft's text.  With a file it is made only for an image that
    was uploaded and fetched back, and carries the fetched bytes with
    their type and the draft's text, or the fixed question when the text
    is empty. *)
Theorem submit_calls_backend_once (w : World) (sys : Sys) :
  genCalls (fst (handleSubmit w sys)) = genCalls sys
  \/ (selectedAI (chat sys) = true
      /\ exists req,
           genCalls (fst (handleSubmit w sys)) = (genCalls sys ++ [req])%list
           /\ match selectedFile (chat sys) with
              | None => req = GenText (newMessage (chat sys))
              | Some f =>
                  startsWith (file_type f) "image/" = true
                  /\ exists r blob,
                       uploadFileToCloudinary w f = Some r
                       /\ fetch_blob w (up_url r) = Some blob
                       /\ req = GenMultimodal
                                  (if truthy (newMessage (chat sys))
                                   then newMessage (chat sys)
                                   else "What do you see in this image?")
                                  (blob_base64 blob) (blob_type blob)
              end).
Proof.
  unfold handleSubmit.
  destruct sys as [c st al gc wa ni]. cbn [chat genCalls].
  destruct (nothing_to_send c); [by left|].
  destruct (selectedAI c) eqn:HAI, (selectedFile c) as [f|] eqn:Hf;
    act_eval; rewrite ?HAI, ?Hf; run_submit;
    first [ by left
          | right; split; [reflexivity|]; eexists; split; [reflexivity|];
            first [ reflexivity
                  | split; [reflexivity|]; eexists _, _;
                    split; [reflexivity|]; split; [eassumption|reflexivity] ] ].
Qed.

(** X13: when [handleSubmit] is over, [loading] is off again.  A send to
    a user or a group leaves [aiLoading] alone.  On the assistant target,
    once the user's message is written, [aiLoading] is off again exactly
    when a message of the assistant got written; when the store refuses
    the reply and the apology, or the apology after a failed generation,
    [aiLoading] stays on. *)
Theorem submit_loading_flags (w : World) (sys : Sys) :
  nothing_to_send (chat sys) = false ->
  loading (chat (fst (handleSubmit w sys))) = false
  /\ (selectedAI (chat sys) = false ->
        aiLoading (chat (fst (handleSubmit w sys))) = aiLoading (chat sys))
  /\ (selectedAI (chat sys) = true ->
      upload_fails w (chat sys) = false ->
      store_accepts w (writeAttempts sys) = true ->
        aiLoading (chat (fst (handleSubmit w sys))) = negb (send_succeeds w sys)).
Proof.
  intros Hguard.
  unfold handleSubmit. rewrite Hguard.
  unfold send_succeeds, upload_fails, generation_failed.
  destruct sys as [c st al gc wa ni]. cbn [chat writeAttempts].
  destruct (selectedAI c) eqn:HAI, (selectedFile c) as [f|] eqn:Hf;
    act_eval; rewrite ?HAI, ?Hf; run_submit; cbn [negb andb orb];
    repeat split; try reflexivity; try discriminate; try congruence.
Qed.

Lemma submit_loading_flags_witness :
  let sys := run (accepting_first 1) [Navigate "ai"; SetNewMessage "hi"]
               (initial_sys no_store) in
  loading (chat (fst (handleSubmit (accepting_first 1) sys))) = false
  /\ aiLoading (chat (fst (handleSubmit (accepting_first 1) sys))) = true.
Proof.
  cbv zeta.
  destruct (submit_loading_flags (accepting_first 1)
              (run (accepting_first 1) [Navigate "ai"; SetNewMessage "hi"]
                 (initial_sys no_store))) as (Hl & _ & Hai).
  - vm_compute. reflexivity.
  - split; [exact Hl|]. rewrite Hai; vm_compute; reflexivity.
Defined.

(** *** [handleDeleteMessage] *)

Lemma filter_keep_all {A : Type} (P : A -> bool) (l : list A) :
  (forall x, In x l -> P x = true) -> List.filter P l = l.
Proof.
  induction l as [|x l IH]; intros H; [reflexivity|].
  cbn [List.filter]. rewrite (H x) by (by left).
  f_equal. apply IH. intros y Hy. apply H. by right.
Qed.

(** X14: [handleDeleteMessage] never raises and never notifies, whatever
    the store answers.  When the store accepts, the collection chosen by
    the flag [isAI] loses exactly the documents with the given id; the
    other collection and the conversation documents, [lastMessage]
    included, stay as they are, so a message of the assistant stream
    deleted with [isAI = false] stays.  When no document of the chosen
    collection has the id, or the store refuses, the store is unchanged. *)
Theorem delete_removes_by_id (w : World) (sys : Sys) (messageId : nat)
  (isAI : bool) :
  snd (handleDeleteMessage w messageId isAI sys) = Done tt
  /\ alerts (fst (handleDeleteMessage w messageId isAI sys)) = alerts sys
  /\ chat (fst (handleDeleteMessage w messageId isAI sys)) = chat sys
  /\ conversationsCol (db (fst (handleDeleteMessage w messageId isAI sys)))
     = conversationsCol (db sys)
  /\ collection_docs (db (fst (handleDeleteMessage w messageId isAI sys)))
       (if isAI then ColMessages else ColAiMessages)
     = collection_docs (db sys) (if isAI then ColMessages else ColAiMessages)
  /\ (store_accepts w (writeAttempts sys) = true ->
        forall d,
          d ∈ collection_docs (db (fst (handleDeleteMessage w messageId isAI sys)))
                (if isAI then ColAiMessages else ColMessages)
          <-> d ∈ collection_docs (db sys) (if isAI then ColAiMessages else ColMessages)
              /\ fst d <> messageId)
  /\ (store_accepts w (writeAttempts sys) = false
      \/ (forall d, d ∈ collection_docs (db sys)
                          (if isAI then ColAiMessages else ColMessages) ->
                    fst d <> messageId) ->
        db (fst (handleDeleteMessage w messageId isAI sys)) = db sys).
Proof.
  unfold handleDeleteMessage, try_catch, request_write, mret, Act_ret.
  destruct sys as [c st al gc wa ni]. cbn [writeAttempts db alerts chat].
  assert (Hmem : forall (l : list (nat * MessageDoc)) d,
             d ∈ List.filter (fun d => negb (fst d =? messageId)%nat) l
             <-> d ∈ l /\ fst d <> messageId).
  { intros l d. rewrite !list_elem_of_In, filter_In.
    rewrite negb_true_iff, Nat.eqb_neq. done. }
  assert (Hall : forall (l : list (nat * MessageDoc)),
             (forall d, d ∈ l -> fst d <> messageId) ->
             List.filter (fun d => negb (fst d =? messageId)%nat) l = l).
  { intros l H. apply filter_keep_all. intros d Hd.
    apply negb_true_iff, Nat.eqb_neq, H. by apply list_elem_of_In. }
  destruct (store_accepts w wa); cbn [fst snd db alerts chat].
  - destruct isAI; cbn [delete_doc conversationsCol collection_docs
                         messagesCol aiMessagesCol];
      do 5 (split; [reflexivity|]); (split; [intros _ d; apply Hmem|]);
      (intros [H|H]; [discriminate|]); destruct st;
      cbn [collection_docs messagesCol aiMessagesCol conversationsCol
           serverClock] in *;
      by rewrite (Hall _ H).
  - do 5 (split; [reflexivity|]). split; [discriminate|]. reflexivity.
Qed.

(** *** More on [handleForwardMessage] *)

Lemma foldl_apply_write_ai now batch st :
  aiMessagesCol (foldl (apply_write now) st batch) = aiMessagesCol st.
Proof.
  revert st. induction batch as [|[id d|k p] batch IH]; intros st;
    cbn [foldl]; [reflexivity| |]; by rewrite IH.
Qed.

(** The store after a forward. *)
Lemma forward_store (w : World) (sys : Sys) (message : MessageView)
  (l : list string) :
  db (fst (handleForwardMessage w message l sys))
  = if forward_commits w sys l && negb (bool_decide (l = []))
    then apply_batch (db sys)
           (batch_of w (chat sys) message (fresh_id (nextId sys) (db sys)) l)
    else db sys.
Proof.
  destruct (handleForwardMessage_outcome w message l sys) as [_ Hout].
  destruct (forward_commits w sys l).
  - destruct Hout as [_ ->]. by destruct l.
  - by destruct Hout as [-> _].
Qed.

Lemma truthy_displayName w c : truthy (displayName_of w c) = true.
Proof.
  unfold displayName_of, or_else.
  destruct (currentUserData c ≫= user_name) as [n|].
  - destruct (truthy n) eqn:En; [exact En|].
    destruct (auth_displayName w) as [a|]; [|reflexivity].
    destruct (truthy a) eqn:Ea; [exact Ea|reflexivity].
  - destruct (auth_displayName w) as [a|]; [|reflexivity].
    destruct (truthy a) eqn:Ea; [exact Ea|reflexivity].
Qed.

Lemma forwarded_docs_elem w c message now id l d :
  d ∈ forwarded_docs w c message now id l ->
  exists uid, uid ∈ l
    /\ snd d = stamp now
                 (forwardedMessage w c message (conversationKey (auth_uid w) uid) uid).
Proof.
  revert id. induction l as [|u l IH]; intros id Hd; cbn [forwarded_docs] in Hd.
  - by apply elem_of_nil in Hd.
  - apply elem_of_cons in Hd. destruct Hd as [->|Hd].
    + exists u. split; [by left|reflexivity].
    + destruct (IH _ Hd) as (uid & Hin & E). exists uid. split; [by right|exact E].
Qed.

(** X15: every message a committed forward inserts is a copy of the
    forwarded one: the same text and file, [forwarded = true], the
    signed-in user as sender with a display name that is never empty, one
    of the recipients as receiver with the conversation key of the pair,
    the commit's server time, and as [originalSender] the uid of the
    forwarded message or, when it has none, ["AI"] for a message of the
    assistant and ["Unknown"] otherwise.  It carries no [groupId] and no
    [userId]. *)
Theorem forwarded_messages_are_copies (w : World) (sys : Sys)
  (message : MessageView) (l : list string) :
  forward_commits w sys l = true ->
  exists new : list (nat * MessageDoc),
    messagesCol (db (fst (handleForwardMessage w message l sys)))
    = (messagesCol (db sys) ++ new)%list
    /\ forall d, d ∈ new ->
         m_text (snd d) = m_text (mv_doc message)
         /\ m_fileData (snd d) = m_fileData (mv_doc message)
         /\ m_forwarded (snd d) = Some true
         /\ m_uid (snd d) = Some (auth_uid w)
         /\ m_timestamp (snd d) = serverClock (db sys)
         /\ (exists uid, uid ∈ l
                         /\ m_receiverId (snd d) = Some uid
                         /\ m_conversationId (snd d)
                            = Some (conversationKey (auth_uid w) uid))
         /\ m_originalSender (snd d)
            = Some (match m_uid (mv_doc message) with
                    | Some s => if truthy s then s
                                else if mv_isAI message then "AI" else "Unknown"
                    | None => if mv_isAI message then "AI" else "Unknown"
                    end)
         /\ (exists n, m_displayName (snd d) = Some n /\ truthy n = true)
         /\ routing_tags (snd d) = 1.
Proof.
  intros Hc.
  exists (forwarded_docs w (chat sys) message (serverClock (db sys))
            (fresh_id (nextId sys) (db sys)) l).
  split.
  - rewrite forward_store, Hc. destruct l as [|u l]; [by rewrite app_nil_r|].
    rewrite bool_decide_eq_false_2 by discriminate. cbn [andb negb].
    unfold apply_batch. cbn [tick messagesCol].
    by rewrite foldl_apply_write_messages, batch_messages_batch_of.
  - intros d Hd. apply forwarded_docs_elem in Hd.
    destruct Hd as (uid & Hin & ->).
    unfold stamp, forwardedMessage, routing_tags.
    cbn [m_text m_fileData m_forwarded m_uid m_timestamp m_receiverId
         m_conversationId m_originalSender m_displayName m_groupId m_userId].
    do 5 (split; [reflexivity|]). split; [by exists uid|].
    split.
    + unfold or_else. destruct (m_uid (mv_doc message)) as [s|]; [|reflexivity].
      by destruct (truthy s).
    + split; [|reflexivity]. eexists. split; [reflexivity|].
      apply truthy_displayName.
Qed.

Lemma forwarded_messages_are_copies_witness :
  exists new : list (nat * MessageDoc),
    messagesCol
      (db (fst (handleForwardMessage me_world
                  {| mv_id := 0; mv_doc := aiMessage me_world "hello";
                     mv_isAI := true |}
                  ["alice"; "bob"] (initial_sys no_store))))
    = (messagesCol (db (initial_sys no_store)) ++ new)%list
    /\ forall d, d ∈ new ->
         m_forwarded (snd d) = Some true /\ m_originalSender (snd d) = Some "AI".
Proof.
  destruct (forwarded_messages_are_copies me_world (initial_sys no_store)
              {| mv_id := 0; mv_doc := aiMessage me_world "hello"; mv_isAI := true |}
              ["alice"; "bob"]) as (new & Hcol & Hall).
  - vm_compute. reflexivity.
  - exists new. split; [exact Hcol|]. intros d Hd.
    destruct (Hall d Hd) as (_ & _ & Hf & _ & _ & _ & Ho & _).
    split; [exact Hf | exact Ho].
Defined.

Lemma filter_drop_all {A : Type} (P : A -> bool) (l : list A) :
  (forall x, In x l -> P x = false) -> List.filter P l = [].
Proof.
  induction l as [|x l IH]; intros H; [reflexivity|].
  cbn [List.filter]. rewrite (H x) by (by left).
  apply IH. intros y Hy. apply H. by right.
Qed.

(** X16: a forward, committed or not, leaves the assistant stream and
    every conversation document that is not a recipient's as they are,
    and keeps the messages that were there, in their order. *)
Theorem forward_touches_recipients_only (w : World) (sys : Sys)
  (message : MessageView) (l : list string) :
  aiMessagesCol (db (fst (handleForwardMessage w message l sys)))
  = aiMessagesCol (db sys)
  /\ (forall k,
        (forall uid, uid ∈ l -> convo_path (conversationKey (auth_uid w) uid) <> k) ->
        conversationsCol (db (fst (handleForwardMessage w message l sys))) !! k
        = conversationsCol (db sys) !! k)
  /\ exists new,
       messagesCol (db (fst (handleForwardMessage w message l sys)))
       = (messagesCol (db sys) ++ new)%list.
Proof.
  rewrite forward_store.
  destruct (forward_commits w sys l && negb (bool_decide (l = []))).
  - unfold apply_batch. cbn [tick aiMessagesCol conversationsCol messagesCol].
    split; [apply foldl_apply_write_ai|]. split.
    + intros k Hk. rewrite foldl_apply_write_convo, patches_for_batch_of.
      rewrite filter_drop_all; [reflexivity|].
      intros uid Hin. apply bool_decide_eq_false_2, Hk.
      by apply list_elem_of_In.
    + eexists. apply foldl_apply_write_messages.
  - split; [reflexivity|]. split; [reflexivity|].
    exists []. by rewrite app_nil_r.
Qed.

Lemma field_of_stamp (f : Field) (now : nat) (d : MessageDoc) :
  field_of f (stamp now d) = field_of f d.
Proof. by destruct f. Qed.

(** X17: a message that the signed-in user sends or forwards to a user
    carries the tag that the messages query of that user's own client
    filters on when it has the sender selected: both clients derive the
    same conversation key.  Once the message is stored, that query shows
    it, provided the conversation holds at most fifty messages. *)
Theorem recipient_query_selects_message (w w' : World) (c c' : ChatState)
  (u sender : User) (message : MessageView) (fileData : option FileData)
  (id : nat) :
  selectedUser c = Some u ->
  auth_uid w' = user_uid u ->
  selectedUser c' = Some sender ->
  user_uid sender = auth_uid w ->
  exists q,
    messages_query w' c' = Some q
    /\ q_collection q = ColMessages
    /\ matches q (id, messageData w c fileData) = true
    /\ matches q (id, forwardedMessage w c message
                        (conversationKey (auth_uid w) (user_uid u)) (user_uid u))
       = true
    /\ (forall (st : Store) (now : nat) (d : MessageDoc),
          d = messageData w c fileData
          \/ d = forwardedMessage w c message
                   (conversationKey (auth_uid w) (user_uid u)) (user_uid u) ->
          (id, stamp now d) ∈ messagesCol st ->
          length (List.filter (matches q) (messagesCol st)) <= 50 ->
          (id, stamp now d) ∈ run_query st q
          /\ {| mv_id := id; mv_doc := stamp now d; mv_isAI := false |}
               ∈ snapshot_view (run_query st q)).
Proof.
  intros Hu Hme Hs Hsender.
  unfold messages_query. rewrite Hs, Hme, Hsender.
  eexists.
  assert (Hm : forall d,
            d = messageData w c fileData
            \/ d = forwardedMessage w c message
                     (conversationKey (auth_uid w) (user_uid u)) (user_uid u) ->
            field_of FConversationId d
            = Some (js_join "_" (participants_of (user_uid u) (auth_uid w)))
            /\ m_isAI d = None).
  { intros d [->| ->]; unfold messageData, forwardedMessage;
      cbn [field_of m_conversationId m_isAI]; rewrite ?Hu;
      change (js_join "_" (participants_of ?a ?b)) with (conversationKey a b);
      (split; [f_equal; apply conversationKey_sym|reflexivity]). }
  split; [reflexivity|]. split; [reflexivity|].
  split; [apply bool_decide_eq_true_2, Hm; by left|].
  split; [apply bool_decide_eq_true_2, Hm; by right|].
  intros st now d Hd Hin Hlen.
  destruct (Hm d Hd) as [Hfield HAI].
  assert (Hrun : (id, stamp now d)
                   ∈ run_query st
                       {| q_collection := ColMessages;
                          q_where_field := FConversationId;
                          q_where_value :=
                            js_join "_" (participants_of (user_uid u) (auth_uid w));
                          q_order := Asc; q_limit := 50 |}).
  { apply run_query_complete; [exact Hlen|exact Hin|].
    cbn [q_where_field q_where_value snd]. by rewrite field_of_stamp. }
  split; [exact Hrun|].
  unfold snapshot_view. apply list_elem_of_In, in_map_iff.
  exists (id, stamp now d). split; [|by apply list_elem_of_In].
  cbn [fst snd stamp m_isAI]. by rewrite HAI.
Qed.

Lemma recipient_query_selects_message_witness :
  exists q,
    messages_query
      {| auth_uid := "alice"; auth_displayName := None;
         uploadFileToCloudinary := uploadFileToCloudinary me_world;
         fetch_blob := fetch_blob me_world;
         generateContent := generateContent me_world;
         store_accepts := store_accepts me_world |}
      (onUserSelect
         (Some {| user_id := "d0"; user_uid := "me"; user_name := None;
                  user_photoURL := None |}) initial_chat)
    = Some q
    /\ matches q (7, messageData me_world (onUserSelect (Some alice) initial_chat) None)
       = true.
Proof.
  destruct (recipient_query_selects_message me_world
              {| auth_uid := "alice"; auth_displayName := None;
                 uploadFileToCloudinary := uploadFileToCloudinary me_world;
                 fetch_blob := fetch_blob me_world;
                 generateContent := generateContent me_world;
                 store_accepts := store_accepts me_world |}
              (onUserSelect (Some alice) initial_chat)
              (onUserSelect
                 (Some {| user_id := "d0"; user_uid := "me"; user_name := None;
                          user_photoURL := None |}) initial_chat)
              alice
              {| user_id := "d0"; user_uid := "me"; user_name := None;
                 user_photoURL := None |}
              {| mv_id := 0; mv_doc := aiMessage me_world "hello"; mv_isAI := true |}
              None 7) as (q & Hq & _ & Hm & _); try reflexivity.
  exists q. split; [exact Hq | exact Hm].
Defined.

(** *** The recorded presence *)

Lemma listened_uid_truthy c uid : listened_uid c = Some uid -> truthy uid = true.
Proof.
  unfold listened_uid. destruct (selectedUser c) as [u|]; [|discriminate].
  destruct (truthy (user_uid u)) eqn:E; [|discriminate]. by intros [= <-].
Qed.

Lemma truthy_status_default (o : option string) :
  truthy (default "offline" (or_else o None)) = true.
Proof.
  unfold or_else. destruct o as [x|]; [|reflexivity].
  destruct (truthy x) eqn:E; [exact E|reflexivity].
Qed.

Lemma status_well_formed_step w e sys :
  view_invariant w (chat sys) ->
  status_well_formed (chat sys) -> status_well_formed (chat (step w e sys)).
Proof.
  intros [(_ & Hs & Ht) _] [Hst Hty]. split.
  - intros uid rec. rewrite step_userStatus.
    destruct e; try apply Hst.
    destruct (statusListener (chat sys)) as [l|] eqn:El; [|apply Hst].
    rewrite lookup_insert. case_decide as E; [|apply Hst].
    subst l. intros [= <-]. cbn [st_status].
    split; [|apply truthy_status_default].
    apply (listened_uid_truthy (chat sys)). congruence.
  - intros uid v. rewrite step_typingStatus.
    destruct e; try apply Hty.
    destruct (typingListener (chat sys)) as [l|] eqn:El; [|apply Hty].
    rewrite lookup_insert. case_decide as E; [|apply Hty].
    subst l. intros _. apply (listened_uid_truthy (chat sys)). congruence.
Qed.

(** X18: in every state the page reaches, each entry of [userStatus] and
    of [typingStatus] is under a uid that is not empty, and a recorded
    status is never empty: a value without a status, or with an empty
    one, is recorded as ["offline"], and a null value as ["offline"]
    without [lastChanged]. *)
Theorem recorded_status_well_formed (w : World) (st : Store) (sys : Sys) :
  reachable w st sys ->
  (forall uid rec, userStatus (chat sys) !! uid = Some rec ->
     truthy uid = true /\ truthy (st_status rec) = true)
  /\ (forall uid v, typingStatus (chat sys) !! uid = Some v -> truthy uid = true)
  /\ (forall uid, statusListener (chat sys) = Some uid ->
        userStatus (chat (step w (StatusValue None) sys)) !! uid
        = Some {| st_status := "offline"; st_lastChanged := None |}
        /\ forall t,
             userStatus
               (chat (step w (StatusValue
                                (Some {| sd_status := Some EmptyString;
                                         sd_lastChanged := t |})) sys)) !! uid
             = Some {| st_status := "offline"; st_lastChanged := t |}).
Proof.
  intros Hr.
  assert (Hwf : status_well_formed (chat sys)).
  { induction Hr as [|e sys Hr IH].
    - split; intros uid x Hx; cbn [initial_sys chat initial_chat userStatus
                                     typingStatus] in Hx;
        by rewrite lookup_empty in Hx.
    - apply status_well_formed_step; [|exact IH].
      by apply (view_invariant_reachable w st). }
  destruct Hwf as [Hst Hty]. split; [exact Hst|]. split; [exact Hty|].
  intros uid Hl. split; [|intros t]; rewrite step_userStatus, Hl; cbv iota;
    rewrite lookup_insert_eq; reflexivity.
Qed.

Lemma recorded_status_well_formed_witness :
  userStatus
    (chat (step me_world (StatusValue None)
             (run me_world [OnUserSelect (Some alice)] (initial_sys no_store))))
  !! "alice"
  = Some {| st_status := "offline"; st_lastChanged := None |}.
Proof.
  destruct (recorded_status_well_formed me_world no_store
              (run me_world [OnUserSelect (Some alice)] (initial_sys no_store)))
    as (_ & _ & H).
  - apply reachable_step, reachable_initial.
  - destruct (H "alice") as [H0 _]; [vm_compute; reflexivity|exact H0].
Defined.

(** *** Deliveries of the listeners *)

Lemma run_effects_same w prev s :
  selectedUser s = selectedUser prev -> selectedGroup s = selectedGroup prev ->
  selectedAI s = selectedAI prev -> run_effects w prev s = s.
Proof.
  intros Eu Eg Ea. unfold run_effects.
  rewrite !bool_decide_eq_true_2 by congruence. reflexivity.
Qed.

Lemma render_users w us c :
  run_effects w c (on_users_snapshot w us c) = on_users_snapshot w us c.
Proof. by apply run_effects_same. Qed.

Lemma render_groups w gs c :
  run_effects w c (on_groups_snapshot w gs c) = on_groups_snapshot w gs c.
Proof. by apply run_effects_same. Qed.

Lemma render_messages w st c :
  run_effects w c (on_messages_snapshot st c) = on_messages_snapshot st c.
Proof.
  apply run_effects_same; unfold on_messages_snapshot;
    by destruct (messagesListener c).
Qed.

Lemma render_status w d c :
  run_effects w c (on_status_value d c) = on_status_value d c.
Proof.
  apply run_effects_same; unfold on_status_value;
    by destruct (statusListener c).
Qed.

Lemma render_typing w v c :
  run_effects w c (on_typing_value v c) = on_typing_value v c.
Proof.
  apply run_effects_same; unfold on_typing_value;
    by destruct (typingListener c).
Qed.

Ltac delivery_eval :=
  unfold step, render; cbn [chat db alerts genCalls writeAttempts nextId];
  rewrite ?render_users, ?render_groups, ?render_messages, ?render_status,
    ?render_typing;
  unfold on_users_snapshot, on_groups_snapshot, on_messages_snapshot,
    on_status_value, on_typing_value.

(** X19: deliveries of two different listeners (users, groups, messages,
    status, typing) commute: each callback writes its own part of the
    state, so the state after both does not depend on which came
    first. *)
Theorem deliveries_commute (w : World) (e1 e2 : Event) (s1 s2 : Stream)
  (sys : Sys) :
  stream_of e1 = Some s1 -> stream_of e2 = Some s2 -> s1 <> s2 ->
  step w e1 (step w e2 sys) = step w e2 (step w e1 sys).
Proof.
  intros H1 H2 Hne.
  destruct sys as [c st al gc wa ni].
  destruct c as [us gs su sg sa nm ms sf ld cud ty stt ail ml sl tl].
  destruct e1, e2; try discriminate H1; try discriminate H2;
    injection H1 as <-; injection H2 as <-; try congruence;
    delivery_eval; unfold_setters;
    cbn [users groups selectedUser selectedGroup selectedAI newMessage messages
         selectedFile loading currentUserData typingStatus userStatus aiLoading
         messagesListener statusListener typingListener];
    try destruct ml; try destruct sl; try destruct tl; reflexivity.
Qed.

Lemma deliveries_commute_witness :
  step me_world MessagesSnapshot
    (step me_world (StatusValue None)
       (run me_world [OnUserSelect (Some alice)] (initial_sys alice_wrote)))
  = step me_world (StatusValue None)
      (step me_world MessagesSnapshot
         (run me_world [OnUserSelect (Some alice)] (initial_sys alice_wrote))).
Proof.
  apply (deliveries_commute me_world MessagesSnapshot (StatusValue None)
           StreamMessages StreamStatus); [reflexivity|reflexivity|discriminate].
Defined.

(** X20: a delivery of a listener overwrites the earlier delivery of the
    same listener: of two snapshots of the users, the groups or the
    messages, or two values of the status or of the typing listener, only
    the later one shows in the state.  For the messages listener, whose
    snapshot is read from the store, this holds whatever the store was at
    the first snapshot and is at the second. *)
Theorem later_delivery_wins (w : World) (e1 e2 : Event) (s : Stream) (sys : Sys) :
  stream_of e1 = Some s -> stream_of e2 = Some s ->
  step w e2 (step w e1 sys) = step w e2 sys
  /\ forall st1 st2 : Store,
       step w e2 (with_store st2 (step w e1 (with_store st1 sys)))
       = step w e2 (with_store st2 sys).
Proof.
  intros H1 H2.
  destruct sys as [c st al gc wa ni].
  destruct c as [us gs su sg sa nm ms sf ld cud ty stt ail ml sl tl].
  split; [|intros st1 st2; unfold with_store];
    (destruct e1, e2; try discriminate H1; try discriminate H2;
     injection H1 as <-; try discriminate H2;
     delivery_eval; unfold_setters;
     cbn [users groups selectedUser selectedGroup selectedAI newMessage messages
          selectedFile loading currentUserData typingStatus userStatus aiLoading
          messagesListener statusListener typingListener];
     try destruct ml; try destruct sl; try destruct tl;
     cbn [users groups selectedUser selectedGroup selectedAI newMessage messages
          selectedFile loading currentUserData typingStatus userStatus aiLoading
          messagesListener statusListener typingListener];
     rewrite ?insert_insert_eq; reflexivity).
Qed.

(** Two snapshots of the users; two snapshots of the messages of alice,
    who wrote between them. *)
Lemma later_delivery_wins_witness :
  step me_world (UsersSnapshot [alice])
    (step me_world (UsersSnapshot [alice; bob]) (initial_sys no_store))
  = step me_world (UsersSnapshot [alice]) (initial_sys no_store)
  /\ step me_world MessagesSnapshot
       (with_store alice_wrote
          (step me_world MessagesSnapshot
             (with_store no_store
                (run me_world [OnUserSelect (Some alice)] (initial_sys no_store)))))
     = step me_world MessagesSnapshot
         (with_store alice_wrote
            (run me_world [OnUserSelect (Some alice)] (initial_sys no_store))).
Proof.
  split.
  - exact (proj1 (later_delivery_wins me_world (UsersSnapshot [alice; bob])
                    (UsersSnapshot [alice]) StreamUsers (initial_sys no_store)
                    eq_refl eq_refl)).
  - exact (proj2 (later_delivery_wins me_world MessagesSnapshot
                    MessagesSnapshot StreamMessages
                    (run me_world [OnUserSelect (Some alice)]
                       (initial_sys no_store)) eq_refl eq_refl)
             no_store alice_wrote).
Defined.

(** *** What the handlers leave to the listeners *)

(** X21: [handleSubmit], [handleForwardMessage] and [handleDeleteMessage]
    write nothing of what the page shows: the selection, [messages], the
    presence and typing maps, the three listeners and [currentUserData]
    are after the handler what they were before, whatever the
    collaborators answer.  A message sent, forwarded or deleted shows in
    [messages] only through a later snapshot of the listener. *)
Theorem handlers_leave_view (w : World) (sys : Sys) (message : MessageView)
  (recipientIds : list string) (messageId : nat) (isAI : bool) :
  untouched (chat sys) (chat (fst (handleSubmit w sys)))
  /\ untouched (chat sys)
       (chat (fst (handleForwardMessage w message recipientIds sys)))
  /\ untouched (chat sys) (chat (fst (handleDeleteMessage w messageId isAI sys)))
  /\ messages (chat (step w Submit sys)) = messages (chat sys)
  /\ messages (chat (step w (DeleteMessage messageId isAI) sys))
     = messages (chat sys).
Proof.
  pose proof (frames_handleSubmit w sys) as Hs.
  pose proof (frames_handleForwardMessage w message recipientIds sys) as Hf.
  pose proof (frames_handleDeleteMessage w messageId isAI sys) as Hd.
  split; [exact Hs|]. split; [exact Hf|]. split; [exact Hd|].
  cbn [step]. split.
  - by destruct Hs as (_&_&_&->&_).
  - by destruct Hd as (_&_&_&->&_).
Qed.
